(** * UxPlay command shell: argument validation, watchdog and lifecycle

    A shallow embedding of [uxplay.cpp] (UxPlay 1.38).  Machine integers are
    [Z] with the wrap-around written out, [std::string] is [string], the
    fixed-size arrays [display[5]], [tcp[3]], [udp[3]] are lists updated by
    index, output parameters are returned next to the result, and the
    module-level variables of the file are threaded as a record. *)

From Stdlib Require Import ZArith Lia ZifyBool Ascii.
From stdpp Require Import base list strings gmap.

Local Open Scope Z_scope.

(** ** The C library routines the file calls *)

Module C.

Definition code (c : ascii) : Z := Z.of_N (N_of_ascii c).

(** [isspace] in the "C" locale: space, and \t \n \v \f \r. *)
Definition isspace (c : ascii) : bool :=
  (code c =? 32) || ((9 <=? code c) && (code c <=? 13)).

(** Value of a character as a digit in bases up to 36. *)
Definition digit_value (c : ascii) : option Z :=
  let n := code c in
  if (48 <=? n) && (n <=? 57) then Some (n - 48)
  else if (97 <=? n) && (n <=? 122) then Some (n - 87)
  else if (65 <=? n) && (n <=? 90) then Some (n - 55)
  else None.

Definition digit_in (base : Z) (c : ascii) : option Z :=
  match digit_value c with
  | Some d => if d <? base then Some d else None
  | None => None
  end.

Fixpoint skip_space (s : string) : string :=
  match s with
  | String c r => if isspace c then skip_space r else s
  | EmptyString => s
  end.

(** The longest run of digits at the head of [s], accumulated onto [acc];
    the second component is what [endptr] points at. *)
Fixpoint accum (base acc : Z) (s : string) : Z * string :=
  match s with
  | String c r =>
      match digit_in base c with
      | Some d => accum base (acc * base + d) r
      | None => (acc, s)
      end
  | EmptyString => (acc, s)
  end.

Definition starts_with_digit (base : Z) (s : string) : bool :=
  match s with
  | String c _ => match digit_in base c with Some _ => true | None => false end
  | EmptyString => false
  end.

(** An optional [0x] / [0X] in front of a hexadecimal digit. *)
Definition skip_hex_prefix (s : string) : string :=
  match s with
  | String z (String x r) =>
      if (code z =? 48) && ((code x =? 120) || (code x =? 88))
         && starts_with_digit 16 r
      then r else s
  | _ => s
  end.

(** The subject sequence of the [strtol] family: white space, one optional
    sign, digits.  [None] when no conversion can be performed; otherwise the
    sign, the magnitude read and the unread tail. *)
Definition scan (base : Z) (s : string) : option (bool * Z * string) :=
  let s1 := skip_space s in
  let '(neg, s2) :=
    match s1 with
    | String c r =>
        if code c =? 45 then (true, r)
        else if code c =? 43 then (false, r)
        else (false, s1)
    | EmptyString => (false, s1)
    end in
  let s3 := if base =? 16 then skip_hex_prefix s2 else s2 in
  if starts_with_digit base s3
  then let '(v, e) := accum base 0 s3 in Some (neg, v, e)
  else None.

(** [strtoul(s, &end, 10)] for an [unsigned long] of [bits] bits: the value
    and the string at [end].  Out of range gives [ULONG_MAX]; a minus sign
    negates in the unsigned type. *)
Definition strtoul_gen (bits : Z) (s : string) : Z * string :=
  match scan 10 s with
  | None => (0, s)
  | Some (neg, v, e) =>
      if 2 ^ bits - 1 <? v then (2 ^ bits - 1, e)
      else (if neg then (- v) mod 2 ^ bits else v, e)
  end.

(** The targets of the program are LP64: [unsigned long] has 64 bits. *)
Definition ULONG_BITS : Z := 64.
Definition strtoul : string -> Z * string := strtoul_gen ULONG_BITS.

Definition LONG_MAX : Z := 2 ^ 63 - 1.

(** [std::stol(s, NULL, 16)]: [None] when it throws ([invalid_argument]
    without a conversion, [out_of_range] past the range of [long]). *)
Definition stol16 (s : string) : option Z :=
  match scan 16 s with
  | None => None
  | Some (neg, v, _) =>
      if neg then (if LONG_MAX + 1 <? v then None else Some (- v))
      else (if LONG_MAX <? v then None else Some v)
  end.

(** [snprintf(str, 3, "%02x", n)] for [0 <= n]: lower-case hexadecimal,
    zero-padded to two digits, cut to the two characters the buffer holds. *)
Definition hex_digit (d : Z) : ascii :=
  ascii_of_N (Z.to_N (if d <? 10 then 48 + d else 87 + d)).

(** The value of the two leading hexadecimal digits of [m]. *)
Fixpoint leading_byte (fuel : nat) (m : Z) : Z :=
  match fuel with
  | O => m
  | S k => if m <? 256 then m else leading_byte k (m / 16)
  end.

Definition snprintf_02x (n : Z) : string :=
  let m := leading_byte (Z.to_nat n) n in
  String (hex_digit (m / 16)) (String (hex_digit (m mod 16)) EmptyString).

(** Conversions to the unsigned integer types. *)
Definition u16 (z : Z) : Z := z mod 65536.
Definition u32 (z : Z) : Z := z mod 4294967296.
(** A [char] is kept as its bit pattern, a value in 0..255. *)
Definition to_char (z : Z) : Z := z mod 256.

End C.

(** ** The [std::string] operations the file uses *)

Module Str.

Definition eq_char (a b : ascii) : bool := Ascii.eqb a b.

(** [s.find_first_of(c)]; [None] is [npos]. *)
Fixpoint find_first_of (c : ascii) (s : string) : option nat :=
  match s with
  | EmptyString => None
  | String a r =>
      if eq_char a c then Some O
      else match find_first_of c r with
           | Some n => Some (S n)
           | None => None
           end
  end.

(** [s.substr(n)], for [n] within the string. *)
Fixpoint drop (n : nat) (s : string) : string :=
  match n, s with
  | O, _ => s
  | S k, String _ r => drop k r
  | S _, EmptyString => EmptyString
  end.

(** [s.substr(0, n)], which is also what [s.erase(n)] leaves. *)
Fixpoint take (n : nat) (s : string) : string :=
  match n, s with
  | O, _ => EmptyString
  | S k, String a r => String a (take k r)
  | S _, EmptyString => EmptyString
  end.

(** [s[0] == c]; on the empty string [s[0]] is the terminator. *)
Definition first_is (c : ascii) (s : string) : bool :=
  match s with
  | String a _ => eq_char a c
  | EmptyString => false
  end.

Definition len (s : string) : Z := Z.of_nat (String.length s).

Definition is_empty (s : string) : bool :=
  match s with EmptyString => true | _ => false end.

End Str.

(** ** The argument validators of [uxplay.cpp] *)

Definition LOWEST_ALLOWED_PORT : Z := 1024.
Definition HIGHEST_PORT : Z := 65535.

(** [*end] is not the terminator. *)
Definition unread (e : string) : bool := negb (Str.is_empty e).

(** [get_display_settings (value, &w, &h, &r)].  The three cells are passed
    in and returned, so that a store made before a failing test is kept as
    the code keeps it. *)
Definition get_display_settings (value : string) (w h r : Z)
  : bool * (Z * Z * Z) :=
  match Str.find_first_of "x" value with
  | None => (false, (w, h, r))
  | Some pos =>
      let str1 := Str.drop (S pos) value in
      let value := Str.take pos value in
      if (Str.len value =? 0) || (4 <? Str.len value) || Str.first_is "-" value
      then (false, (w, h, r))
      else
        let '(l, e) := C.strtoul value in
        let w := C.u16 l in
        if unread e || (w =? 0) then (false, (w, h, r))
        else
          let tail (str1 : string) (r : Z) :=
            if (Str.len str1 =? 0) || (4 <? Str.len str1)
               || Str.first_is "-" str1
            then (false, (w, h, r))
            else
              let '(l, e) := C.strtoul str1 in
              let h := C.u16 l in
              if unread e || (h =? 0) then (false, (w, h, r))
              else (true, (w, h, r)) in
          match Str.find_first_of "@" str1 with
          | Some pos =>
              let str2 := Str.drop (S pos) str1 in
              if (Str.len str2 =? 0) || (3 <? Str.len str2)
                 || Str.first_is "-" str2
              then (false, (w, h, r))
              else
                let '(l, e) := C.strtoul str2 in
                let r := C.u16 l in
                if unread e || (r =? 0) || (255 <? r) then (false, (w, h, r))
                else tail (Str.take pos str1) r
          | None => tail str1 r
          end
  end.

(** [get_value (str, &n)]: [n] comes in as the ceiling (0 for none) and goes
    out as the value read. *)
Definition get_value (str : string) (n : Z) : bool * Z :=
  if (Str.len str =? 0) || (10 <? Str.len str) || Str.first_is "-" str
  then (false, n)
  else
    let '(l, e) := C.strtoul str in
    if unread e || (l =? 0) || ((0 <? n) && (n <? l)) then (false, n)
    else (true, C.u32 l).

(** Reading an [unsigned short] cell of an array. *)
Definition cell (port : list Z) (i : nat) : Z := default 0 (port !! i).

(** The inner loop of [get_ports] that compares the new entry with the
    earlier ones: it leaves the inner loop at the first match and nothing
    else; [true] when it found one. *)
Fixpoint duplicate_scan (port : list Z) (i j : nat) (left : nat) : bool :=
  match left with
  | O => false
  | S k => if cell port j =? cell port i then true
           else duplicate_scan port i (S j) k
  end.

(** [for (j = i + 1; j < nports; j++) port[j] = port[j-1] + 1]. *)
Fixpoint fill_ports (port : list Z) (j : nat) (left : nat) : list Z :=
  match left with
  | O => port
  | S k => fill_ports (<[j := C.u16 (cell port (j - 1) + 1)]> port) (S j) k
  end.

(** The outer loop of [get_ports], entered with [i = nports - left]. *)
Fixpoint get_ports_loop (nports : nat) (left : nat) (val : string)
    (port : list Z) : bool * list Z :=
  match left with
  | O => (false, port)
  | S left' =>
      let i := (nports - left)%nat in
      let pos := Str.find_first_of "," val in
      let str := match pos with Some p => Str.take p val | None => val end in
      if (Str.len str =? 0) || (5 <? Str.len str) || Str.first_is "-" str
      then (false, port)
      else
        let '(l, e) := C.strtoul str in
        if unread e || (l <? LOWEST_ALLOWED_PORT) || (HIGHEST_PORT <? l)
        then (false, port)
        else
          let port := <[i := C.u16 l]> port in
          let _ := duplicate_scan port i 0 i in
          match pos with
          | None =>
              if Z.of_nat i + 1 + HIGHEST_PORT <? Z.of_nat nports + cell port i
              then (false, port)
              else (true, fill_ports port (S i) (nports - S i))
          | Some p => get_ports_loop nports left' (Str.drop (S p) val) port
          end
  end.

(** [get_ports (nports, option, value, port)]; [option] only names the flag
    in the diagnostic. *)
Definition get_ports (nports : nat) (value : string) (port : list Z)
  : bool * list Z :=
  get_ports_loop nports nports value port.

(** Modelled from the spec: the enumeration [videoflip_t], declared in
    [renderers/video_renderer.h]; the flip values are the spec's horizontal,
    vertical and invert, the rotations its left and right. *)
Inductive videoflip_t := NONE | LEFT | RIGHT | INVERT | VFLIP | HFLIP.

(** [get_videoflip (str, &videoflip)]; on the empty string [str[0]] is the
    terminator, which is the [default] case. *)
Definition get_videoflip (str : string) (videoflip : videoflip_t)
  : bool * videoflip_t :=
  if 1 <? Str.len str then (false, videoflip)
  else if Str.first_is "I" str then (true, INVERT)
  else if Str.first_is "H" str then (true, HFLIP)
  else if Str.first_is "V" str then (true, VFLIP)
  else (false, videoflip).

Definition get_videorotate (str : string) (videoflip : videoflip_t)
  : bool * videoflip_t :=
  if 1 <? Str.len str then (false, videoflip)
  else if Str.first_is "L" str then (true, LEFT)
  else if Str.first_is "R" str then (true, RIGHT)
  else (false, videoflip).

(** ** The configuration and the argument loop of [main] *)

(** The variables [main] fills while it reads the arguments, with the
    module-level [server_timeout] that the [-t] branch writes. *)
Record Config := mkConfig {
  server_name : string;
  use_audio : bool;
  use_random_hw_addr : bool;
  debug_log : bool;
  display : list Z;
  tcp : list Z;
  udp : list Z;
  videoflip : list videoflip_t;
  videosink : string;
  audiosink : string;
  server_timeout : Z
}.

Definition initial_config : Config :=
  {| server_name := "UxPlay"; use_audio := true; use_random_hw_addr := false;
     debug_log := false; display := [0; 0; 0; 0; 0]; tcp := [0; 0; 0];
     udp := [0; 0; 0]; videoflip := [NONE; NONE];
     videosink := "autovideosink"; audiosink := "autoaudiosink";
     server_timeout := 0 |}.

Definition set_server_name (v : string) (c : Config) : Config :=
  mkConfig v (use_audio c) (use_random_hw_addr c) (debug_log c) (display c)
    (tcp c) (udp c) (videoflip c) (videosink c) (audiosink c) (server_timeout c).
Definition set_use_audio (v : bool) (c : Config) : Config :=
  mkConfig (server_name c) v (use_random_hw_addr c) (debug_log c) (display c)
    (tcp c) (udp c) (videoflip c) (videosink c) (audiosink c) (server_timeout c).
Definition set_use_random_hw_addr (v : bool) (c : Config) : Config :=
  mkConfig (server_name c) (use_audio c) v (debug_log c) (display c)
    (tcp c) (udp c) (videoflip c) (videosink c) (audiosink c) (server_timeout c).
Definition set_debug_log (v : bool) (c : Config) : Config :=
  mkConfig (server_name c) (use_audio c) (use_random_hw_addr c) v (display c)
    (tcp c) (udp c) (videoflip c) (videosink c) (audiosink c) (server_timeout c).
Definition set_display (v : list Z) (c : Config) : Config :=
  mkConfig (server_name c) (use_audio c) (use_random_hw_addr c) (debug_log c) v
    (tcp c) (udp c) (videoflip c) (videosink c) (audiosink c) (server_timeout c).
Definition set_tcp (v : list Z) (c : Config) : Config :=
  mkConfig (server_name c) (use_audio c) (use_random_hw_addr c) (debug_log c)
    (display c) v (udp c) (videoflip c) (videosink c) (audiosink c)
    (server_timeout c).
Definition set_udp (v : list Z) (c : Config) : Config :=
  mkConfig (server_name c) (use_audio c) (use_random_hw_addr c) (debug_log c)
    (display c) (tcp c) v (videoflip c) (videosink c) (audiosink c)
    (server_timeout c).
Definition set_videoflip (v : list videoflip_t) (c : Config) : Config :=
  mkConfig (server_name c) (use_audio c) (use_random_hw_addr c) (debug_log c)
    (display c) (tcp c) (udp c) v (videosink c) (audiosink c) (server_timeout c).
Definition set_videosink (v : string) (c : Config) : Config :=
  mkConfig (server_name c) (use_audio c) (use_random_hw_addr c) (debug_log c)
    (display c) (tcp c) (udp c) (videoflip c) v (audiosink c) (server_timeout c).
Definition set_audiosink (v : string) (c : Config) : Config :=
  mkConfig (server_name c) (use_audio c) (use_random_hw_addr c) (debug_log c)
    (display c) (tcp c) (udp c) (videoflip c) (videosink c) v (server_timeout c).
Definition set_server_timeout (v : Z) (c : Config) : Config :=
  mkConfig (server_name c) (use_audio c) (use_random_hw_addr c) (debug_log c)
    (display c) (tcp c) (udp c) (videoflip c) (videosink c) (audiosink c) v.

(** How the argument loop ends: it falls through with the variables set, the
    process exits with a status, or the behaviour is undefined (a
    [std::string] built from the null pointer [argv[argc]]). *)
Inductive parsed :=
| Parsed (c : Config)
| Exit (status : Z)
| Undefined.

(** [option_has_value (i, argc, option, argv[i+1])] on the arguments that
    follow the flag. *)
Definition option_has_value (rest : list string) : bool :=
  match rest with
  | [] => false
  | next_arg :: _ => negb (Str.first_is "-" next_arg)
  end.

Definition is_flag (arg flag : string) : bool := String.eqb arg flag.

(** The ports of the bare [-p]. *)
Definition legacy_ports (c : Config) : Config :=
  set_udp (<[2%nat := 6000]> (<[1%nat := 6001]> (<[0%nat := 7011]> (udp c))))
    (set_tcp (<[2%nat := 7001]> (<[1%nat := 7000]> (<[0%nat := 7100]> (tcp c)))) c).

(** [for (int j = 1; j < 3; j++) udp[j] = tcp[j]]. *)
Definition copy_ports (tcp udp : list Z) : list Z :=
  <[2%nat := cell tcp 2]> (<[1%nat := cell tcp 1]> udp).

(** The loop [for (int i = 1; i < argc; i++)] of [main] over
    [argv[i], ..., argv[argc-1]]. *)
Fixpoint parse_args (args : list string) (c : Config) : parsed :=
  match args with
  | [] => Parsed c
  | arg :: rest =>
      if is_flag arg "-n" then
        if negb (option_has_value rest) then Exit 1 else
        match rest with
        | v :: rest => parse_args rest (set_server_name v c)
        | [] => Exit 1
        end
      else if is_flag arg "-s" then
        if negb (option_has_value rest) then Exit 1 else
        match rest with
        | value :: rest =>
            let '(ok, (w, h, r)) :=
              get_display_settings value (cell (display c) 0)
                (cell (display c) 1) (cell (display c) 2) in
            if ok
            then parse_args rest
                   (set_display
                      (<[2%nat := r]> (<[1%nat := h]> (<[0%nat := w]> (display c)))) c)
            else Exit 1
        | [] => Exit 1
        end
      else if is_flag arg "-fps" then
        if negb (option_has_value rest) then Exit 1 else
        match rest with
        | v :: rest =>
            let '(ok, n) := get_value v 255 in
            if ok
            then parse_args rest (set_display (<[3%nat := C.u16 n]> (display c)) c)
            else Exit 1
        | [] => Exit 1
        end
      else if is_flag arg "-o" then
        parse_args rest (set_display (<[4%nat := 1]> (display c)) c)
      else if is_flag arg "-f" then
        if negb (option_has_value rest) then Exit 1 else
        match rest with
        | v :: rest =>
            let '(ok, f) := get_videoflip v (default NONE (videoflip c !! 0%nat)) in
            if ok
            then parse_args rest (set_videoflip (<[0%nat := f]> (videoflip c)) c)
            else Exit 1
        | [] => Exit 1
        end
      else if is_flag arg "-r" then
        if negb (option_has_value rest) then Exit 1 else
        match rest with
        | v :: rest =>
            let '(ok, f) := get_videorotate v (default NONE (videoflip c !! 1%nat)) in
            if ok
            then parse_args rest (set_videoflip (<[1%nat := f]> (videoflip c)) c)
            else Exit 1
        | [] => Exit 1
        end
      else if is_flag arg "-p" then
        match rest with
        | [] => Parsed (legacy_ports c)
        | value :: rest' =>
            if Str.first_is "-" value then parse_args rest (legacy_ports c)
            else if is_flag value "tcp" then
              match rest' with
              | v :: rest'' =>
                  let '(ok, port) := get_ports 3 v (tcp c) in
                  if ok then parse_args rest'' (set_tcp port c) else Exit 1
              | [] => Undefined
              end
            else if is_flag value "udp" then
              match rest' with
              | v :: rest'' =>
                  let '(ok, port) := get_ports 3 v (udp c) in
                  if ok then parse_args rest'' (set_udp port c) else Exit 1
              | [] => Undefined
              end
            else
              let '(ok, port) := get_ports 3 value (tcp c) in
              if ok
              then parse_args rest' (set_udp (copy_ports port (udp c)) (set_tcp port c))
              else Exit 1
        end
      else if is_flag arg "-m" then parse_args rest (set_use_random_hw_addr true c)
      else if is_flag arg "-a" then parse_args rest (set_use_audio false c)
      else if is_flag arg "-d" then parse_args rest (set_debug_log (negb (debug_log c)) c)
      else if is_flag arg "-h" || is_flag arg "-v" then Exit 0
      else if is_flag arg "-vs" then
        if negb (option_has_value rest) then Exit 1 else
        match rest with
        | v :: rest => parse_args rest (set_videosink v c)
        | [] => Exit 1
        end
      else if is_flag arg "-as" then
        if negb (option_has_value rest) then Exit 1 else
        match rest with
        | v :: rest => parse_args rest (set_audiosink v c)
        | [] => Exit 1
        end
      else if is_flag arg "-t" then
        if negb (option_has_value rest) then Exit 1 else
        match rest with
        | v :: rest =>
            (* server_timeout = 0; get_value(argv[++i], &server_timeout);
               the result of the call is dropped *)
            let '(_, n) := get_value v 0 in
            parse_args rest (set_server_timeout n c)
        | [] => Exit 1
        end
      else Exit 1
  end.

(** ** The hardware address *)

Definition MULTICAST : Z := 0.
Definition LOCAL : Z := 1.
Definition OCTETS : nat := 6.

(** The loop [for (int i = 1; i < OCTETS; i++)] of [random_mac]; the [i]-th
    call of [rand()] returns [rand i]. *)
Fixpoint random_mac_loop (rand : nat -> Z) (i : nat) (left : nat)
    (mac_address : string) : string :=
  match left with
  | O => mac_address
  | S k =>
      let mac_address := mac_address +:+ ":" in
      let octet := Z.rem (rand i) 256 in
      random_mac_loop rand (S i) k (mac_address +:+ C.snprintf_02x octet)
  end.

Definition random_mac (rand : nat -> Z) : string :=
  let octet := Z.rem (rand O) 64 in
  let octet := Z.shiftl octet 1 + LOCAL in
  let octet := Z.shiftl octet 1 + MULTICAST in
  random_mac_loop rand 1 (OCTETS - 1) (C.snprintf_02x octet).

(** The loop [for (int i = 0; i < str.length(); i += 3)] of [parse_hw_addr];
    [None] when [stol] throws. *)
Fixpoint parse_hw_addr_loop (fuel : nat) (str : string) (i : nat)
    (hw_addr : list Z) : option (list Z) :=
  match fuel with
  | O => Some hw_addr
  | S k =>
      if (i <? String.length str)%nat then
        match C.stol16 (Str.drop i str) with
        | Some v => parse_hw_addr_loop k str (i + 3) (hw_addr ++ [C.to_char v])
        | None => None
        end
      else Some hw_addr
  end.

Definition parse_hw_addr (str : string) (hw_addr : list Z) : option (list Z) :=
  parse_hw_addr_loop (String.length str) str 0 hw_addr.

(** ** The module-level state and the subsystems *)

(** Modelled from the spec: the subsystems behind [lib/raop.h],
    [lib/dnssd.h], [lib/logger.h] and [renderers/], known to this file by
    their init / start / destroy contract only.  An object is an address; it
    is live from its init to its destroy, and a call on an address that is
    not live is a fault.  Every call is logged. *)
Definition handle := nat.

Inductive extern :=
| raop_init | raop_set_display | raop_set_tcp_ports | raop_set_udp_ports
| raop_set_log_callback | raop_set_log_level | raop_get_port | raop_start
| raop_set_port | raop_set_dnssd | raop_destroy
| logger_init | logger_set_callback | logger_set_level | logger_destroy
| video_renderer_init | video_renderer_start | video_renderer_destroy
| video_renderer_update_background | video_renderer_listen
| audio_renderer_init | audio_renderer_start | audio_renderer_destroy
| dnssd_init | dnssd_register_raop | dnssd_register_airplay
| dnssd_unregister_raop | dnssd_unregister_airplay | dnssd_destroy.

Record call := Call {
  fn : extern;
  objects : list handle;
  values : list Z
}.

(** The static variables of [uxplay.cpp] (the five handles, the watchdog
    and connection counters), with the state of the subsystems. *)
Record State := mkState {
  dnssd : option handle;
  raop : option handle;
  video_renderer : option handle;
  audio_renderer : option handle;
  render_logger : option handle;
  relaunch_server : bool;
  open_connections : Z;
  connections_stopped : bool;
  counter : Z;
  use_video : bool;
  live : gset handle;
  next_handle : handle;
  calls : list call;
  faulted : bool
}.

Definition initial_state : State :=
  {| dnssd := None; raop := None; video_renderer := None;
     audio_renderer := None; render_logger := None;
     relaunch_server := false; open_connections := 0;
     connections_stopped := false; counter := 0; use_video := true;
     live := ∅; next_handle := 1%nat; calls := []; faulted := false |}.

Definition set_dnssd (v : option handle) (s : State) : State :=
  mkState v (raop s) (video_renderer s) (audio_renderer s) (render_logger s)
    (relaunch_server s) (open_connections s) (connections_stopped s)
    (counter s) (use_video s) (live s) (next_handle s) (calls s) (faulted s).
Definition set_raop (v : option handle) (s : State) : State :=
  mkState (dnssd s) v (video_renderer s) (audio_renderer s) (render_logger s)
    (relaunch_server s) (open_connections s) (connections_stopped s)
    (counter s) (use_video s) (live s) (next_handle s) (calls s) (faulted s).
Definition set_video_renderer (v : option handle) (s : State) : State :=
  mkState (dnssd s) (raop s) v (audio_renderer s) (render_logger s)
    (relaunch_server s) (open_connections s) (connections_stopped s)
    (counter s) (use_video s) (live s) (next_handle s) (calls s) (faulted s).
Definition set_audio_renderer (v : option handle) (s : State) : State :=
  mkState (dnssd s) (raop s) (video_renderer s) v (render_logger s)
    (relaunch_server s) (open_connections s) (connections_stopped s)
    (counter s) (use_video s) (live s) (next_handle s) (calls s) (faulted s).
Definition set_render_logger (v : option handle) (s : State) : State :=
  mkState (dnssd s) (raop s) (video_renderer s) (audio_renderer s) v
    (relaunch_server s) (open_connections s) (connections_stopped s)
    (counter s) (use_video s) (live s) (next_handle s) (calls s) (faulted s).
Definition set_relaunch_server (v : bool) (s : State) : State :=
  mkState (dnssd s) (raop s) (video_renderer s) (audio_renderer s)
    (render_logger s) v (open_connections s) (connections_stopped s)
    (counter s) (use_video s) (live s) (next_handle s) (calls s) (faulted s).
Definition set_open_connections (v : Z) (s : State) : State :=
  mkState (dnssd s) (raop s) (video_renderer s) (audio_renderer s)
    (render_logger s) (relaunch_server s) v (connections_stopped s)
    (counter s) (use_video s) (live s) (next_handle s) (calls s) (faulted s).
Definition set_connections_stopped (v : bool) (s : State) : State :=
  mkState (dnssd s) (raop s) (video_renderer s) (audio_renderer s)
    (render_logger s) (relaunch_server s) (open_connections s) v
    (counter s) (use_video s) (live s) (next_handle s) (calls s) (faulted s).
Definition set_counter (v : Z) (s : State) : State :=
  mkState (dnssd s) (raop s) (video_renderer s) (audio_renderer s)
    (render_logger s) (relaunch_server s) (open_connections s)
    (connections_stopped s) v (use_video s) (live s) (next_handle s)
    (calls s) (faulted s).
Definition set_use_video (v : bool) (s : State) : State :=
  mkState (dnssd s) (raop s) (video_renderer s) (audio_renderer s)
    (render_logger s) (relaunch_server s) (open_connections s)
    (connections_stopped s) (counter s) v (live s) (next_handle s)
    (calls s) (faulted s).
Definition set_world (l : gset handle) (n : handle) (cs : list call)
    (f : bool) (s : State) : State :=
  mkState (dnssd s) (raop s) (video_renderer s) (audio_renderer s)
    (render_logger s) (relaunch_server s) (open_connections s)
    (connections_stopped s) (counter s) (use_video s) l n cs f.

(** A call on the objects [hs]: logged, and a fault when one is not live. *)
Definition invoke (f : extern) (hs : list handle) (zs : list Z) (s : State)
  : State :=
  set_world (live s) (next_handle s) (calls s ++ [Call f hs zs])
    (faulted s || negb (forallb (fun h => bool_decide (h ∈ live s)) hs)) s.

(** A destroy call: the object is not live afterwards. *)
Definition release (f : extern) (h : handle) (s : State) : State :=
  let s := invoke f [h] [] s in
  set_world (live s ∖ {[h]}) (next_handle s) (calls s) (faulted s) s.

(** An init call that succeeds ([ok]) with a fresh object or returns null. *)
Definition create (f : extern) (ok : bool) (hs : list handle) (s : State)
  : option handle * State :=
  let s := invoke f hs [] s in
  if ok
  then (Some (next_handle s),
        set_world (live s ∪ {[next_handle s]}) (S (next_handle s)) (calls s)
          (faulted s) s)
  else (None, s).

(** ** The connection callbacks and the watchdog *)

(** [conn_init]: the counter is a [uint]. *)
Definition conn_init (s : State) : State :=
  let s := set_open_connections (C.u32 (open_connections s + 1)) s in
  let s := set_connections_stopped false s in
  invoke video_renderer_update_background (option_list (video_renderer s)) [1] s.

Definition conn_destroy (s : State) : State :=
  let s := invoke video_renderer_update_background
             (option_list (video_renderer s)) [-1] s in
  let s := set_open_connections (C.u32 (open_connections s - 1)) s in
  if open_connections s =? 0 then set_connections_stopped true s else s.

(** [connection_callback]: the second component tells whether it called
    [g_main_loop_quit]. *)
Definition connection_callback (server_timeout : Z) (s : State) : State * bool :=
  if negb (connections_stopped s) then (set_counter 0 s, false)
  else
    let s := set_counter (C.u32 (counter s + 1)) s in
    (s, counter s =? server_timeout).

Definition sigint_callback (s : State) : State * bool :=
  (set_relaunch_server false s, true).

Definition sigterm_callback (s : State) : State * bool :=
  (set_relaunch_server false s, true).

(** What the main loop dispatches: the one-second timer, the two signals,
    and the two connection callbacks that the protocol engine runs. *)
Inductive event := Tick | SIGINT | SIGTERM | ConnInit | ConnDestroy.

(** [g_main_loop_run] over the events that arrive; the second component
    tells whether the loop was quit (otherwise it is still waiting). *)
Fixpoint g_main_loop_run (server_timeout : Z) (events : list event)
    (s : State) : State * bool :=
  match events with
  | [] => (s, false)
  | e :: events =>
      let '(s, quit) :=
        match e with
        | Tick =>
            (* the timer source exists only when [server_timeout] is set *)
            if server_timeout =? 0 then (s, false)
            else connection_callback server_timeout s
        | SIGINT => sigint_callback s
        | SIGTERM => sigterm_callback s
        | ConnInit => (conn_init s, false)
        | ConnDestroy => (conn_destroy s, false)
        end in
      if quit then (s, true) else g_main_loop_run server_timeout events s
  end.

Definition main_loop (server_timeout : Z) (events : list event) (s : State)
  : State * bool :=
  let s := if use_video s
           then invoke video_renderer_listen (option_list (video_renderer s)) [] s
           else s in
  let s := set_relaunch_server true s in
  g_main_loop_run server_timeout events s.

(** ** Starting and stopping the subsystems *)

Definition when_set (h : option handle) (f : handle -> State -> State)
    (s : State) : State :=
  match h with
  | Some p => f p s
  | None => s
  end.

(** [stop_server]: each call is guarded by its pointer; no pointer is
    written. *)
Definition stop_server (s : State) : State :=
  let s := when_set (raop s) (release raop_destroy) s in
  let s := when_set (dnssd s) (fun h => invoke dnssd_unregister_raop [h] []) s in
  let s := when_set (dnssd s) (fun h => invoke dnssd_unregister_airplay [h] []) s in
  let s := when_set (dnssd s) (release dnssd_destroy) s in
  let s := when_set (audio_renderer s) (release audio_renderer_destroy) s in
  let s := when_set (video_renderer s) (release video_renderer_destroy) s in
  let s := when_set (render_logger s) (release logger_destroy) s in
  s.

(** What the subsystems answer during one [start_server]: whether each init
    gives an object, and the port [raop_start] binds. *)
Record Env := {
  raop_init_ok : bool;
  logger_init_ok : bool;
  video_renderer_init_ok : bool;
  audio_renderer_init_ok : bool;
  dnssd_init_ok : bool;
  bound_port : Z
}.

(** [start_server].  [display], [tcp], [udp] and [videoflip] are arrays of
    the caller; the contents of [display] after the call are returned with
    the result, the other three are never written.  The remaining
    parameters are copies. *)
Definition start_server (env : Env) (hw_addr : list Z) (name : string)
    (display tcp udp : list Z) (videoflip : list videoflip_t)
    (use_audio debug_log : bool) (videosink audiosink : string) (s : State)
  : Z * list Z * State :=
  let '(r, s) := create raop_init (raop_init_ok env) [] s in
  let s := set_raop r s in
  match r with
  | None => (-1, display, s)
  | Some rh =>
      let '(display, s) :=
        if is_flag videosink "0"
        then (<[3%nat := 1]> display, set_use_video false s)
        else (display, s) in
      let use_audio := if is_flag audiosink "0" then false else use_audio in
      let s := invoke raop_set_display [rh] display s in
      let s := invoke raop_set_tcp_ports [rh] tcp s in
      let s := invoke raop_set_udp_ports [rh] udp s in
      let s := invoke raop_set_log_callback [rh] [] s in
      let s := invoke raop_set_log_level [rh] [] s in
      let '(lg, s) := create logger_init (logger_init_ok env) [] s in
      let s := set_render_logger lg s in
      match lg with
      | None => (-1, display, stop_server s)
      | Some lh =>
          let s := invoke logger_set_callback [lh] [] s in
          let s := invoke logger_set_level [lh] [] s in
          let '(vr, s) :=
            create video_renderer_init (video_renderer_init_ok env) [lh] s in
          let s := set_video_renderer vr s in
          match vr with
          | None => (-1, display, stop_server s)
          | Some vh =>
              let '(audio_failed, s) :=
                if negb use_audio then (false, s)
                else
                  let '(ar, s) :=
                    create audio_renderer_init (audio_renderer_init_ok env)
                      [lh; vh] s in
                  (negb (bool_decide (is_Some ar)), set_audio_renderer ar s) in
              if audio_failed then (-1, display, stop_server s)
              else
                let s := if use_video s
                         then invoke video_renderer_start [vh] [] s else s in
                let s := when_set (audio_renderer s)
                           (fun h => invoke audio_renderer_start [h] []) s in
                let s := invoke raop_get_port [rh] [] s in
                let s := invoke raop_start [rh] [] s in
                let port := C.u16 (bound_port env) in
                let s := invoke raop_set_port [rh] [port] s in
                let '(dn, s) := create dnssd_init (dnssd_init_ok env) [] s in
                let s := set_dnssd dn s in
                match dn with
                | None => (-2, display, stop_server s)
                | Some dh =>
                    let s := invoke raop_set_dnssd [rh; dh] [] s in
                    let s := invoke dnssd_register_raop [dh] [port] s in
                    let port :=
                      if negb (cell tcp 2 =? 0) then cell tcp 2
                      else C.u16 (if negb (port =? HIGHEST_PORT)
                                  then port + 1 else port - 1) in
                    let s := invoke dnssd_register_airplay [dh] [port] s in
                    (0, display, s)
                end
          end
      end
  end.

(** ** The driver: [main] from the label [relaunch] on *)

(** One entry of [runs] per pass through the label [relaunch]: what the
    subsystems answer, and the events the main loop sees.  The result is
    the status [main] returns ([None] while a main loop is still waiting),
    the variables of [main] and the state at that point, and the
    configuration each call of [start_server] received. *)
Fixpoint relaunch (runs : list (Env * list event)) (hw_addr : list Z)
    (c : Config) (s : State) (started : list Config)
  : option Z * Config * State * list Config :=
  match runs with
  | [] => (None, c, s, started)
  | (env, events) :: runs =>
      let s := set_connections_stopped false s in
      let started := started ++ [c] in
      let '(ret, display', s) :=
        start_server env hw_addr (server_name c) (display c) (tcp c) (udp c)
          (videoflip c) (use_audio c) (debug_log c) (videosink c)
          (audiosink c) s in
      let c := set_display display' c in
      if negb (ret =? 0) then (Some 1, c, s, started)
      else
        let '(s, quit) := main_loop (server_timeout c) events s in
        if negb quit then (None, c, s, started)
        else if relaunch_server s
             then relaunch runs hw_addr c (stop_server s) started
             else (Some 0, c, stop_server s, started)
  end.

(** [append_hostname]; [nodename] is what [uname] reports, if it succeeds. *)
Definition append_hostname (nodename : option string) (server_name : string)
  : string :=
  match nodename with
  | Some n => server_name +:+ "@" +:+ n
  | None => server_name
  end.

(** How the process ends: [exit], an uncaught exception or undefined
    behaviour, or what the driver returns. *)
Inductive outcome :=
| Exited (status : Z)
| Aborted
| Returned (r : option Z * Config * State * list Config).

(** [main].  [found_mac] is what [find_mac] reads (empty when both probes
    fail), [rand] the results of [rand()], [runs] what happens from the
    label [relaunch] on. *)
Definition main (args : list string) (found_mac : string) (rand : nat -> Z)
    (nodename : option string) (runs : list (Env * list event)) : outcome :=
  match parse_args args initial_config with
  | Exit status => Exited status
  | Undefined => Aborted
  | Parsed c =>
      let mac_address := if use_random_hw_addr c then "" else found_mac in
      let mac_address :=
        if Str.is_empty mac_address then random_mac rand else mac_address in
      match parse_hw_addr mac_address [] with
      | None => Aborted
      | Some server_hw_addr =>
          let c := set_server_name (append_hostname nodename (server_name c)) c in
          Returned (relaunch runs server_hw_addr c initial_state [])
      end
  end.

(** * The notions of the specification *)

(** ** Decimal strings *)

(** A string of decimal digits and the number it denotes. *)
Definition isdigit (c : ascii) : bool := (48 <=? C.code c) && (C.code c <=? 57).

Fixpoint all_digits (s : string) : bool :=
  match s with
  | EmptyString => true
  | String c r => isdigit c && all_digits r
  end.

Fixpoint decimal_from (acc : Z) (s : string) : Z :=
  match s with
  | EmptyString => acc
  | String c r => decimal_from (10 * acc + (C.code c - 48)) r
  end.

Definition decimal (s : string) : Z := decimal_from 0 s.

(** [digits lo hi s]: between [lo] and [hi] decimal digits, nothing else. *)
Definition digits (lo hi : Z) (s : string) : bool :=
  all_digits s && (lo <=? Str.len s) && (Str.len s <=? hi).

(** A character that no number may contain: not a digit, a sign or white
    space. *)
Definition foreign (c : ascii) : bool :=
  negb (isdigit c || C.isspace c || (C.code c =? 43) || (C.code c =? 45)).

Fixpoint has_foreign (s : string) : bool :=
  match s with
  | EmptyString => false
  | String c r => foreign c || has_foreign r
  end.

(** [c] does not occur in [s]. *)
Fixpoint lacks (c : ascii) (s : string) : bool :=
  match s with
  | EmptyString => true
  | String a r => negb (Str.eq_char a c) && lacks c r
  end.

(** [join sep ts]: the strings of [ts] with [sep] between them. *)
Fixpoint join (sep : string) (ts : list string) : string :=
  match ts with
  | [] => ""
  | [t] => t
  | t :: ts => t +:+ sep +:+ join sep ts
  end.

(** ** Display segments and port tokens *)

(** A width or height as the specification words it: one to four decimal
    digits, not zero. *)
Definition dimension (s : string) : bool :=
  digits 1 4 s && negb (decimal s =? 0).

(** A refresh rate: one to three decimal digits, between 1 and 255. *)
Definition rate (s : string) : bool :=
  digits 1 3 s && (1 <=? decimal s) && (decimal s <=? 255).

(** A segment of at most [hi] characters that the validators turn down by
    their own tests: empty, too long, a leading minus, a foreign character,
    or digits that denote zero. *)
Definition rejected (hi : Z) (s : string) : bool :=
  Str.is_empty s || (hi <? Str.len s) || Str.first_is "-" s
  || has_foreign s || (all_digits s && (decimal s =? 0)).

Definition rejected_rate (s : string) : bool :=
  rejected 3 s || (all_digits s && (255 <? decimal s)).

(** The last steps of [get_display_settings], on the height segment. *)
Definition height_step (w h r : Z) (str1 : string) : bool * (Z * Z * Z) :=
  if (Str.len str1 =? 0) || (4 <? Str.len str1) || Str.first_is "-" str1
  then (false, (w, h, r))
  else
    let '(l, e) := C.strtoul str1 in
    let h := C.u16 l in
    if unread e || (h =? 0) then (false, (w, h, r)) else (true, (w, h, r)).

(** A port as the specification words it: one to five decimal digits that
    denote a number of the allowed range. *)
Definition port_token (s : string) : bool :=
  digits 1 5 s && (LOWEST_ALLOWED_PORT <=? decimal s)
  && (decimal s <=? HIGHEST_PORT).

(** A token that [get_ports] turns down by its own tests. *)
Definition rejected_port (s : string) : bool :=
  Str.is_empty s || (5 <? Str.len s) || Str.first_is "-" s || has_foreign s
  || (all_digits s
      && ((decimal s <? LOWEST_ALLOWED_PORT) || (HIGHEST_PORT <? decimal s))).

(** The tests of one pass of the loop on the token [str]: the number read,
    or [None] where the code leaves the loop. *)
Definition read_port (str : string) : option Z :=
  if (Str.len str =? 0) || (5 <? Str.len str) || Str.first_is "-" str
  then None
  else
    let '(l, e) := C.strtoul str in
    if unread e || (l <? LOWEST_ALLOWED_PORT) || (HIGHEST_PORT <? l)
    then None else Some l.

(** ** Command lines, event lists and runs *)

(** The flag [-p] stands alone: it is the last argument, or the next one
    starts with a minus sign. *)
Definition bare (rest : list string) : bool :=
  match rest with
  | [] => true
  | next_arg :: _ => Str.first_is "-" next_arg
  end.


(** Event lists in which connections are opened and closed one at a time
    ([opened] tells whether one is open), with ticks anywhere and no
    signal. *)
Fixpoint serial (opened : bool) (evs : list event) : bool :=
  match evs with
  | [] => true
  | Tick :: evs => serial opened evs
  | ConnInit :: evs => negb opened && serial true evs
  | ConnDestroy :: evs => opened && serial false evs
  | _ => false
  end.

(** Every subsystem answers; the engine binds port 7000. *)
Definition all_ok : Env :=
  {| raop_init_ok := true; logger_init_ok := true;
     video_renderer_init_ok := true; audio_renderer_init_ok := true;
     dnssd_init_ok := true; bound_port := 7000 |}.

(** The logger cannot be created. *)
Definition no_logger : Env :=
  {| raop_init_ok := true; logger_init_ok := false;
     video_renderer_init_ok := true; audio_renderer_init_ok := true;
     dnssd_init_ok := true; bound_port := 7000 |}.

(** [start_server] on the configuration [c]. *)
Definition start (env : Env) (hw_addr : list Z) (c : Config) (s : State)
  : Z * list Z * State :=
  start_server env hw_addr (server_name c) (display c) (tcp c) (udp c)
    (videoflip c) (use_audio c) (debug_log c) (videosink c) (audiosink c) s.

(** The state after a first successful start with the default settings. *)
Definition running : State := (start all_ok [] initial_config initial_state).2.

(** The configuration with the frame rate pinned to 1 when the video sink
    is the sentinel ["0"]. *)
Definition pinned (c : Config) : Config :=
  if is_flag (videosink c) "0"
  then set_display (<[3%nat := 1]> (display c)) c
  else c.

(** The variables of [main] after one call of [start_server]. *)
Definition after_start (env : Env) (hw_addr : list Z) (c : Config) (s : State)
  : Config :=
  set_display (start env hw_addr c s).1.2 c.

(** The components of what [relaunch] returns. *)
Definition final_config (r : option Z * Config * State * list Config) : Config :=
  r.1.1.2.
Definition starts (r : option Z * Config * State * list Config) : list Config :=
  r.2.

(** ** Addresses in text *)

(** The textual form of an address: two hexadecimal digits for each octet,
    colons between. *)
Definition mac_text (octets : list Z) : string :=
  join ":" (map C.snprintf_02x octets).

Definition octet (b : Z) : Prop := 0 <= b < 256.

(** A group of an address in text: two hexadecimal digits, in either case. *)
Definition hex_group (g : ascii * ascii) : Prop :=
  is_Some (C.digit_in 16 g.1) /\ is_Some (C.digit_in 16 g.2).

Definition nibble (c : ascii) : Z :=
  match C.digit_in 16 c with
  | Some d => d
  | None => 0
  end.

Definition group_value (g : ascii * ascii) : Z := 16 * nibble g.1 + nibble g.2.

Definition group_text (g : ascii * ascii) : string :=
  String g.1 (String g.2 "").

Definition groups_text (gs : list (ascii * ascii)) : string :=
  join ":" (map group_text gs).

(** ** Numbers behind white space and a plus sign *)

(** White space: the space and the five control characters \t \n \v \f \r. *)
Definition blank (c : ascii) : bool :=
  existsb (Z.eqb (C.code c)) [32; 9; 10; 11; 12; 13].

Fixpoint strip_blanks (s : string) : string :=
  match s with
  | String c r => if blank c then strip_blanks r else s
  | EmptyString => s
  end.

Definition strip_plus (s : string) : string :=
  match s with
  | String c r => if Ascii.eqb c "+" then r else s
  | EmptyString => s
  end.

(** The number a segment denotes: white space if any, one plus sign if any,
    then one or more decimal digits and nothing after them. *)
Definition numeral (s : string) : option Z :=
  let d := strip_plus (strip_blanks s) in
  if all_digits d && negb (Str.is_empty d) then Some (decimal d) else None.

(** A numeral of at most [hi] characters whose value lies in [lo..up]. *)
Definition ranged (hi lo up : Z) (s : string) : option Z :=
  if Str.len s <=? hi then
    match numeral s with
    | Some v => if (lo <=? v) && (v <=? up) then Some v else None
    | None => None
    end
  else None.

Definition dimension_value : string -> option Z := ranged 4 1 9999.
Definition rate_value : string -> option Z := ranged 3 1 255.
Definition port_value : string -> option Z :=
  ranged 5 LOWEST_ALLOWED_PORT HIGHEST_PORT.

(** What may stand before the digits: white space, then at most one plus
    sign. *)
Definition lead (p : string) : bool :=
  match strip_blanks p with
  | EmptyString => true
  | String c r => Ascii.eqb c "+" && Str.is_empty r
  end.

(** A segment that is white space, a minus sign and digits. *)
Definition minus_behind_blank (s : string) : bool :=
  match s, strip_blanks s with
  | String c _, String m d =>
      blank c && Ascii.eqb m "-" && all_digits d && negb (Str.is_empty d)
  | _, _ => false
  end.

(** The digits of such a segment. *)
Definition behind_sign (s : string) : string :=
  match strip_blanks s with
  | String _ d => d
  | EmptyString => ""
  end.

(** A width or height of at most four characters that is white space, a
    minus sign and digits that do not denote zero. *)
Definition negative_dimension (s : string) : bool :=
  minus_behind_blank s && (Str.len s <=? 4)
  && negb (decimal (behind_sign s) =? 0).

(** [split_at c s]: what stands before and after the first [c] of [s]. *)
Fixpoint split_at (c : ascii) (s : string) : option (string * string) :=
  match s with
  | EmptyString => None
  | String a r =>
      if Ascii.eqb a c then Some ("", r)
      else match split_at c r with
           | Some (u, v) => Some (String a u, v)
           | None => None
           end
  end.

(** The display string as the three numbers it denotes: width, [x], height
    and, behind an [@], the rate. *)
Definition display_reading (value : string) : option (Z * Z * option Z) :=
  match split_at "x" value with
  | None => None
  | Some (sw, rest) =>
      match split_at "@" rest with
      | None =>
          match dimension_value sw, dimension_value rest with
          | Some w, Some h => Some (w, h, None)
          | _, _ => None
          end
      | Some (sh, sr) =>
          match dimension_value sw, dimension_value sh, rate_value sr with
          | Some w, Some h, Some r => Some (w, h, Some r)
          | _, _, _ => None
          end
      end
  end.

(** The width and height segments of a display string. *)
Definition dimensions_of (value : string) : list string :=
  match split_at "x" value with
  | None => []
  | Some (sw, rest) =>
      match split_at "@" rest with
      | None => [sw; rest]
      | Some (sh, _) => [sw; sh]
      end
  end.

(** The tests of [get_display_settings] on a width or height segment and on
    the rate segment: the number stored, or [None] where the code returns
    [false]. *)
Definition read_dimension (str : string) : option Z :=
  if (Str.len str =? 0) || (4 <? Str.len str) || Str.first_is "-" str
  then None
  else
    let '(l, e) := C.strtoul str in
    if unread e || (C.u16 l =? 0) then None else Some (C.u16 l).

Definition read_rate (str2 : string) : option Z :=
  if (Str.len str2 =? 0) || (3 <? Str.len str2) || Str.first_is "-" str2
  then None
  else
    let '(l, e) := C.strtoul str2 in
    if unread e || (C.u16 l =? 0) || (255 <? C.u16 l) then None
    else Some (C.u16 l).

(** [split_all c s]: the tokens of [s] between the occurrences of [c]. *)
Fixpoint split_all (c : ascii) (s : string) : list string :=
  match s with
  | EmptyString => [""]
  | String a r =>
      if Ascii.eqb a c then "" :: split_all c r
      else match split_all c r with
           | t :: ts => String a t :: ts
           | [] => [String a ""]
           end
  end.

(** The values of the tokens, when every token is a port. *)
Fixpoint port_values (ts : list string) : option (list Z) :=
  match ts with
  | [] => Some []
  | t :: ts =>
      match port_value t, port_values ts with
      | Some v, Some vs => Some (v :: vs)
      | _, _ => None
      end
  end.

(** [n] consecutive ports after [v]. *)
Fixpoint consecutive (v : Z) (n : nat) : list Z :=
  match n with
  | O => []
  | S k => (v + 1) :: consecutive (v + 1) k
  end.

(** The port string as the [nports] ports it denotes: one to [nports]
    tokens, each a port, and every slot that is left takes the port before
    it plus one, which must not pass the highest port. *)
Definition ports_reading (nports : nat) (value : string) : option (list Z) :=
  let ts := split_all "," value in
  if (nports <? length ts)%nat then None
  else
    match port_values ts with
    | None => None
    | Some vs =>
        let missing := (nports - length vs)%nat in
        if HIGHEST_PORT <? List.last vs 0 + Z.of_nat missing then None
        else Some (vs ++ consecutive (List.last vs 0) missing)
    end.

(** A width or height, a rate and a port token behind a lead. *)
Definition led_dimension (p d : string) : bool :=
  lead p && dimension d && (Str.len (p +:+ d) <=? 4).

Definition led_rate (p d : string) : bool :=
  lead p && rate d && (Str.len (p +:+ d) <=? 3).

Definition led_port (p d : string) : bool :=
  lead p && port_token d && (Str.len (p +:+ d) <=? 5).

(** ** Connections that are counted *)



(** The variables of the watchdog. *)
Definition watchdog (s : State) : bool * Z * Z :=
  (connections_stopped s, open_connections s, counter s).

(** ** Further notions: what every accepted command line guarantees *)

(** The number of occurrences of [c] in [s]. *)
Fixpoint count_char (c : ascii) (s : string) : nat :=
  match s with
  | EmptyString => O
  | String a r => ((if Str.eq_char a c then 1 else 0) + count_char c r)%nat
  end.

(** A port cell: 0 (assigned dynamically) or a port of the allowed range. *)
Definition port_cell (p : Z) : Prop :=
  p = 0 \/ LOWEST_ALLOWED_PORT <= p <= HIGHEST_PORT.

(** What the argument loop keeps true of the variables of [main]. *)
Definition valid_config (c : Config) : Prop :=
  (exists w h r fps o,
     display c = [w; h; r; fps; o]
     /\ 0 <= w <= 65535 /\ 0 <= h <= 65535 /\ 0 <= r <= 255
     /\ 0 <= fps <= 255 /\ (o = 0 \/ o = 1))
  /\ (exists p0 p1 p2,
     tcp c = [p0; p1; p2] /\ port_cell p0 /\ port_cell p1 /\ port_cell p2)
  /\ (exists p0 p1 p2,
     udp c = [p0; p1; p2] /\ port_cell p0 /\ port_cell p1 /\ port_cell p2)
  /\ (exists f r,
     videoflip c = [f; r]
     /\ (f = NONE \/ f = INVERT \/ f = HFLIP \/ f = VFLIP)
     /\ (r = NONE \/ r = LEFT \/ r = RIGHT))
  /\ 0 <= server_timeout c < 2 ^ 32.

(** The flags that take a value and test for it with [option_has_value]. *)
Definition value_flags : list string :=
  ["-n"; "-s"; "-fps"; "-f"; "-r"; "-vs"; "-as"; "-t"].

(** An argument list asks for the usage text somewhere. *)
Definition asks_help (args : list string) : Prop :=
  In "-h" args \/ In "-v" args.

(** What one outcome of the loop on [args] from [c] has to satisfy. *)
Definition fair (args : list string) (c : Config) (res : parsed) : Prop :=
  match res with
  | Parsed c' => valid_config c -> valid_config c'
  | Exit n => n = 1 \/ (n = 0 /\ asks_help args)
  | Undefined => True
  end.

(** ** Further notions: events *)

(** A signal is among the events. *)
Fixpoint has_signal (evs : list event) : bool :=
  match evs with
  | [] => false
  | SIGINT :: _ | SIGTERM :: _ => true
  | _ :: evs => has_signal evs
  end.

(** ** Further notions: the status of a start *)

(** The status of [start_server] from what the subsystems answer: -1 when
    the protocol engine, the logger, the video renderer or an audio renderer
    that is asked for cannot be created, -2 when the service discovery
    cannot, 0 otherwise. *)
Definition start_status (env : Env) (use_audio : bool) (audiosink : string)
  : Z :=
  if negb (raop_init_ok env) then -1
  else if negb (logger_init_ok env) then -1
  else if negb (video_renderer_init_ok env) then -1
  else if use_audio && negb (is_flag audiosink "0")
          && negb (audio_renderer_init_ok env) then -1
  else if negb (dnssd_init_ok env) then -2
  else 0.

(** The status with which [main] ends. *)
Definition exit_status (r : option Z * Config * State * list Config)
  : option Z := r.1.1.1.

(** * Properties *)

(** ** The validators on a few inputs *)

Example get_display_settings_1280 :
  get_display_settings "1280x720@30" 0 0 0 = (true, (1280, 720, 30)).
Proof. reflexivity. Qed.

Example get_ports_7000 : get_ports 3 "7000" [0; 0; 0] = (true, [7000; 7001; 7002]).
Proof. reflexivity. Qed.

Example parse_help : parse_args ["-d"; "-h"; "-bogus"] initial_config = Exit 0.
Proof. reflexivity. Qed.

Example parse_hw_addr_example :
  parse_hw_addr "b8:27:eb:01:02:ff" [] = Some [184; 39; 235; 1; 2; 255].
Proof. reflexivity. Qed.

(** ** Strings *)

Section StringFacts.

Lemma append_nil b : "" +:+ b = b.
Proof. reflexivity. Qed.

Lemma append_cons c a b : String c a +:+ b = String c (a +:+ b).
Proof. reflexivity. Qed.

Lemma len_nonneg s : 0 <= Str.len s.
Proof. unfold Str.len. lia. Qed.

Lemma len_cons c s : Str.len (String c s) = Str.len s + 1.
Proof. unfold Str.len. simpl String.length. lia. Qed.

Lemma len_app a b : Str.len (a +:+ b) = Str.len a + Str.len b.
Proof.
  induction a as [|c a IH].
  - rewrite append_nil. change (Str.len "") with 0. lia.
  - rewrite append_cons, !len_cons, IH. lia.
Qed.

Lemma find_first_of_lacks c s : lacks c s = true -> Str.find_first_of c s = None.
Proof.
  induction s as [|a s IH]; simpl; [done|].
  intros [Ha Hs]%andb_prop. apply negb_true_iff in Ha. rewrite Ha, IH; done.
Qed.

Lemma find_first_of_app c a b :
  lacks c a = true ->
  Str.find_first_of c (a +:+ String c b) = Some (String.length a).
Proof.
  induction a as [|x a IH].
  - intros _. rewrite append_nil. simpl. unfold Str.eq_char.
    by rewrite Ascii.eqb_refl.
  - rewrite append_cons. simpl.
    intros [Hx Ha]%andb_prop. apply negb_true_iff in Hx. by rewrite Hx, IH.
Qed.

Lemma take_app a b : Str.take (String.length a) (a +:+ b) = a.
Proof.
  induction a as [|x a IH]; [done|].
  rewrite append_cons. simpl. by rewrite IH.
Qed.

Lemma drop_app a c b : Str.drop (S (String.length a)) (a +:+ String c b) = b.
Proof.
  induction a as [|x a IH]; [done|]. rewrite append_cons. apply IH.
Qed.

End StringFacts.

(** ** What [strtoul] does with digits and with foreign characters *)

(** Case analysis on every integer comparison in sight. *)
Ltac ztest t :=
  lazymatch t with
  | (?x =? ?y) => destruct (Z.eqb_spec x y)
  | (?x <? ?y) => destruct (Z.ltb_spec x y)
  | (?x <=? ?y) => destruct (Z.leb_spec x y)
  end.

Ltac zcase :=
  match goal with
  | H : context [?op ?x ?y] |- _ => ztest (op x y)
  | |- context [?op ?x ?y] => ztest (op x y)
  end.

(** Split a chain of conjunctions. *)
Ltac conjs := repeat match goal with |- _ /\ _ => split end.

Ltac zcases :=
  intros; repeat (zcase; simpl in * ); try done; try lia.

Section Scanning.

Lemma digit_in_isdigit c :
  isdigit c = true -> C.digit_in 10 c = Some (C.code c - 48).
Proof. unfold isdigit, C.digit_in, C.digit_value. zcases. Qed.

Lemma digit_in_10_inv c d :
  C.digit_in 10 c = Some d -> isdigit c = true /\ d = C.code c - 48.
Proof.
  unfold isdigit, C.digit_in, C.digit_value. intros H. zcases.
  all: try (split; congruence).
Qed.

Lemma isdigit_not_space c : isdigit c = true -> C.isspace c = false.
Proof. unfold isdigit, C.isspace. zcases. Qed.

Lemma isdigit_not_foreign c : isdigit c = true -> foreign c = false.
Proof. unfold foreign. by intros ->. Qed.

Lemma isdigit_ne c a : isdigit c = true -> isdigit a = false -> Str.eq_char c a = false.
Proof.
  intros Hc Ha. unfold Str.eq_char. apply Ascii.eqb_neq. congruence.
Qed.

Lemma all_digits_lacks s a : all_digits s = true -> isdigit a = false -> lacks a s = true.
Proof.
  intros Hs Ha. induction s as [|c s IH]; [done|]. simpl in *.
  apply andb_prop in Hs as [Hc Hs]. by rewrite (isdigit_ne c a), IH.
Qed.

Lemma accum_all_digits s acc :
  all_digits s = true -> C.accum 10 acc s = (decimal_from acc s, "").
Proof.
  revert acc. induction s as [|c s IH]; intros acc Hs; [done|]. simpl in *.
  apply andb_prop in Hs as [Hc Hs]. rewrite (digit_in_isdigit c Hc), IH by done.
  do 2 f_equal. lia.
Qed.

Lemma decimal_from_bounds s acc :
  all_digits s = true -> 0 <= acc ->
  acc * 10 ^ Str.len s <= decimal_from acc s < (acc + 1) * 10 ^ Str.len s.
Proof.
  revert acc. induction s as [|c s IH]; intros acc Hs Hacc.
  - change (Str.len "") with 0. simpl. lia.
  - simpl in *. apply andb_prop in Hs as [Hc Hs].
    unfold isdigit in Hc. apply andb_prop in Hc as [H1 H2].
    apply Z.leb_le in H1, H2.
    specialize (IH (10 * acc + (C.code c - 48)) Hs ltac:(lia)).
    rewrite len_cons, Z.pow_add_r by (pose proof (len_nonneg s); lia).
    pose proof (len_nonneg s).
    assert (0 < 10 ^ Str.len s) by (apply Z.pow_pos_nonneg; lia). nia.
Qed.

Lemma decimal_bounds s :
  all_digits s = true -> 0 <= decimal s < 10 ^ Str.len s.
Proof.
  intros Hs. pose proof (decimal_from_bounds s 0 Hs). unfold decimal. lia.
Qed.

Lemma scan_all_digits s :
  all_digits s = true -> s <> "" -> C.scan 10 s = Some (false, decimal s, "").
Proof.
  intros Hs Hne. destruct s as [|c s]; [done|]. simpl in Hs.
  apply andb_prop in Hs as [Hc Hs]. unfold C.scan. simpl C.skip_space.
  rewrite (isdigit_not_space c Hc).
  assert ((C.code c =? 45) = false) as -> by (unfold isdigit in Hc; zcases).
  assert ((C.code c =? 43) = false) as -> by (unfold isdigit in Hc; zcases).
  simpl. rewrite (digit_in_isdigit c Hc).
  rewrite accum_all_digits by done. unfold decimal. simpl.
  do 3 f_equal.
Qed.

Lemma strtoul_all_digits s :
  all_digits s = true -> s <> "" -> Str.len s <= 19 ->
  C.strtoul s = (decimal s, "").
Proof.
  intros Hs Hne Hlen. unfold C.strtoul, C.strtoul_gen.
  rewrite scan_all_digits by done.
  pose proof (decimal_bounds s Hs) as [H0 H1].
  assert (10 ^ Str.len s <= 10 ^ 19)
    by (apply Z.pow_le_mono_r; pose proof (len_nonneg s); lia).
  assert ((2 ^ C.ULONG_BITS - 1 <? decimal s) = false) as ->; [|done].
  apply Z.ltb_ge. unfold C.ULONG_BITS. lia.
Qed.

Lemma has_foreign_skip_space s : has_foreign (C.skip_space s) = has_foreign s.
Proof.
  induction s as [|c s IH]; [done|]. simpl.
  destruct (C.isspace c) eqn:Hc; [|done].
  rewrite IH. unfold foreign. rewrite Hc. by rewrite orb_true_r.
Qed.

Lemma has_foreign_accum s acc :
  has_foreign (C.accum 10 acc s).2 = has_foreign s.
Proof.
  revert acc. induction s as [|c s IH]; intros acc; [done|]. simpl.
  destruct (C.digit_in 10 c) as [d|] eqn:Hd; [|done].
  apply digit_in_10_inv in Hd as [Hc _].
  by rewrite IH, (isdigit_not_foreign c Hc).
Qed.

Lemma scan_foreign s neg v e :
  C.scan 10 s = Some (neg, v, e) -> has_foreign e = has_foreign s.
Proof.
  unfold C.scan. rewrite <- (has_foreign_skip_space s).
  destruct (C.skip_space s) as [|c r] eqn:Hs.
  - simpl. done.
  - assert (forall t neg', has_foreign t = has_foreign (String c r) ->
            (if C.starts_with_digit 10 t
             then let '(v, e) := C.accum 10 0 t in Some (neg', v, e)
             else None) = Some (neg, v, e) ->
            has_foreign e = has_foreign (String c r)) as Hk.
    { intros t neg' Ht. destruct (C.starts_with_digit 10 t); [|done].
      pose proof (has_foreign_accum t 0) as Ha.
      destruct (C.accum 10 0 t) as [v' e']. intros [= _ _ <-]. simpl in Ha.
      congruence. }
    destruct (C.code c =? 45) eqn:H45; [|destruct (C.code c =? 43) eqn:H43].
    + apply Hk. simpl. unfold foreign. rewrite H45.
      by rewrite !orb_true_r.
    + apply Hk. simpl. unfold foreign. rewrite H43.
      by rewrite !orb_true_r.
    + by apply Hk.
Qed.

Lemma has_foreign_unread s : has_foreign s = true -> unread s = true.
Proof. by destruct s. Qed.

(** A foreign character anywhere in the string is left unread. *)
Lemma strtoul_foreign s :
  has_foreign s = true -> unread (C.strtoul s).2 = true.
Proof.
  intros Hs. unfold C.strtoul, C.strtoul_gen.
  destruct (C.scan 10 s) as [[[neg v] e]|] eqn:Hscan.
  - apply scan_foreign in Hscan.
    destruct (_ <? v); simpl; apply has_foreign_unread; congruence.
  - simpl. by apply has_foreign_unread.
Qed.

End Scanning.

(** ** Display geometry: [get_display_settings] *)

Section Display.

Lemma digits_inv lo hi s :
  digits lo hi s = true -> all_digits s = true /\ lo <= Str.len s <= hi.
Proof. unfold digits. intros [[? ?%Z.leb_le]%andb_prop ?%Z.leb_le]%andb_prop. auto. Qed.

Lemma digits_guard lo hi s (c : ascii) :
  digits lo hi s = true -> 1 <= lo -> isdigit c = false ->
  ((Str.len s =? 0) || (hi <? Str.len s) || Str.first_is c s) = false.
Proof.
  intros [Hs Hl]%digits_inv Hlo Hc.
  assert (Str.first_is c s = false) as ->.
  { destruct s as [|a s]; [done|]. simpl in *.
    apply andb_prop in Hs as [Ha _]. by apply isdigit_ne. }
  zcases.
Qed.

Lemma digits_strtoul lo hi s :
  digits lo hi s = true -> 1 <= lo -> hi <= 19 ->
  C.strtoul s = (decimal s, "").
Proof.
  intros [Hs Hl]%digits_inv Hlo Hhi. apply strtoul_all_digits; [done| |lia].
  intros ->. change (Str.len "") with 0 in Hl. lia.
Qed.

Lemma digits_decimal lo hi s :
  digits lo hi s = true -> 0 <= hi -> 0 <= decimal s < 10 ^ hi.
Proof.
  intros [Hs Hl]%digits_inv Hhi. pose proof (decimal_bounds s Hs).
  assert (10 ^ Str.len s <= 10 ^ hi) by (apply Z.pow_le_mono_r; lia). lia.
Qed.

(** The three ways in which a rejected segment fails in the code: at the
    length-and-sign test, at the [*end] test, or at the zero test. *)
Lemma rejected_cases hi s :
  rejected hi s = true -> hi <= 19 ->
  ((Str.len s =? 0) || (hi <? Str.len s) || Str.first_is "-" s) = true
  \/ unread (C.strtoul s).2 = true
  \/ (C.strtoul s).1 = 0.
Proof.
  unfold rejected. intros H Hhi.
  destruct (Str.len s =? 0) eqn:H0; [by left|].
  destruct (hi <? Str.len s) eqn:H1; [by left|].
  destruct (Str.first_is "-" s) eqn:H2; [by left|].
  assert (Str.is_empty s = false) as He
    by (destruct s; [by rewrite Z.eqb_refl in H0|done]).
  rewrite He in H. simpl in *. right.
  destruct (has_foreign s) eqn:Hf; [left; by apply strtoul_foreign|].
  simpl in H. apply andb_prop in H as [Hd Hz%Z.eqb_eq]. right.
  rewrite strtoul_all_digits; [done|done| |apply Z.ltb_ge in H1; lia].
  intros ->. done.
Qed.

Lemma gds_no_x value w h r :
  lacks "x" value = true -> (get_display_settings value w h r).1 = false.
Proof.
  intros H. unfold get_display_settings. by rewrite find_first_of_lacks.
Qed.

(** The first segment. *)
Lemma gds_bad_width a b w h r :
  lacks "x" a = true -> rejected 4 a = true ->
  (get_display_settings (a +:+ String "x" b) w h r).1 = false.
Proof.
  intros Hx Ha. unfold get_display_settings.
  rewrite find_first_of_app, take_app, drop_app by done.
  destruct (rejected_cases 4 a Ha ltac:(lia)) as [->|[H|H]]; [done| |];
    destruct (_ || _); try done;
    destruct (C.strtoul a) as [l e]; simpl in H.
  - by rewrite H.
  - subst l. change (C.u16 0) with 0. by rewrite orb_true_r.
Qed.

Lemma height_step_bad w h r s :
  rejected 4 s = true -> (height_step w h r s).1 = false.
Proof.
  intros Hs. unfold height_step.
  destruct (rejected_cases 4 s Hs ltac:(lia)) as [->|[H|H]]; [done| |];
    destruct (_ || _); try done;
    destruct (C.strtoul s) as [l e]; simpl in H.
  - by rewrite H.
  - subst l. change (C.u16 0) with 0. by rewrite orb_true_r.
Qed.

Lemma u16_small z : 0 <= z < 65536 -> C.u16 z = z.
Proof. intros. unfold C.u16. by apply Z.mod_small. Qed.

Lemma dimension_inv s :
  dimension s = true -> digits 1 4 s = true /\ 0 < decimal s < 10000.
Proof.
  unfold dimension. intros [Hd Hz]%andb_prop. split; [done|].
  pose proof (digits_decimal 1 4 s Hd ltac:(lia)).
  apply negb_true_iff, Z.eqb_neq in Hz. lia.
Qed.

Lemma height_step_ok w h r s :
  dimension s = true -> height_step w h r s = (true, (w, decimal s, r)).
Proof.
  intros [Hd Hz]%dimension_inv. unfold height_step.
  rewrite (digits_guard 1 4 s "-" Hd) by (done || lia).
  rewrite (digits_strtoul 1 4 s Hd) by lia.
  rewrite u16_small by lia. simpl.
  by assert ((decimal s =? 0) = false) as -> by zcases.
Qed.

(** The function after a good width, in terms of [height_step]. *)
Lemma gds_good_width a b w h r :
  dimension a = true ->
  get_display_settings (a +:+ String "x" b) w h r =
  match Str.find_first_of "@" b with
  | Some pos =>
      let str2 := Str.drop (S pos) b in
      if (Str.len str2 =? 0) || (3 <? Str.len str2) || Str.first_is "-" str2
      then (false, (decimal a, h, r))
      else
        let '(l, e) := C.strtoul str2 in
        let r := C.u16 l in
        if unread e || (r =? 0) || (255 <? r) then (false, (decimal a, h, r))
        else height_step (decimal a) h r (Str.take pos b)
  | None => height_step (decimal a) h r b
  end.
Proof.
  intros [Hd Hz]%dimension_inv. unfold get_display_settings.
  destruct (digits_inv _ _ _ Hd) as [Hall _].
  rewrite find_first_of_app, take_app, drop_app
    by (by apply all_digits_lacks).
  rewrite (digits_guard 1 4 a "-" Hd) by (done || lia).
  rewrite (digits_strtoul 1 4 a Hd) by lia.
  rewrite u16_small by lia. simpl.
  by assert ((decimal a =? 0) = false) as -> by zcases.
Qed.

(** The function after any width that passes, first component only. *)
Lemma gds_after_width a b w h r :
  lacks "x" a = true ->
  (get_display_settings (a +:+ String "x" b) w h r).1 = true ->
  exists w',
    match Str.find_first_of "@" b with
    | Some pos =>
        let str2 := Str.drop (S pos) b in
        if (Str.len str2 =? 0) || (3 <? Str.len str2) || Str.first_is "-" str2
        then false
        else
          let '(l, e) := C.strtoul str2 in
          let r := C.u16 l in
          if unread e || (r =? 0) || (255 <? r) then false
          else (height_step w' h r (Str.take pos b)).1
    | None => (height_step w' h r b).1
    end = true.
Proof.
  intros Hx. unfold get_display_settings.
  rewrite find_first_of_app, take_app, drop_app by done.
  destruct (_ || _); [done|].
  destruct (C.strtoul a) as [l e]. destruct (_ || _); [done|].
  intros H. exists (C.u16 l).
  destruct (Str.find_first_of "@" b) as [pos|]; [|exact H].
  cbv zeta in *. destruct (_ || _); [done|].
  destruct (C.strtoul (Str.drop (S pos) b)) as [l2 e2].
  destruct (_ || _); [done|]. exact H.
Qed.

Lemma rejected_rate_cases s :
  rejected_rate s = true ->
  ((Str.len s =? 0) || (3 <? Str.len s) || Str.first_is "-" s) = true
  \/ (let '(l, e) := C.strtoul s in
      unread e || (C.u16 l =? 0) || (255 <? C.u16 l)) = true.
Proof.
  unfold rejected_rate. intros [H|H]%orb_prop.
  - destruct (rejected_cases 3 s H ltac:(lia)) as [?|[H'|H']]; [by left| |];
      right; destruct (C.strtoul s) as [l e]; simpl in H'.
    + by rewrite H'.
    + subst l. change (C.u16 0) with 0. by rewrite orb_true_r.
  - apply andb_prop in H as [Hd Hbig%Z.ltb_lt].
    destruct (3 <? Str.len s) eqn:H3; [left; by rewrite orb_true_r|].
    right. apply Z.ltb_ge in H3.
    rewrite strtoul_all_digits; [|done| |lia].
    + pose proof (decimal_bounds s Hd).
      assert (10 ^ Str.len s <= 10 ^ 3)
        by (apply Z.pow_le_mono_r; pose proof (len_nonneg s); lia).
      rewrite u16_small by lia.
      assert ((255 <? decimal s) = true) as -> by zcases.
      by rewrite orb_true_r.
    + intros ->. done.
Qed.

End Display.

(** *** [strtoul] on white space, signs and digits *)

Section Numerals.

Lemma blank_isspace c : C.isspace c = blank c.
Proof.
  unfold C.isspace, blank. cbn [existsb].
  destruct (C.code c =? 32) eqn:?, (C.code c =? 9) eqn:?, (C.code c =? 10) eqn:?,
    (C.code c =? 11) eqn:?, (C.code c =? 12) eqn:?, (C.code c =? 13) eqn:?; lia.
Qed.

Lemma skip_space_strip s : C.skip_space s = strip_blanks s.
Proof.
  induction s as [|c s IH]; [done|]. simpl. rewrite blank_isspace, IH. done.
Qed.

Lemma isdigit_not_blank c : isdigit c = true -> blank c = false.
Proof. rewrite <- blank_isspace. apply isdigit_not_space. Qed.

Lemma code_char c (a : ascii) : (C.code c =? C.code a) = Ascii.eqb c a.
Proof.
  destruct (Ascii.eqb_spec c a) as [->|Hne]; [apply Z.eqb_refl|].
  apply Z.eqb_neq. intros H. apply Hne. unfold C.code in H.
  apply (f_equal Z.to_N) in H. rewrite !N2Z.id in H.
  rewrite <- (ascii_N_embedding c), <- (ascii_N_embedding a). by f_equal.
Qed.

Lemma isdigit_not_char c (a : ascii) :
  isdigit c = true -> isdigit a = false -> Ascii.eqb c a = false.
Proof. apply isdigit_ne. Qed.

Lemma len_strip_blanks s : Str.len (strip_blanks s) <= Str.len s.
Proof.
  induction s as [|c s IH]; [done|]. simpl. destruct (blank c); [|lia].
  rewrite len_cons. lia.
Qed.

Lemma strip_blanks_head s : Str.first_is "-" s = true -> strip_blanks s = s.
Proof.
  destruct s as [|c s]; [done|]. simpl. unfold Str.eq_char.
  intros ->%Ascii.eqb_eq. done.
Qed.

(** [scan] in terms of the stripped string. *)
Lemma scan_strip s :
  C.scan 10 s =
  let t := strip_blanks s in
  let d := match t with
           | String c r => if Ascii.eqb c "-" || Ascii.eqb c "+" then r else t
           | EmptyString => t
           end in
  if C.starts_with_digit 10 d
  then Some (Str.first_is "-" t, (C.accum 10 0 d).1, (C.accum 10 0 d).2)
  else None.
Proof.
  unfold C.scan. rewrite skip_space_strip. cbv zeta.
  destruct (strip_blanks s) as [|c r]; [done|].
  change 45 with (C.code "-"). change 43 with (C.code "+").
  rewrite !code_char. cbn [Str.first_is]. unfold Str.eq_char.
  destruct (Ascii.eqb c "-") eqn:Hm.
  - cbn [orb]. change (10 =? 16) with false. cbv iota.
    destruct (C.starts_with_digit 10 r); [|done]. by destruct (C.accum 10 0 r).
  - destruct (Ascii.eqb c "+"); cbn [orb]; change (10 =? 16) with false; cbv iota.
    + destruct (C.starts_with_digit 10 r); [|done]. by destruct (C.accum 10 0 r).
    + destruct (C.starts_with_digit 10 (String c r)); [|done].
      by destruct (C.accum 10 0 (String c r)).
Qed.

Lemma accum_unread s : forall acc,
  all_digits s = false -> unread (C.accum 10 acc s).2 = true.
Proof.
  induction s as [|c s IH]; intros acc Hs; [done|]. simpl in *.
  destruct (C.digit_in 10 c) as [d|] eqn:Hd; [|done].
  apply digit_in_10_inv in Hd as [Hc _]. rewrite Hc in Hs. by apply IH.
Qed.

Lemma starts_with_digit_isdigit s :
  C.starts_with_digit 10 s =
  match s with String c _ => isdigit c | EmptyString => false end.
Proof.
  destruct s as [|c s]; [done|]. simpl.
  destruct (C.digit_in 10 c) as [d|] eqn:Hd.
  - by apply digit_in_10_inv in Hd as [-> _].
  - destruct (isdigit c) eqn:Hc; [|done]. by rewrite digit_in_isdigit in Hd.
Qed.

Lemma starts_with_digit_all s :
  all_digits s = true -> s <> "" -> C.starts_with_digit 10 s = true.
Proof.
  rewrite starts_with_digit_isdigit. destruct s as [|c s]; [done|]. simpl.
  by intros [? _]%andb_prop _.
Qed.

Lemma not_started s :
  C.starts_with_digit 10 s = false ->
  all_digits s && negb (Str.is_empty s) = false.
Proof.
  rewrite starts_with_digit_isdigit. destruct s as [|c s]; [done|]. simpl.
  by intros ->.
Qed.

(** The subject sequence: digits, behind a sign or not. *)
Lemma scan_digits d (neg : bool) acc :
  (if C.starts_with_digit 10 d
   then Some (neg, (C.accum 10 acc d).1, (C.accum 10 acc d).2)
   else None) =
  if all_digits d && negb (Str.is_empty d)
  then Some (neg, decimal_from acc d, "")
  else if C.starts_with_digit 10 d
       then Some (neg, (C.accum 10 acc d).1, (C.accum 10 acc d).2)
       else None.
Proof.
  destruct (all_digits d) eqn:Hd; [|done].
  destruct d as [|c d]; [done|]. cbn [Str.is_empty negb andb].
  rewrite starts_with_digit_all, accum_all_digits by done. done.
Qed.

Lemma pow10_le a b : 0 <= a <= b -> 10 ^ a <= 10 ^ b.
Proof. intros. apply Z.pow_le_mono_r; lia. Qed.

(** What [strtoul] gives on a string of at most 19 characters: the numeral;
    or, for white space, a minus sign and digits, the negated number in the
    unsigned type; or else nothing read to the end, or 0. *)
Lemma strtoul_cases s :
  Str.len s <= 19 ->
  match numeral s with
  | Some v => C.strtoul s = (v, "") /\ 0 <= v < 10 ^ Str.len s
  | None =>
      if Str.first_is "-" (strip_blanks s) && all_digits (behind_sign s)
         && negb (Str.is_empty (behind_sign s))
      then C.strtoul s = ((- decimal (behind_sign s)) mod 2 ^ 64, "")
           /\ 0 <= decimal (behind_sign s) < 10 ^ (Str.len s - 1)
      else unread (C.strtoul s).2 = true \/ (C.strtoul s).1 = 0
  end.
Proof.
  intros Hlen. pose proof (len_strip_blanks s) as Hstrip.
  unfold numeral, behind_sign, C.strtoul, C.strtoul_gen, C.ULONG_BITS, decimal.
  rewrite scan_strip. cbv zeta.
  destruct (strip_blanks s) as [|c r] eqn:Ht.
  { simpl. destruct s; [by right|by left]. }
  rewrite len_cons in Hstrip. pose proof (len_nonneg r) as Hr0.
  cbn [strip_plus Str.first_is]. unfold Str.eq_char.
  assert (forall d (neg : bool), all_digits d = true -> Str.len d <= 19 ->
          0 <= decimal_from 0 d < 10 ^ Str.len d
          /\ (2 ^ 64 - 1 <? decimal_from 0 d) = false)
    as Hsmall.
  { intros d neg Hd Hl. pose proof (decimal_bounds d Hd). unfold decimal in *.
    pose proof (pow10_le (Str.len d) 19 ltac:(pose proof (len_nonneg d); lia)).
    split; [done|]. apply Z.ltb_ge. lia. }
  assert (forall d (neg : bool),
          all_digits d && negb (Str.is_empty d) = false ->
          let r := match (if C.starts_with_digit 10 d
                          then Some (neg, (C.accum 10 0 d).1, (C.accum 10 0 d).2)
                          else None) with
                   | Some (neg, v, e) =>
                       if 2 ^ 64 - 1 <? v then (2 ^ 64 - 1, e)
                       else (if neg then (- v) mod 2 ^ 64 else v, e)
                   | None => (0, s)
                   end in
          unread r.2 = true \/ r.1 = 0) as Hbad.
  { intros d neg Hd. cbv zeta.
    destruct (C.starts_with_digit 10 d) eqn:Hs; [|by right].
    left. assert (all_digits d = false) as Hnd.
    { destruct (all_digits d); [|done]. destruct d; [done|]. done. }
    pose proof (accum_unread d 0 Hnd). by destruct (_ <? _). }
  destruct (Ascii.eqb c "-") eqn:Hm.
  - apply Ascii.eqb_eq in Hm as ->. cbn [orb Ascii.eqb andb].
    change (Ascii.eqb "-" "+") with false. cbv iota.
    change (all_digits (String "-" r)) with false. cbn [andb].
    destruct (all_digits r && negb (Str.is_empty r)) eqn:Hd.
    + rewrite scan_digits, Hd. apply andb_prop in Hd as [Hd _].
      destruct (Hsmall r true Hd ltac:(lia)) as [Hb ->].
      split; [done|].
      pose proof (pow10_le (Str.len r) (Str.len s - 1) ltac:(lia)). lia.
    + by apply Hbad.
  - destruct (Ascii.eqb c "+") eqn:Hp; cbn [orb andb].
    + destruct (all_digits r && negb (Str.is_empty r)) eqn:Hd.
      * rewrite scan_digits, Hd. apply andb_prop in Hd as [Hd _].
        destruct (Hsmall r false Hd ltac:(lia)) as [Hb ->].
        split; [done|].
        pose proof (pow10_le (Str.len r) (Str.len s) ltac:(lia)). lia.
      * by apply Hbad.
    + destruct (all_digits (String c r) && negb (Str.is_empty (String c r)))
        eqn:Hd.
      * rewrite scan_digits, Hd. apply andb_prop in Hd as [Hd _].
        destruct (Hsmall (String c r) false Hd ltac:(rewrite len_cons; lia))
          as [Hb ->].
        split; [done|]. rewrite len_cons in Hb.
        pose proof (pow10_le (Str.len r + 1) (Str.len s) ltac:(lia)). lia.
      * by apply Hbad.
Qed.


Lemma u16_negated v : 0 < v <= 65536 -> C.u16 ((- v) mod 2 ^ 64) = 65536 - v.
Proof.
  intros Hv. unfold C.u16. change (2 ^ 64) with 18446744073709551616.
  rewrite <- (Z.mod_unique (- v) 18446744073709551616 (-1)
                (18446744073709551616 - v)) by lia.
  symmetry. apply (Z.mod_unique _ 65536 281474976710655); lia.
Qed.

Lemma len_zero s : (Str.len s =? 0) = Str.is_empty s.
Proof.
  destruct s; [done|]. rewrite len_cons. cbn [Str.is_empty].
  pose proof (len_nonneg s). lia.
Qed.

Lemma numeral_minus s : Str.first_is "-" (strip_blanks s) = true -> numeral s = None.
Proof.
  unfold numeral. destruct (strip_blanks s) as [|c r]; [done|].
  cbn [Str.first_is]. unfold Str.eq_char. intros ->%Ascii.eqb_eq. done.
Qed.

(** With the first character not a minus sign, a minus sign at the head of
    the stripped string stands behind white space. *)
Lemma minus_behind s :
  Str.first_is "-" s = false ->
  Str.first_is "-" (strip_blanks s) && all_digits (behind_sign s)
    && negb (Str.is_empty (behind_sign s)) = minus_behind_blank s.
Proof.
  unfold minus_behind_blank, behind_sign. intros Hs.
  destruct s as [|c s]; [done|]. cbn [strip_blanks].
  destruct (blank c) eqn:Hc.
  - destruct (strip_blanks s) as [|m d]; [done|]. done.
  - cbn [Str.first_is] in *. rewrite Hs. done.
Qed.

(** The guard of every validator and the length test of [ranged]. *)
Lemma guard_cases hi s :
  0 <= hi ->
  (Str.len s =? 0) || (hi <? Str.len s) || Str.first_is "-" s = true ->
  forall lo up, ranged hi lo up s = None.
Proof.
  intros Hhi H lo up. unfold ranged.
  destruct (Str.len s <=? hi) eqn:Hl; [|done].
  destruct (Str.first_is "-" s) eqn:Hm.
  - rewrite numeral_minus; [done|]. by rewrite strip_blanks_head.
  - rewrite orb_false_r in H. rewrite len_zero in H.
    destruct s; [done|]. cbn [Str.is_empty] in H. lia.
Qed.

Lemma read_dimension_value s :
  negative_dimension s = false -> read_dimension s = dimension_value s.
Proof.
  intros Hneg. unfold read_dimension, dimension_value.
  destruct ((Str.len s =? 0) || (4 <? Str.len s) || Str.first_is "-" s) eqn:G.
  { symmetry. by apply guard_cases. }
  apply orb_false_elim in G as [G Hm]. apply orb_false_elim in G as [_ Hl].
  pose proof (strtoul_cases s ltac:(lia)) as H. rewrite minus_behind in H by done.
  unfold negative_dimension in Hneg. unfold ranged.
  assert ((Str.len s <=? 4) = true) as Hl' by lia. rewrite Hl' in *.
  destruct (numeral s) as [v|].
  - destruct H as [-> Hv]. cbn [unread Str.is_empty negb orb].
    pose proof (pow10_le (Str.len s) 4 ltac:(pose proof (len_nonneg s); lia)).
    rewrite u16_small by lia.
    destruct (v =? 0) eqn:?, (1 <=? v) eqn:?, (v <=? 9999) eqn:?; try done; lia.
  - destruct (minus_behind_blank s).
    + destruct H as [-> _]. cbn [andb negb] in Hneg.
      apply negb_false_iff, Z.eqb_eq in Hneg. rewrite Hneg. done.
    + destruct (C.strtoul s) as [l e]. cbn [fst snd] in H.
      destruct H as [->| ->]; [done|]. by rewrite orb_true_r.
Qed.

Lemma read_rate_value s : read_rate s = rate_value s.
Proof.
  unfold read_rate, rate_value.
  destruct ((Str.len s =? 0) || (3 <? Str.len s) || Str.first_is "-" s) eqn:G.
  { symmetry. by apply guard_cases. }
  apply orb_false_elim in G as [G Hm]. apply orb_false_elim in G as [H0 Hl].
  pose proof (strtoul_cases s ltac:(lia)) as H. rewrite minus_behind in H by done.
  unfold ranged.
  assert ((Str.len s <=? 3) = true) as Hl' by lia. rewrite Hl' in *.
  destruct (numeral s) as [v|].
  - destruct H as [-> Hv]. cbn [unread Str.is_empty negb orb].
    pose proof (pow10_le (Str.len s) 3 ltac:(pose proof (len_nonneg s); lia)).
    rewrite u16_small by lia.
    destruct (v =? 0) eqn:?, (1 <=? v) eqn:?, (v <=? 255) eqn:?,
      (255 <? v) eqn:?; try done; lia.
  - destruct (minus_behind_blank s).
    + destruct H as [-> Hv]. cbn [unread Str.is_empty negb orb].
      pose proof (pow10_le (Str.len s - 1) 2
                    ltac:(pose proof (len_nonneg s); lia)).
      set (v := decimal (behind_sign s)) in *.
      destruct (Z.eq_dec v 0) as [->|Hnz]; [done|].
      rewrite u16_negated by lia.
      destruct (65536 - v =? 0) eqn:?, (255 <? 65536 - v) eqn:?; try done; lia.
    + destruct (C.strtoul s) as [l e]. cbn [fst snd] in H.
      destruct H as [->| ->]; [done|]. by rewrite orb_true_r.
Qed.


Lemma read_port_value s : read_port s = port_value s.
Proof.
  unfold read_port, port_value, LOWEST_ALLOWED_PORT, HIGHEST_PORT.
  destruct ((Str.len s =? 0) || (5 <? Str.len s) || Str.first_is "-" s) eqn:G.
  { symmetry. by apply guard_cases. }
  apply orb_false_elim in G as [G Hm]. apply orb_false_elim in G as [H0 Hl].
  pose proof (strtoul_cases s ltac:(lia)) as H. rewrite minus_behind in H by done.
  unfold ranged.
  assert ((Str.len s <=? 5) = true) as Hl' by lia. rewrite Hl' in *.
  destruct (numeral s) as [v|].
  - destruct H as [-> Hv]. cbn [unread Str.is_empty negb orb].
    destruct (v <? 1024) eqn:?, (1024 <=? v) eqn:?, (v <=? 65535) eqn:?,
      (65535 <? v) eqn:?; try done; lia.
  - destruct (minus_behind_blank s).
    + destruct H as [-> Hv]. cbn [unread Str.is_empty negb orb].
      pose proof (pow10_le (Str.len s - 1) 4
                    ltac:(pose proof (len_nonneg s); lia)).
      set (v := decimal (behind_sign s)) in *.
      destruct (Z.eq_dec v 0) as [->|Hnz]; [done|].
      rewrite <- (Z.mod_unique (- v) (2 ^ 64) (-1) (2 ^ 64 - v)) by lia.
      destruct (2 ^ 64 - v <? 1024) eqn:?, (65535 <? 2 ^ 64 - v) eqn:?;
        try done; lia.
    + destruct (C.strtoul s) as [l e]. cbn [fst snd] in H.
      destruct H as [->| ->]; [done|]. by rewrite orb_true_r.
Qed.

End Numerals.

(** *** The function and the reading of the string *)

Section DisplayReading.

Lemma split_at_find c s :
  split_at c s =
  match Str.find_first_of c s with
  | Some pos => Some (Str.take pos s, Str.drop (S pos) s)
  | None => None
  end.
Proof.
  induction s as [|a s IH]; [done|]. cbn [split_at Str.find_first_of].
  unfold Str.eq_char. destruct (Ascii.eqb a c); [done|]. rewrite IH.
  by destruct (Str.find_first_of c s).
Qed.

(** [get_display_settings] through the tests on its segments. *)
Lemma gds_reads value w h r :
  match Str.find_first_of "x" value with
  | None => (get_display_settings value w h r).1 = false
  | Some pos =>
      let str1 := Str.drop (S pos) value in
      match read_dimension (Str.take pos value) with
      | None => (get_display_settings value w h r).1 = false
      | Some w' =>
          match Str.find_first_of "@" str1 with
          | None =>
              match read_dimension str1 with
              | None => (get_display_settings value w h r).1 = false
              | Some h' => get_display_settings value w h r = (true, (w', h', r))
              end
          | Some p =>
              match read_rate (Str.drop (S p) str1) with
              | None => (get_display_settings value w h r).1 = false
              | Some r' =>
                  match read_dimension (Str.take p str1) with
                  | None => (get_display_settings value w h r).1 = false
                  | Some h' =>
                      get_display_settings value w h r = (true, (w', h', r'))
                  end
              end
          end
      end
  end.
Proof.
  unfold get_display_settings, read_dimension, read_rate.
  destruct (Str.find_first_of "x" value) as [pos|]; [|done]. cbv zeta.
  destruct (_ || _); [done|].
  destruct (C.strtoul (Str.take pos value)) as [l e].
  destruct (unread e || (C.u16 l =? 0)); [done|].
  destruct (Str.find_first_of "@" (Str.drop (S pos) value)) as [p|].
  - destruct (_ || _); [done|].
    destruct (C.strtoul (Str.drop (S p) _)) as [l2 e2].
    destruct (unread e2 || (C.u16 l2 =? 0) || (255 <? C.u16 l2)); [done|].
    destruct (_ || _); [done|].
    destruct (C.strtoul (Str.take p _)) as [l3 e3].
    by destruct (unread e3 || (C.u16 l3 =? 0)).
  - destruct (_ || _); [done|].
    destruct (C.strtoul (Str.drop (S pos) value)) as [l3 e3].
    by destruct (unread e3 || (C.u16 l3 =? 0)).
Qed.

(** Outside the segments that read as negative, the function computes the
    reading. *)
Lemma gds_reading value w h r :
  Forall (fun s => negative_dimension s = false) (dimensions_of value) ->
  match display_reading value with
  | Some (w', h', r') =>
      get_display_settings value w h r = (true, (w', h', default r r'))
  | None => (get_display_settings value w h r).1 = false
  end.
Proof.
  intros Hneg. pose proof (gds_reads value w h r) as H.
  unfold display_reading, dimensions_of in *. rewrite split_at_find in *.
  destruct (Str.find_first_of "x" value) as [pos|]; [|done]. cbv zeta in H.
  rewrite split_at_find in *.
  destruct (Str.find_first_of "@" (Str.drop (S pos) value)) as [p|].
  - apply Forall_cons in Hneg as [Hw Hneg]. apply Forall_cons in Hneg as [Hh _].
    rewrite read_rate_value, !read_dimension_value in H by done.
    destruct (dimension_value (Str.take pos value)); [|done].
    destruct (rate_value _); destruct (dimension_value _); done.
  - apply Forall_cons in Hneg as [Hw Hneg]. apply Forall_cons in Hneg as [Hh _].
    rewrite !read_dimension_value in H by done.
    destruct (dimension_value (Str.take pos value)); [|done].
    by destruct (dimension_value _).
Qed.

End DisplayReading.

(** *** Digits behind a lead *)

Section Leads.

Lemma lacks_app a u v : lacks a (u +:+ v) = lacks a u && lacks a v.
Proof.
  induction u as [|c u IH]; [done|]. rewrite append_cons. simpl.
  rewrite IH. by rewrite andb_assoc.
Qed.

Lemma lead_lacks a p :
  lead p = true -> blank a = false -> Ascii.eqb a "+" = false ->
  lacks a p = true.
Proof.
  intros Hp Ha Hplus. induction p as [|c p IH]; [done|].
  unfold lead in *. cbn [strip_blanks] in Hp. cbn [lacks]. unfold Str.eq_char.
  destruct (blank c) eqn:Hc.
  - rewrite IH by done. destruct (Ascii.eqb_spec c a) as [->|]; [congruence|done].
  - apply andb_prop in Hp as [->%Ascii.eqb_eq He]. destruct p; [|done].
    rewrite Ascii.eqb_sym, Hplus. done.
Qed.

Lemma strip_blanks_digits d : all_digits d = true -> strip_blanks d = d.
Proof.
  destruct d as [|c d]; [done|]. simpl. intros [Hc _]%andb_prop.
  by rewrite isdigit_not_blank.
Qed.

Lemma strip_lead p d :
  lead p = true -> all_digits d = true -> d <> "" ->
  strip_plus (strip_blanks (p +:+ d)) = d
  /\ Str.first_is "-" (strip_blanks (p +:+ d)) = false.
Proof.
  intros Hp Hd Hne. induction p as [|c p IH].
  - rewrite append_nil, strip_blanks_digits by done.
    destruct d as [|c d]; [done|]. simpl in *.
    apply andb_prop in Hd as [Hc _]. unfold Str.eq_char.
    rewrite !(isdigit_not_char c) by done. done.
  - rewrite append_cons. unfold lead in *. cbn [strip_blanks] in *.
    destruct (blank c) eqn:Hc; [by apply IH|].
    apply andb_prop in Hp as [->%Ascii.eqb_eq He]. destruct p; [|done].
    rewrite append_nil. done.
Qed.

Lemma numeral_lead p d :
  lead p = true -> all_digits d = true -> d <> "" ->
  numeral (p +:+ d) = Some (decimal d).
Proof.
  intros Hp Hd Hne. unfold numeral.
  destruct (strip_lead p d Hp Hd Hne) as [-> _]. rewrite Hd.
  by destruct d.
Qed.

Lemma lead_not_negative p d :
  lead p = true -> all_digits d = true -> d <> "" ->
  negative_dimension (p +:+ d) = false.
Proof.
  intros Hp Hd Hne. destruct (strip_lead p d Hp Hd Hne) as [_ Hm].
  unfold negative_dimension, minus_behind_blank.
  destruct (p +:+ d) as [|c s]; [done|].
  destruct (strip_blanks (String c s)) as [|m e]; [done|].
  cbn [Str.first_is] in Hm. unfold Str.eq_char in Hm. rewrite Hm.
  by rewrite andb_false_r.
Qed.

Lemma digits_nonempty lo hi d : digits lo hi d = true -> 1 <= lo -> d <> "".
Proof.
  intros [_ Hl]%digits_inv Hlo ->. change (Str.len "") with 0 in Hl. lia.
Qed.

Lemma dimension_value_lead p d :
  lead p = true -> dimension d = true -> Str.len (p +:+ d) <= 4 ->
  dimension_value (p +:+ d) = Some (decimal d).
Proof.
  intros Hp [Hd Hv]%dimension_inv Hl. unfold dimension_value, ranged.
  destruct (digits_inv _ _ _ Hd) as [Hall _].
  rewrite numeral_lead by (done || by apply (digits_nonempty 1 4)).
  destruct (Str.len (p +:+ d) <=? 4) eqn:?, (1 <=? decimal d) eqn:?,
    (decimal d <=? 9999) eqn:?; try done; lia.
Qed.

Lemma rate_value_lead p d :
  lead p = true -> rate d = true -> Str.len (p +:+ d) <= 3 ->
  rate_value (p +:+ d) = Some (decimal d).
Proof.
  unfold rate. intros Hp [[Hd H1]%andb_prop H2]%andb_prop Hl.
  unfold rate_value, ranged.
  destruct (digits_inv _ _ _ Hd) as [Hall _].
  rewrite numeral_lead by (done || by apply (digits_nonempty 1 3)).
  rewrite H1, H2. by destruct (Str.len (p +:+ d) <=? 3) eqn:?; [|lia].
Qed.

Lemma port_value_lead p d :
  lead p = true -> port_token d = true -> Str.len (p +:+ d) <= 5 ->
  port_value (p +:+ d) = Some (decimal d).
Proof.
  unfold port_token. intros Hp [[Hd H1]%andb_prop H2]%andb_prop Hl.
  unfold port_value, ranged.
  destruct (digits_inv _ _ _ Hd) as [Hall _].
  rewrite numeral_lead by (done || by apply (digits_nonempty 1 5)).
  rewrite H1, H2. by destruct (Str.len (p +:+ d) <=? 5) eqn:?; [|lia].
Qed.

(** A segment with a lead holds none of the separators. *)
Lemma lead_digits_lacks a p d :
  lead p = true -> all_digits d = true ->
  blank a = false -> Ascii.eqb a "+" = false -> isdigit a = false ->
  lacks a (p +:+ d) = true.
Proof.
  intros Hp Hd Ha Hplus Hdig.
  by rewrite lacks_app, lead_lacks, all_digits_lacks.
Qed.

Lemma split_at_app c a b :
  lacks c a = true -> split_at c (a +:+ String c b) = Some (a, b).
Proof.
  intros H. by rewrite split_at_find, find_first_of_app, take_app, drop_app.
Qed.

Lemma split_at_lacks c s : lacks c s = true -> split_at c s = None.
Proof. intros H. by rewrite split_at_find, find_first_of_lacks. Qed.

(** Width and height behind leads. *)
Lemma gds_leads pw dw ph dh w h r :
  lead pw = true -> lead ph = true ->
  dimension dw = true -> dimension dh = true ->
  Str.len (pw +:+ dw) <= 4 -> Str.len (ph +:+ dh) <= 4 ->
  get_display_settings ((pw +:+ dw) +:+ String "x" (ph +:+ dh)) w h r
  = (true, (decimal dw, decimal dh, r)).
Proof.
  intros Hpw Hph Hw Hh Hlw Hlh.
  destruct (dimension_inv _ Hw) as [[Haw _]%digits_inv _].
  destruct (dimension_inv _ Hh) as [[Hah _]%digits_inv _].
  pose proof (gds_reading ((pw +:+ dw) +:+ String "x" (ph +:+ dh)) w h r) as H.
  unfold display_reading, dimensions_of in H.
  rewrite split_at_app in H by (by apply lead_digits_lacks).
  rewrite split_at_lacks in H by (by apply lead_digits_lacks).
  rewrite !dimension_value_lead in H by done.
  apply H. repeat constructor; apply lead_not_negative; try done.
  - apply (digits_nonempty 1 4); [by apply dimension_inv|lia].
  - apply (digits_nonempty 1 4); [by apply dimension_inv|lia].
Qed.

Lemma gds_leads_rate pw dw ph dh pr dr w h r :
  lead pw = true -> lead ph = true -> lead pr = true ->
  dimension dw = true -> dimension dh = true -> rate dr = true ->
  Str.len (pw +:+ dw) <= 4 -> Str.len (ph +:+ dh) <= 4 ->
  Str.len (pr +:+ dr) <= 3 ->
  get_display_settings
    ((pw +:+ dw) +:+ String "x" ((ph +:+ dh) +:+ String "@" (pr +:+ dr))) w h r
  = (true, (decimal dw, decimal dh, decimal dr)).
Proof.
  intros Hpw Hph Hpr Hw Hh Hr Hlw Hlh Hlr.
  destruct (dimension_inv _ Hw) as [[Haw _]%digits_inv _].
  destruct (dimension_inv _ Hh) as [[Hah _]%digits_inv _].
  pose proof (gds_reading
    ((pw +:+ dw) +:+ String "x" ((ph +:+ dh) +:+ String "@" (pr +:+ dr)))
    w h r) as H.
  unfold display_reading, dimensions_of in H.
  rewrite split_at_app in H by (by apply lead_digits_lacks).
  rewrite split_at_app in H by (by apply lead_digits_lacks).
  rewrite !dimension_value_lead, rate_value_lead in H by done.
  apply H. repeat constructor; apply lead_not_negative; try done.
  - apply (digits_nonempty 1 4); [by apply dimension_inv|lia].
  - apply (digits_nonempty 1 4); [by apply dimension_inv|lia].
Qed.

End Leads.

Section LedDisplay.

Lemma led_dimension_inv p d :
  led_dimension p d = true ->
  lead p = true /\ dimension d = true /\ Str.len (p +:+ d) <= 4.
Proof.
  unfold led_dimension. by intros [[? ?]%andb_prop ?%Z.leb_le]%andb_prop.
Qed.

Lemma led_rate_inv p d :
  led_rate p d = true ->
  lead p = true /\ rate d = true /\ Str.len (p +:+ d) <= 3.
Proof.
  unfold led_rate. by intros [[? ?]%andb_prop ?%Z.leb_le]%andb_prop.
Qed.

End LedDisplay.

Section LeadsConverse.

Lemma strip_blanks_split s :
  exists ws, s = ws +:+ strip_blanks s /\ strip_blanks ws = "".
Proof.
  induction s as [|c s (ws & Hs & Hw)]; [by exists ""|].
  cbn [strip_blanks]. destruct (blank c) eqn:Hc.
  - exists (String c ws). rewrite append_cons, <- Hs. split; [done|].
    cbn [strip_blanks]. by rewrite Hc.
  - by exists "".
Qed.

Lemma append_assoc a b c : (a +:+ b) +:+ c = a +:+ (b +:+ c).
Proof.
  induction a as [|x a IH]; [done|]. by rewrite !append_cons, IH.
Qed.

Lemma strip_blanks_behind ws x :
  strip_blanks ws = "" -> strip_blanks (ws +:+ x) = strip_blanks x.
Proof.
  induction ws as [|c ws IH]; [done|]. rewrite append_cons.
  cbn [strip_blanks]. destruct (blank c); [exact IH|done].
Qed.

(** A string has a numeral only when it is digits behind a lead. *)
Lemma numeral_inv s v :
  numeral s = Some v ->
  exists p d, s = p +:+ d /\ lead p = true /\ all_digits d = true
              /\ d <> "" /\ v = decimal d.
Proof.
  unfold numeral. destruct (strip_blanks_split s) as (ws & Hs & Hw).
  destruct (strip_blanks s) as [|c r] eqn:Ht; [done|].
  cbn [strip_plus]. destruct (Ascii.eqb c "+") eqn:Hc.
  - apply Ascii.eqb_eq in Hc as ->.
    destruct (all_digits r && negb (Str.is_empty r)) eqn:Hd; [|done].
    intros [= <-]. apply andb_prop in Hd as [Hd Hne].
    exists (ws +:+ "+"), r. conjs; try done.
    + by rewrite append_assoc.
    + unfold lead. by rewrite strip_blanks_behind.
    + by destruct r.
  - destruct (all_digits (String c r) && negb (Str.is_empty (String c r)))
      eqn:Hd; [|done].
    intros [= <-]. apply andb_prop in Hd as [Hd _].
    exists ws, (String c r). conjs; try done. unfold lead. by rewrite Hw.
Qed.

Lemma ranged_inv hi lo up s v :
  ranged hi lo up s = Some v ->
  exists p d, s = p +:+ d /\ lead p = true /\ digits 1 hi d = true
              /\ lo <= decimal d <= up /\ Str.len (p +:+ d) <= hi
              /\ v = decimal d.
Proof.
  unfold ranged. destruct (Str.len s <=? hi) eqn:Hl; [|done].
  destruct (numeral s) as [n|] eqn:Hn; [|done].
  destruct (lo <=? n) eqn:H1, (n <=? up) eqn:H2; try done. intros [= <-].
  apply numeral_inv in Hn as (p & d & -> & Hp & Hd & Hne & ->).
  exists p, d. conjs; try done; try lia.
  unfold digits. rewrite Hd. rewrite len_app in Hl.
  pose proof (len_nonneg p).
  assert (1 <= Str.len d) by (destruct d; [done|rewrite len_cons;
    pose proof (len_nonneg d); lia]).
  cbn [andb]. lia.
Qed.

Lemma dimension_value_iff s v :
  dimension_value s = Some v <->
  exists p d, s = p +:+ d /\ led_dimension p d = true /\ v = decimal d.
Proof.
  split.
  - intros (p & d & -> & Hp & Hd & Hv & Hl & ->)%ranged_inv.
    exists p, d. conjs; try done. unfold led_dimension, dimension.
    rewrite Hp, Hd. cbn [andb].
    destruct (decimal d =? 0) eqn:?, (Str.len (p +:+ d) <=? 4) eqn:?;
      try done; lia.
  - intros (p & d & -> & (? & ? & ?)%led_dimension_inv & ->).
    by apply dimension_value_lead.
Qed.

Lemma rate_value_iff s v :
  rate_value s = Some v <->
  exists p d, s = p +:+ d /\ led_rate p d = true /\ v = decimal d.
Proof.
  split.
  - intros (p & d & -> & Hp & Hd & Hv & Hl & ->)%ranged_inv.
    exists p, d. conjs; try done. unfold led_rate, rate.
    rewrite Hp, Hd. cbn [andb].
    destruct (1 <=? decimal d) eqn:?, (decimal d <=? 255) eqn:?,
      (Str.len (p +:+ d) <=? 3) eqn:?; try done; lia.
  - intros (p & d & -> & (? & ? & ?)%led_rate_inv & ->).
    by apply rate_value_lead.
Qed.

Lemma port_value_iff s v :
  port_value s = Some v <->
  exists p d, s = p +:+ d /\ led_port p d = true /\ v = decimal d.
Proof.
  split.
  - intros (p & d & -> & Hp & Hd & Hv & Hl & ->)%ranged_inv.
    exists p, d. conjs; try done. unfold led_port, port_token.
    rewrite Hp, Hd. cbn [andb].
    destruct (LOWEST_ALLOWED_PORT <=? decimal d) eqn:?,
      (decimal d <=? HIGHEST_PORT) eqn:?,
      (Str.len (p +:+ d) <=? 5) eqn:?; try done; lia.
  - unfold led_port.
    intros (p & d & -> & [[? ?]%andb_prop ?%Z.leb_le]%andb_prop & ->).
    by apply port_value_lead.
Qed.

End LeadsConverse.

Section OnlyLeads.

Lemma split_at_inv c s a b :
  split_at c s = Some (a, b) -> s = a +:+ String c b.
Proof.
  revert a. induction s as [|x s IH]; intros a; [done|]. cbn [split_at].
  destruct (Ascii.eqb_spec x c) as [->|_].
  - by intros [= <- <-].
  - destruct (split_at c s) as [[u v]|]; [|done]. intros [= <- <-].
    rewrite append_cons. f_equal. by apply IH.
Qed.

(** What is accepted, outside the segments that read as negative, is
    digits behind leads. *)
Lemma gds_only_leads value w h r :
  (get_display_settings value w h r).1 = true ->
  Forall (fun s => negative_dimension s = false) (dimensions_of value) ->
  exists pw dw ph dh,
    led_dimension pw dw = true /\ led_dimension ph dh = true
    /\ (value = (pw +:+ dw) +:+ "x" +:+ (ph +:+ dh)
        \/ exists pr dr,
             led_rate pr dr = true
             /\ value = (pw +:+ dw) +:+ "x" +:+ (ph +:+ dh) +:+ "@"
                        +:+ (pr +:+ dr)).
Proof.
  intros Hacc Hneg. pose proof (gds_reading value w h r Hneg) as H.
  unfold display_reading in H.
  destruct (split_at "x" value) as [[sw rest]|] eqn:Ex; [|congruence].
  apply split_at_inv in Ex as ->.
  destruct (split_at "@" rest) as [[sh sr]|] eqn:Eat.
  - apply split_at_inv in Eat as ->.
    destruct (dimension_value sw) as [vw|] eqn:Ew; [|congruence].
    destruct (dimension_value sh) as [vh|] eqn:Eh; [|congruence].
    destruct (rate_value sr) as [vr|] eqn:Er; [|congruence].
    apply dimension_value_iff in Ew as (pw & dw & -> & Hw & _).
    apply dimension_value_iff in Eh as (ph & dh & -> & Hh & _).
    apply rate_value_iff in Er as (pr & dr & -> & Hr & _).
    exists pw, dw, ph, dh. conjs; [done|done|]. right. by exists pr, dr.
  - destruct (dimension_value sw) as [vw|] eqn:Ew; [|congruence].
    destruct (dimension_value rest) as [vh|] eqn:Eh; [|congruence].
    apply dimension_value_iff in Ew as (pw & dw & -> & Hw & _).
    apply dimension_value_iff in Eh as (ph & dh & -> & Hh & _).
    exists pw, dw, ph, dh. conjs; [done|done|]. by left.
Qed.

End OnlyLeads.

Section MinusBehindBlank.

Lemma minus_behind_blank_inv s :
  minus_behind_blank s = true ->
  Str.first_is "-" s = false /\ Str.first_is "-" (strip_blanks s) = true
  /\ s <> "".
Proof.
  unfold minus_behind_blank. destruct s as [|c r]; [done|].
  destruct (strip_blanks (String c r)) as [|m d]; [done|].
  intros [[[Hc Hm]%andb_prop _]%andb_prop _]%andb_prop.
  cbn [Str.first_is]. unfold Str.eq_char. rewrite Hm. conjs; [|done|done].
  destruct (Ascii.eqb_spec c "-") as [->|]; [done|done].
Qed.

(** A segment that has a value is not a negative one. *)
Lemma ranged_not_negative hi lo up s v :
  ranged hi lo up s = Some v -> negative_dimension s = false.
Proof.
  intros H. destruct (negative_dimension s) eqn:E; [exfalso|done].
  unfold negative_dimension in E.
  apply andb_prop in E as [[E _]%andb_prop _].
  apply minus_behind_blank_inv in E as (_ & E & _).
  unfold ranged in H. rewrite (numeral_minus s E) in H.
  by destruct (_ <=? hi).
Qed.

(** Where a width or height is white space, a minus sign and digits that do
    not denote zero, the test for a minus sign, which looks at the first
    character only, lets it pass: [strtoul] negates and the number is
    stored as an [unsigned short].  The comment of [get_display_settings]
    asks for positive decimal integers. *)
Lemma read_dimension_negative s :
  negative_dimension s = true ->
  read_dimension s = Some (65536 - decimal (behind_sign s)).
Proof.
  unfold negative_dimension.
  intros [[Hshape Hl%Z.leb_le]%andb_prop Hnz%negb_true_iff]%andb_prop.
  apply Z.eqb_neq in Hnz.
  destruct (minus_behind_blank_inv s Hshape) as (Hm & Hstrip & Hne).
  pose proof (strtoul_cases s ltac:(lia)) as H.
  rewrite (numeral_minus s Hstrip), minus_behind, Hshape in H by done.
  destruct H as [H Hv]. unfold read_dimension. rewrite H, Hm, len_zero.
  assert (Str.is_empty s = false) as -> by (by destruct s).
  assert ((4 <? Str.len s) = false) as -> by lia.
  cbn [orb unread Str.is_empty negb].
  assert (1 <= Str.len s) by (destruct s; [done|rewrite len_cons;
    pose proof (len_nonneg s); lia]).
  pose proof (pow10_le (Str.len s - 1) 3 ltac:(lia)).
  rewrite u16_negated by lia.
  by assert ((65536 - decimal (behind_sign s) =? 0) = false) as -> by lia.
Qed.

End MinusBehindBlank.

Example get_display_settings_minus_behind_blank :
  get_display_settings " -5x10" 0 0 0 = (true, (65531, 10, 0)).
Proof. reflexivity. Qed.

(** C2, as stated, fails: the segments [+12] and [ 12] are not one to four
    decimal digits without a sign (one carries a sign, the other a space),
    yet the strings are accepted with width 12. *)
Lemma display_sign_accepted :
  dimension "+12" = false /\ all_digits "+12" = false
  /\ get_display_settings "+12x34" 0 0 0 = (true, (12, 34, 0))
  /\ dimension " 12" = false /\ all_digits " 12" = false
  /\ get_display_settings " 12x34" 0 0 0 = (true, (12, 34, 0)).
Proof. conjs; reflexivity. Qed.

(** C2, amended.  A string [w x h] or [w x h @ r] whose segments are
    dimensions (one to four digits, not zero) and a rate (one to three
    digits, 1..255) is accepted and exactly those numbers are stored; so is
    one in which the digits of a segment stand behind a lead (white space,
    then at most one plus sign; the lead may be empty), lead and digits
    together being no longer than four (for the rate: three) characters.
    In general a string is accepted exactly when [display_reading] gives its
    three numbers, and these are stored; every other string is turned down,
    except that nothing is said of a string whose width or height is white
    space, a minus sign and digits that do not denote zero.  Outside these,
    what is accepted is digits behind leads, with [x] and [@] between.  In
    particular a string is turned down when it has no [x], or when a segment
    is empty, too long, starts with a minus sign, holds a character that is
    not a digit, a sign or white space, or is all digits and denotes zero
    (for the rate: more than 255).  The six strings of the claim are turned
    down, and so are [1+2x34], [12 x34] and [+0x34]. *)
Theorem display_settings_validated :
  (forall sw sh w h r,
     dimension sw = true -> dimension sh = true ->
     get_display_settings (sw +:+ "x" +:+ sh) w h r
     = (true, (decimal sw, decimal sh, r)))
  /\ (forall sw sh sr w h r,
     dimension sw = true -> dimension sh = true -> rate sr = true ->
     get_display_settings (sw +:+ "x" +:+ sh +:+ "@" +:+ sr) w h r
     = (true, (decimal sw, decimal sh, decimal sr)))
  /\ (forall pw dw ph dh w h r,
     led_dimension pw dw = true -> led_dimension ph dh = true ->
     get_display_settings ((pw +:+ dw) +:+ "x" +:+ (ph +:+ dh)) w h r
     = (true, (decimal dw, decimal dh, r)))
  /\ (forall pw dw ph dh pr dr w h r,
     led_dimension pw dw = true -> led_dimension ph dh = true ->
     led_rate pr dr = true ->
     get_display_settings
       ((pw +:+ dw) +:+ "x" +:+ (ph +:+ dh) +:+ "@" +:+ (pr +:+ dr)) w h r
     = (true, (decimal dw, decimal dh, decimal dr)))
  /\ (forall value w h r w' h' r',
     display_reading value = Some (w', h', r') ->
     get_display_settings value w h r = (true, (w', h', default r r')))
  /\ (forall value w h r,
     display_reading value = None ->
     Forall (fun s => negative_dimension s = false) (dimensions_of value) ->
     (get_display_settings value w h r).1 = false)
  /\ (forall value w h r,
     (get_display_settings value w h r).1 = true ->
     Forall (fun s => negative_dimension s = false) (dimensions_of value) ->
     exists pw dw ph dh,
       led_dimension pw dw = true /\ led_dimension ph dh = true
       /\ (value = (pw +:+ dw) +:+ "x" +:+ (ph +:+ dh)
           \/ exists pr dr,
                led_rate pr dr = true
                /\ value = (pw +:+ dw) +:+ "x" +:+ (ph +:+ dh) +:+ "@"
                           +:+ (pr +:+ dr)))
  /\ (forall value w h r,
     lacks "x" value = true -> (get_display_settings value w h r).1 = false)
  /\ (forall sw rest w h r,
     lacks "x" sw = true -> rejected 4 sw = true ->
     (get_display_settings (sw +:+ "x" +:+ rest) w h r).1 = false)
  /\ (forall sw sh w h r,
     lacks "x" sw = true -> lacks "@" sh = true -> rejected 4 sh = true ->
     (get_display_settings (sw +:+ "x" +:+ sh) w h r).1 = false)
  /\ (forall sw sh sr w h r,
     lacks "x" sw = true -> lacks "@" sh = true ->
     rejected 4 sh || rejected_rate sr = true ->
     (get_display_settings (sw +:+ "x" +:+ sh +:+ "@" +:+ sr) w h r).1 = false)
  /\ (forall w h r,
     (get_display_settings "0x1080" w h r).1 = false
     /\ (get_display_settings "1920x0" w h r).1 = false
     /\ (get_display_settings "1920x1080@0" w h r).1 = false
     /\ (get_display_settings "1920x1080@256" w h r).1 = false
     /\ (get_display_settings "abcx1080" w h r).1 = false
     /\ (get_display_settings "19201080" w h r).1 = false
     /\ (get_display_settings "1+2x34" w h r).1 = false
     /\ (get_display_settings "12 x34" w h r).1 = false
     /\ (get_display_settings "+0x34" w h r).1 = false).
Proof.
  assert (forall sw sh w h r,
     lacks "x" sw = true -> lacks "@" sh = true -> rejected 4 sh = true ->
     (get_display_settings (sw +:+ String "x" sh) w h r).1 = false) as Hheight.
  { intros sw sh w h r Hx Hat Hbad.
    destruct (get_display_settings _ w h r).1 eqn:E; [exfalso|done].
    apply gds_after_width in E as [w' E]; [|done].
    rewrite (find_first_of_lacks "@" sh Hat) in E.
    by rewrite height_step_bad in E. }
  assert (forall sw sh sr w h r,
     lacks "x" sw = true -> lacks "@" sh = true ->
     rejected 4 sh || rejected_rate sr = true ->
     (get_display_settings (sw +:+ String "x" (sh +:+ String "@" sr)) w h r).1
     = false) as Hrate.
  { intros sw sh sr w h r Hx Hat Hbad.
    destruct (get_display_settings _ w h r).1 eqn:E; [exfalso|done].
    apply gds_after_width in E as [w' E]; [|done].
    rewrite find_first_of_app, take_app, drop_app in E by done.
    cbv zeta in E.
    destruct ((Str.len sr =? 0) || (3 <? Str.len sr) || Str.first_is "-" sr)
      eqn:G; [done|].
    destruct (C.strtoul sr) as [l e] eqn:S.
    destruct (unread e || (C.u16 l =? 0) || (255 <? C.u16 l)) eqn:G2; [done|].
    apply orb_prop in Hbad as [Hbad|Hbad].
    - by rewrite height_step_bad in E.
    - apply rejected_rate_cases in Hbad as [Hbad|Hbad]; [congruence|].
      rewrite S in Hbad. congruence. }
  assert (forall value w h r,
     display_reading value = None ->
     Forall (fun s => negative_dimension s = false) (dimensions_of value) ->
     (get_display_settings value w h r).1 = false) as Hnone.
  { intros value w h r Hr Hneg.
    pose proof (gds_reading value w h r Hneg) as H. by rewrite Hr in H. }
  conjs.
  - intros sw sh w h r Hw Hh. change ("x" +:+ sh) with (String "x" sh).
    rewrite gds_good_width by done.
    apply dimension_inv in Hh as Hh'. destruct Hh' as [[Hall _]%digits_inv _].
    rewrite find_first_of_lacks by (by apply all_digits_lacks).
    by apply height_step_ok.
  - intros sw sh sr w h r Hw Hh Hr.
    change ("x" +:+ sh +:+ "@" +:+ sr) with (String "x" (sh +:+ String "@" sr)).
    rewrite gds_good_width by done.
    apply dimension_inv in Hh as Hh'. destruct Hh' as [[Hall _]%digits_inv _].
    rewrite find_first_of_app, take_app, drop_app
      by (by apply all_digits_lacks).
    cbv zeta. unfold rate in Hr.
    apply andb_prop in Hr as [[Hd H1%Z.leb_le]%andb_prop H2%Z.leb_le].
    rewrite (digits_guard 1 3 sr "-" Hd) by (done || lia).
    rewrite (digits_strtoul 1 3 sr Hd) by lia.
    rewrite u16_small by lia. simpl.
    assert ((decimal sr =? 0) = false) as -> by zcases.
    assert ((255 <? decimal sr) = false) as -> by zcases.
    by apply height_step_ok.
  - intros pw dw ph dh w h r (? & ? & ?)%led_dimension_inv
      (? & ? & ?)%led_dimension_inv.
    change ("x" +:+ (ph +:+ dh)) with (String "x" (ph +:+ dh)).
    by apply gds_leads.
  - intros pw dw ph dh pr dr w h r (? & ? & ?)%led_dimension_inv
      (? & ? & ?)%led_dimension_inv (? & ? & ?)%led_rate_inv.
    change ("x" +:+ (ph +:+ dh) +:+ "@" +:+ (pr +:+ dr))
      with (String "x" ((ph +:+ dh) +:+ String "@" (pr +:+ dr))).
    by apply gds_leads_rate.
  - intros value w h r w' h' r' Hr.
    pose proof (gds_reading value w h r) as H. rewrite Hr in H. apply H.
    unfold display_reading, dimensions_of in *.
    destruct (split_at "x" value) as [[sw rest]|]; [|done].
    destruct (split_at "@" rest) as [[sh sr]|].
    + destruct (dimension_value sw) as [vw|] eqn:Ew; [|done].
      destruct (dimension_value sh) as [vh|] eqn:Eh; [|done].
      repeat constructor; by eapply ranged_not_negative.
    + destruct (dimension_value sw) as [vw|] eqn:Ew; [|done].
      destruct (dimension_value rest) as [vh|] eqn:Eh; [|done].
      repeat constructor; by eapply ranged_not_negative.
  - exact Hnone.
  - apply gds_only_leads.
  - apply gds_no_x.
  - intros sw rest w h r. change ("x" +:+ rest) with (String "x" rest).
    apply gds_bad_width.
  - intros sw sh w h r. change ("x" +:+ sh) with (String "x" sh). apply Hheight.
  - intros sw sh sr w h r.
    change ("x" +:+ sh +:+ "@" +:+ sr) with (String "x" (sh +:+ String "@" sr)).
    apply Hrate.
  - intros w h r. conjs.
    + exact (gds_bad_width "0" "1080" w h r eq_refl eq_refl).
    + exact (Hheight "1920" "0" w h r eq_refl eq_refl eq_refl).
    + exact (Hrate "1920" "1080" "0" w h r eq_refl eq_refl eq_refl).
    + exact (Hrate "1920" "1080" "256" w h r eq_refl eq_refl eq_refl).
    + exact (gds_bad_width "abc" "1080" w h r eq_refl eq_refl).
    + exact (gds_no_x "19201080" w h r eq_refl).
    + apply Hnone; [reflexivity|]. by repeat constructor.
    + apply Hnone; [reflexivity|]. by repeat constructor.
    + apply Hnone; [reflexivity|]. by repeat constructor.
Qed.

Lemma display_settings_validated_witness :
  get_display_settings "1280x720@30" 0 0 0 = (true, (1280, 720, 30))
  /\ get_display_settings "640x480" 7 8 60 = (true, (640, 480, 60))
  /\ get_display_settings " +64x  48" 7 8 60 = (true, (64, 48, 60))
  /\ get_display_settings "+640x 480@ +6" 0 0 0 = (true, (640, 480, 6))
  /\ get_display_settings (" 800x+600@" +:+ String "009" "60") 0 0 0
     = (true, (800, 600, 60))
  /\ (get_display_settings "64 x48" 0 0 0).1 = false
  /\ (exists pw dw ph dh,
       led_dimension pw dw = true /\ led_dimension ph dh = true
       /\ (" 64x+48" = (pw +:+ dw) +:+ "x" +:+ (ph +:+ dh)
           \/ exists pr dr,
                led_rate pr dr = true
                /\ " 64x+48" = (pw +:+ dw) +:+ "x" +:+ (ph +:+ dh) +:+ "@"
                               +:+ (pr +:+ dr)))
  /\ (get_display_settings "1280" 0 0 0).1 = false
  /\ (get_display_settings "12345x480" 0 0 0).1 = false
  /\ (get_display_settings "640x-480" 0 0 0).1 = false
  /\ (get_display_settings "640x480@2x" 0 0 0).1 = false.
Proof.
  destruct display_settings_validated
    as (H1 & H2 & H3 & H4 & H5 & H6 & H7 & H7' & H8 & H9 & H10 & _).
  conjs.
  - exact (H2 "1280" "720" "30" 0 0 0 eq_refl eq_refl eq_refl).
  - exact (H1 "640" "480" 7 8 60 eq_refl eq_refl).
  - exact (H3 " +" "64" "  " "48" 7 8 60 eq_refl eq_refl).
  - exact (H4 "+" "640" " " "480" " +" "6" 0 0 0 eq_refl eq_refl eq_refl).
  - exact (H5 (" 800x+600@" +:+ String "009" "60") 0 0 0 800 600 (Some 60)
              eq_refl).
  - refine (H6 "64 x48" 0 0 0 eq_refl _). by repeat constructor.
  - refine (H7 " 64x+48" 0 0 0 eq_refl _). by repeat constructor.
  - exact (H7' "1280" 0 0 0 eq_refl).
  - exact (H8 "12345" "480" 0 0 0 eq_refl eq_refl).
  - exact (H9 "640" "-480" 0 0 0 eq_refl eq_refl eq_refl).
  - exact (H10 "640" "480" "2x" 0 0 0 eq_refl eq_refl eq_refl).
Defined.

(** ** Ports: [get_ports] and the bare [-p] *)

Section Ports.

Lemma get_ports_loop_step nports left val port :
  get_ports_loop nports (S left) val port =
  let i := (nports - S left)%nat in
  let pos := Str.find_first_of "," val in
  match read_port (match pos with Some p => Str.take p val | None => val end) with
  | None => (false, port)
  | Some l =>
      let port := <[i := C.u16 l]> port in
      match pos with
      | None =>
          if Z.of_nat i + 1 + HIGHEST_PORT <? Z.of_nat nports + cell port i
          then (false, port)
          else (true, fill_ports port (S i) (nports - S i))
      | Some p => get_ports_loop nports left (Str.drop (S p) val) port
      end
  end.
Proof.
  cbn [get_ports_loop]. cbv zeta. unfold read_port.
  destruct (_ || _); [done|].
  destruct (C.strtoul _) as [l e]. by destruct (_ || _).
Qed.

Lemma read_port_rejected s : rejected_port s = true -> read_port s = None.
Proof.
  unfold rejected_port, read_port. intros H.
  destruct (Str.len s =? 0) eqn:H0; [done|].
  destruct (5 <? Str.len s) eqn:H1; [done|].
  destruct (Str.first_is "-" s) eqn:H2; [done|].
  assert (Str.is_empty s = false) as He
    by (destruct s; [by rewrite Z.eqb_refl in H0|done]).
  rewrite He in H. simpl in *.
  destruct (has_foreign s) eqn:Hf.
  - pose proof (strtoul_foreign s Hf) as Hu.
    destruct (C.strtoul s) as [l e]. simpl in Hu. by rewrite Hu.
  - simpl in H. apply andb_prop in H as [Hd Hr].
    rewrite strtoul_all_digits; [|done| |apply Z.ltb_ge in H1; lia].
    + simpl. by rewrite Hr.
    + by intros ->.
Qed.

Lemma port_token_inv s :
  port_token s = true ->
  digits 1 5 s = true /\ LOWEST_ALLOWED_PORT <= decimal s <= HIGHEST_PORT.
Proof.
  unfold port_token.
  intros [[? ?%Z.leb_le]%andb_prop ?%Z.leb_le]%andb_prop. auto.
Qed.

Lemma read_port_token s : port_token s = true -> read_port s = Some (decimal s).
Proof.
  intros [Hd [H1 H2]]%port_token_inv. unfold read_port.
  rewrite (digits_guard 1 5 s "-" Hd) by (done || lia).
  rewrite (digits_strtoul 1 5 s Hd) by lia. simpl.
  assert ((decimal s <? LOWEST_ALLOWED_PORT) = false) as -> by zcases.
  by assert ((HIGHEST_PORT <? decimal s) = false) as -> by zcases.
Qed.

Lemma port_token_lacks s : port_token s = true -> lacks "," s = true.
Proof.
  intros [[Hall _]%digits_inv _]%port_token_inv. by apply all_digits_lacks.
Qed.

Lemma join_cons sep t u ts :
  join sep (t :: u :: ts) = t +:+ sep +:+ join sep (u :: ts).
Proof. done. Qed.

(** A rejected token anywhere in the list makes the loop fail, wherever the
    loop stands. *)
Lemma get_ports_loop_rejected nports ts : forall left port,
  Forall (fun t => lacks "," t = true) ts ->
  Exists (fun t => rejected_port t = true) ts ->
  (get_ports_loop nports left (join "," ts) port).1 = false.
Proof.
  induction ts as [|t ts IH]; intros left port Hc Hbad.
  - by apply Exists_nil in Hbad.
  - destruct left as [|left]; [done|].
    apply Forall_cons in Hc as [Ht Hc].
    rewrite get_ports_loop_step. cbv zeta.
    destruct ts as [|u ts].
    + apply Exists_cons in Hbad as [Hbad|Hbad]; [|by apply Exists_nil in Hbad].
      cbn [join]. rewrite (find_first_of_lacks "," t Ht).
      by rewrite read_port_rejected.
    + rewrite join_cons. change ("," +:+ ?x) with (String "," x).
      rewrite find_first_of_app, take_app, drop_app by done.
      destruct (read_port t) as [l|] eqn:Hr; [|done].
      apply Exists_cons in Hbad as [Hbad|Hbad].
      * by rewrite read_port_rejected in Hr.
      * by apply IH.
Qed.

Lemma u16_port s : port_token s = true -> C.u16 (decimal s) = decimal s.
Proof.
  intros [_ [H1 H2]]%port_token_inv. apply u16_small.
  unfold LOWEST_ALLOWED_PORT, HIGHEST_PORT in *. lia.
Qed.

(** One, two and three explicit values. *)
Lemma get_ports_one t a b c :
  port_token t = true ->
  get_ports 3 t [a; b; c] =
  if decimal t + 2 <=? HIGHEST_PORT
  then (true, [decimal t; decimal t + 1; decimal t + 2])
  else (false, [decimal t; b; c]).
Proof.
  intros Ht. unfold get_ports. rewrite get_ports_loop_step. cbv zeta.
  rewrite (find_first_of_lacks "," t) by (by apply port_token_lacks).
  rewrite read_port_token, u16_port by done.
  destruct (port_token_inv t Ht) as [_ [H1 H2]].
  unfold LOWEST_ALLOWED_PORT, HIGHEST_PORT in *.
  cbn [Nat.sub insert list_insert cell lookup list_lookup default Z.of_nat].
  simpl Z.of_nat. simpl default.
  destruct (decimal t + 2 <=? 65535) eqn:Hfit; zcases.
  cbn. rewrite !u16_small by lia. do 4 f_equal; lia.
Qed.

Lemma get_ports_two t1 t2 a b c :
  port_token t1 = true -> port_token t2 = true ->
  get_ports 3 (t1 +:+ "," +:+ t2) [a; b; c] =
  if decimal t2 + 1 <=? HIGHEST_PORT
  then (true, [decimal t1; decimal t2; decimal t2 + 1])
  else (false, [decimal t1; decimal t2; c]).
Proof.
  intros Ht1 Ht2. unfold get_ports. rewrite get_ports_loop_step. cbv zeta.
  change ("," +:+ t2) with (String "," t2).
  rewrite find_first_of_app, take_app, drop_app by (by apply port_token_lacks).
  rewrite read_port_token, u16_port by done.
  rewrite get_ports_loop_step. cbv zeta.
  rewrite (find_first_of_lacks "," t2) by (by apply port_token_lacks).
  rewrite read_port_token, u16_port by done.
  destruct (port_token_inv t2 Ht2) as [_ [H1 H2]].
  unfold LOWEST_ALLOWED_PORT, HIGHEST_PORT in *.
  simpl Z.of_nat. simpl default. cbn.
  destruct (decimal t2 + 1 <=? 65535) eqn:Hfit; zcases.
  rewrite !u16_small by lia. done.
Qed.

Lemma get_ports_three t1 t2 t3 a b c :
  port_token t1 = true -> port_token t2 = true -> port_token t3 = true ->
  get_ports 3 (t1 +:+ "," +:+ t2 +:+ "," +:+ t3) [a; b; c] =
  (true, [decimal t1; decimal t2; decimal t3]).
Proof.
  intros Ht1 Ht2 Ht3. unfold get_ports. rewrite get_ports_loop_step. cbv zeta.
  change ("," +:+ t3) with (String "," t3).
  change ("," +:+ ?x) with (String "," x).
  rewrite find_first_of_app, take_app, drop_app by (by apply port_token_lacks).
  rewrite read_port_token, u16_port by done.
  rewrite get_ports_loop_step. cbv zeta.
  rewrite find_first_of_app, take_app, drop_app by (by apply port_token_lacks).
  rewrite read_port_token, u16_port by done.
  rewrite get_ports_loop_step. cbv zeta.
  rewrite (find_first_of_lacks "," t3) by (by apply port_token_lacks).
  rewrite read_port_token, u16_port by done.
  destruct (port_token_inv t3 Ht3) as [_ [H1 H2]].
  unfold LOWEST_ALLOWED_PORT, HIGHEST_PORT in *.
  simpl Z.of_nat. simpl default. cbn. zcases.
Qed.

End Ports.

Lemma bare_p_legacy rest c :
  bare rest = true ->
  parse_args ("-p" :: rest) c = parse_args rest (legacy_ports c).
Proof.
  intros Hb. destruct rest as [|[|ch value] rest]; [reflexivity|discriminate|].
  cbn [bare Str.first_is] in Hb. apply Ascii.eqb_eq in Hb. subst ch.
  reflexivity.
Qed.

Lemma legacy_ports_values c :
  length (tcp c) = 3%nat -> length (udp c) = 3%nat ->
  tcp (legacy_ports c) = [7100; 7000; 7001]
  /\ udp (legacy_ports c) = [7011; 6001; 6000].
Proof.
  destruct c as [? ? ? ? ? t u ? ? ? ?]. simpl. intros Ht Hu.
  destruct t as [|? [|? [|? [|]]]]; try done.
  destruct u as [|? [|? [|? [|]]]]; done.
Qed.

(** *** The function and the reading of the string *)

Section PortsReading.

Lemma split_all_find c s :
  split_all c s =
  match Str.find_first_of c s with
  | Some pos => Str.take pos s :: split_all c (Str.drop (S pos) s)
  | None => [s]
  end.
Proof.
  induction s as [|a s IH]; [done|]. cbn [split_all Str.find_first_of].
  unfold Str.eq_char. destruct (Ascii.eqb a c); [done|]. rewrite IH.
  by destruct (Str.find_first_of c s).
Qed.

Lemma split_all_length c s : (1 <= length (split_all c s))%nat.
Proof.
  rewrite split_all_find. destruct (Str.find_first_of c s); simpl; lia.
Qed.

Lemma port_value_range s v :
  port_value s = Some v -> LOWEST_ALLOWED_PORT <= v <= HIGHEST_PORT.
Proof.
  unfold port_value, ranged. destruct (_ <=? 5); [|done].
  destruct (numeral s) as [n|]; [|done].
  destruct (LOWEST_ALLOWED_PORT <=? n) eqn:H1, (n <=? HIGHEST_PORT) eqn:H2;
    try done.
  intros [= <-]. lia.
Qed.

(** [get_ports] for three ports computes the reading. *)
Lemma get_ports_reading value a b c :
  match ports_reading 3 value with
  | Some ps => get_ports 3 value [a; b; c] = (true, ps)
  | None => (get_ports 3 value [a; b; c]).1 = false
  end.
Proof.
  unfold ports_reading, get_ports. rewrite split_all_find.
  rewrite get_ports_loop_step. cbv zeta.
  destruct (Str.find_first_of "," value) as [p1|].
  - rewrite read_port_value. cbn [port_values].
    destruct (port_value (Str.take p1 value)) as [v1|] eqn:E1;
      [|by destruct (_ <? _)%nat].
    apply port_value_range in E1. unfold LOWEST_ALLOWED_PORT, HIGHEST_PORT in *.
    rewrite u16_small by lia.
    set (val2 := Str.drop (S p1) value).
    rewrite split_all_find. rewrite get_ports_loop_step. cbv zeta.
    destruct (Str.find_first_of "," val2) as [p2|].
    + rewrite read_port_value. cbn [port_values].
      destruct (port_value (Str.take p2 val2)) as [v2|] eqn:E2;
        [|by destruct (_ <? _)%nat].
      apply port_value_range in E2.
      unfold LOWEST_ALLOWED_PORT, HIGHEST_PORT in *.
      rewrite u16_small by lia.
      set (val3 := Str.drop (S p2) val2).
      rewrite split_all_find. rewrite get_ports_loop_step. cbv zeta.
      destruct (Str.find_first_of "," val3) as [p3|].
      * pose proof (split_all_length "," (Str.drop (S p3) val3)) as Hl.
        cbn [length].
        assert ((3 <? S (S (S (length (split_all "," (Str.drop (S p3) val3))))))%nat
                = true) as -> by (apply Nat.ltb_lt; lia).
        by destruct (read_port _).
      * rewrite read_port_value. cbn [port_values length Nat.ltb Nat.leb].
        destruct (port_value val3) as [v3|] eqn:E3; [|done].
        apply port_value_range in E3.
        unfold LOWEST_ALLOWED_PORT, HIGHEST_PORT in *.
        rewrite u16_small by lia. cbn. simpl Z.of_nat.
        repeat lazymatch goal with
               | |- context [?x <? ?y] => destruct (Z.ltb_spec x y)
               end; try lia. done.
    + rewrite read_port_value. cbn [port_values length Nat.ltb Nat.leb].
      destruct (port_value val2) as [v2|] eqn:E2; [|done].
      apply port_value_range in E2.
      unfold LOWEST_ALLOWED_PORT, HIGHEST_PORT in *.
      rewrite u16_small by lia. cbn. simpl Z.of_nat.
      repeat lazymatch goal with
             | |- context [?x <? ?y] => destruct (Z.ltb_spec x y)
             end; try lia; [done|].
      rewrite u16_small by lia. done.
  - rewrite read_port_value. cbn [port_values length Nat.ltb Nat.leb].
    destruct (port_value value) as [v1|] eqn:E1; [|done].
    apply port_value_range in E1. unfold LOWEST_ALLOWED_PORT, HIGHEST_PORT in *.
    rewrite u16_small by lia. cbn. simpl Z.of_nat.
    repeat lazymatch goal with
           | |- context [?x <? ?y] => destruct (Z.ltb_spec x y)
           end; try lia; [done|].
    rewrite !u16_small by lia. do 4 f_equal; lia.
Qed.

Lemma split_all_app c a b :
  lacks c a = true -> split_all c (a +:+ String c b) = a :: split_all c b.
Proof.
  intros H. by rewrite split_all_find, find_first_of_app, take_app, drop_app.
Qed.

Lemma split_all_lacks c s : lacks c s = true -> split_all c s = [s].
Proof. intros H. by rewrite split_all_find, find_first_of_lacks. Qed.

Lemma port_lead_lacks p d :
  lead p = true -> port_token d = true -> lacks "," (p +:+ d) = true.
Proof.
  intros Hp [[Hall _]%digits_inv _]%port_token_inv.
  by apply lead_digits_lacks.
Qed.

End PortsReading.

Section LedPorts.

Lemma led_port_inv p d :
  led_port p d = true ->
  lacks "," (p +:+ d) = true /\ read_port (p +:+ d) = Some (decimal d)
  /\ LOWEST_ALLOWED_PORT <= decimal d <= HIGHEST_PORT.
Proof.
  unfold led_port. intros [[Hp Hd]%andb_prop Hl%Z.leb_le]%andb_prop.
  split; [by apply port_lead_lacks|].
  rewrite read_port_value, port_value_lead by done.
  split; [done|]. by apply port_token_inv.
Qed.

Lemma get_ports_led_one p d a b c :
  led_port p d = true ->
  get_ports 3 (p +:+ d) [a; b; c] =
  if decimal d + 2 <=? HIGHEST_PORT
  then (true, [decimal d; decimal d + 1; decimal d + 2])
  else (false, [decimal d; b; c]).
Proof.
  intros (Hc & Hr & H1 & H2)%led_port_inv.
  unfold get_ports. rewrite get_ports_loop_step. cbv zeta.
  rewrite (find_first_of_lacks "," _ Hc), Hr.
  unfold LOWEST_ALLOWED_PORT, HIGHEST_PORT in *. rewrite u16_small by lia.
  cbn [Nat.sub insert list_insert cell lookup list_lookup default Z.of_nat].
  simpl Z.of_nat. simpl default.
  destruct (decimal d + 2 <=? 65535) eqn:Hfit; zcases.
  cbn. rewrite !u16_small by lia. do 4 f_equal; lia.
Qed.

Lemma get_ports_led_two p1 d1 p2 d2 a b c :
  led_port p1 d1 = true -> led_port p2 d2 = true ->
  get_ports 3 ((p1 +:+ d1) +:+ String "," (p2 +:+ d2)) [a; b; c] =
  if decimal d2 + 1 <=? HIGHEST_PORT
  then (true, [decimal d1; decimal d2; decimal d2 + 1])
  else (false, [decimal d1; decimal d2; c]).
Proof.
  intros (Hc1 & Hr1 & H11 & H12)%led_port_inv
         (Hc2 & Hr2 & H21 & H22)%led_port_inv.
  unfold get_ports. rewrite get_ports_loop_step. cbv zeta.
  rewrite find_first_of_app, take_app, drop_app by done. rewrite Hr1.
  unfold LOWEST_ALLOWED_PORT, HIGHEST_PORT in *. rewrite u16_small by lia.
  rewrite get_ports_loop_step. cbv zeta.
  rewrite (find_first_of_lacks "," _ Hc2), Hr2. rewrite u16_small by lia.
  unfold LOWEST_ALLOWED_PORT, HIGHEST_PORT in *.
  simpl Z.of_nat. simpl default. cbn.
  destruct (decimal d2 + 1 <=? 65535) eqn:Hfit; zcases.
  rewrite !u16_small by lia. done.
Qed.

Lemma get_ports_led_three p1 d1 p2 d2 p3 d3 a b c :
  led_port p1 d1 = true -> led_port p2 d2 = true -> led_port p3 d3 = true ->
  get_ports 3
    ((p1 +:+ d1) +:+ String "," ((p2 +:+ d2) +:+ String "," (p3 +:+ d3)))
    [a; b; c]
  = (true, [decimal d1; decimal d2; decimal d3]).
Proof.
  intros (Hc1 & Hr1 & H11 & H12)%led_port_inv
         (Hc2 & Hr2 & H21 & H22)%led_port_inv
         (Hc3 & Hr3 & H31 & H32)%led_port_inv.
  unfold get_ports. rewrite get_ports_loop_step. cbv zeta.
  rewrite find_first_of_app, take_app, drop_app by done. rewrite Hr1.
  unfold LOWEST_ALLOWED_PORT, HIGHEST_PORT in *. rewrite u16_small by lia.
  rewrite get_ports_loop_step. cbv zeta.
  rewrite find_first_of_app, take_app, drop_app by done. rewrite Hr2.
  rewrite u16_small by lia.
  rewrite get_ports_loop_step. cbv zeta.
  rewrite (find_first_of_lacks "," _ Hc3), Hr3. rewrite u16_small by lia.
  unfold LOWEST_ALLOWED_PORT, HIGHEST_PORT in *.
  simpl Z.of_nat. simpl default. cbn. zcases.
Qed.

End LedPorts.

Section OnlyLedPorts.

Lemma join_split_all c s : join (String c "") (split_all c s) = s.
Proof.
  induction s as [|a s IH]; [done|]. cbn [split_all].
  destruct (Ascii.eqb_spec a c) as [->|_].
  - pose proof (split_all_length c s) as Hl.
    destruct (split_all c s) as [|t ts] eqn:E; [simpl in Hl; lia|].
    rewrite join_cons, IH. done.
  - destruct (split_all c s) as [|t [|u ts]] eqn:E.
    + pose proof (split_all_length c s) as Hl. rewrite E in Hl. simpl in Hl. lia.
    + cbn [join] in *. by rewrite IH.
    + rewrite join_cons in *. rewrite append_cons. by rewrite IH.
Qed.

(** The text of a list of tokens, each digits behind a lead. *)
Lemma port_values_inv ts : forall vs,
  port_values ts = Some vs ->
  exists pds : list (string * string),
    ts = map (fun pd => pd.1 +:+ pd.2) pds
    /\ Forall (fun pd => led_port pd.1 pd.2 = true) pds
    /\ vs = map (fun pd => decimal pd.2) pds.
Proof.
  induction ts as [|t ts IH]; intros vs.
  - intros [= <-]. by exists [].
  - cbn [port_values]. destruct (port_value t) as [v|] eqn:Ev; [|done].
    destruct (port_values ts) as [vs'|]; [|done]. intros [= <-].
    destruct (IH vs' eq_refl) as (pds & -> & Hall & ->).
    apply port_value_iff in Ev as (p & d & -> & Hp & ->).
    exists ((p, d) :: pds). conjs; [done| |done]. by constructor.
Qed.

(** What is accepted is one to three tokens, each digits behind a lead. *)
Lemma get_ports_only_leads value a b c :
  (get_ports 3 value [a; b; c]).1 = true ->
  exists pds : list (string * string),
    value = join "," (map (fun pd => pd.1 +:+ pd.2) pds)
    /\ (1 <= length pds <= 3)%nat
    /\ Forall (fun pd => led_port pd.1 pd.2 = true) pds.
Proof.
  intros Hacc. pose proof (get_ports_reading value a b c) as H.
  unfold ports_reading in H.
  pose proof (split_all_length "," value) as Hl1.
  pose proof (join_split_all "," value) as Hj.
  destruct (3 <? length (split_all "," value))%nat eqn:Hl; [congruence|].
  apply Nat.ltb_ge in Hl.
  destruct (port_values (split_all "," value)) as [vs|] eqn:Ev; [|congruence].
  apply port_values_inv in Ev as (pds & Ets & Hall & _).
  exists pds. rewrite <- Ets. conjs; [done| | |done].
  - rewrite Ets, length_map in Hl1. done.
  - rewrite Ets, length_map in Hl. done.
Qed.

End OnlyLedPorts.

(** The comment of [get_ports] asks for distinct ports, and the loop
    compares each port with the ones before it; but a match only leaves
    the inner loop, and the string is accepted all the same. *)
Example get_ports_duplicates :
  get_ports 3 "7000,7000,7000" [0; 0; 0] = (true, [7000; 7000; 7000]).
Proof. reflexivity. Qed.

(** C3, as stated, fails: the tokens [+7000] and [ 7000] are not one to five
    decimal digits without a sign, yet [get_ports] accepts them. *)
Lemma port_sign_accepted :
  port_token "+7000" = false /\ all_digits "+7000" = false
  /\ get_ports 3 "+7000" [0; 0; 0] = (true, [7000; 7001; 7002])
  /\ port_token " 7000" = false /\ all_digits " 7000" = false
  /\ get_ports 3 " 7000" [0; 0; 0] = (true, [7000; 7001; 7002]).
Proof. conjs; reflexivity. Qed.

(** C3, amended.  A token is a port when it is one to five digits that
    denote a number in 1024..65535, or such digits behind a lead (white
    space, then at most one plus sign; the lead may be empty), lead and
    digits together being no longer than five characters.  [ports_reading]
    gives the three ports of a string: one to three tokens, each a port, and
    every slot that is left takes the port before it plus one, which must
    not pass 65535.  Where it gives none, [get_ports] turns the string down;
    where it gives three ports that are pairwise distinct, [get_ports]
    accepts and stores them (nothing is said of ports that coincide).  What
    is accepted is one to three tokens, each digits behind a lead.  In
    particular a string with a token that is empty, longer than five
    characters, starts with a minus sign, holds a character that is not a
    digit, a sign or white space, or is all digits and denotes a number
    outside 1024..65535, is turned down.  No explicit value is a failure.
    A bare [-p] sets the legacy ports and reads nothing. *)
Theorem ports_validated :
  (forall value a b c ps,
     ports_reading 3 value = Some ps -> NoDup ps ->
     get_ports 3 value [a; b; c] = (true, ps))
  /\ (forall value a b c,
     ports_reading 3 value = None ->
     (get_ports 3 value [a; b; c]).1 = false)
  /\ (forall value a b c,
     (get_ports 3 value [a; b; c]).1 = true ->
     exists pds : list (string * string),
       value = join "," (map (fun pd => pd.1 +:+ pd.2) pds)
       /\ (1 <= length pds <= 3)%nat
       /\ Forall (fun pd => led_port pd.1 pd.2 = true) pds)
  /\ (forall ts port,
     Forall (fun t => lacks "," t = true) ts ->
     Exists (fun t => rejected_port t = true) ts ->
     (get_ports 3 (join "," ts) port).1 = false)
  /\ (forall p1 d1 p2 d2 p3 d3 a b c,
     led_port p1 d1 = true -> led_port p2 d2 = true -> led_port p3 d3 = true ->
     NoDup [decimal d1; decimal d2; decimal d3] ->
     get_ports 3 ((p1 +:+ d1) +:+ "," +:+ (p2 +:+ d2) +:+ "," +:+ (p3 +:+ d3))
       [a; b; c]
     = (true, [decimal d1; decimal d2; decimal d3]))
  /\ (forall p1 d1 p2 d2 a b c,
     led_port p1 d1 = true -> led_port p2 d2 = true ->
     decimal d2 + 1 <= HIGHEST_PORT ->
     NoDup [decimal d1; decimal d2; decimal d2 + 1] ->
     get_ports 3 ((p1 +:+ d1) +:+ "," +:+ (p2 +:+ d2)) [a; b; c]
     = (true, [decimal d1; decimal d2; decimal d2 + 1]))
  /\ (forall p1 d1 p2 d2 a b c,
     led_port p1 d1 = true -> led_port p2 d2 = true ->
     HIGHEST_PORT < decimal d2 + 1 ->
     get_ports 3 ((p1 +:+ d1) +:+ "," +:+ (p2 +:+ d2)) [a; b; c]
     = (false, [decimal d1; decimal d2; c]))
  /\ (forall p d a b c,
     led_port p d = true ->
     get_ports 3 (p +:+ d) [a; b; c]
     = if decimal d + 2 <=? HIGHEST_PORT
       then (true, [decimal d; decimal d + 1; decimal d + 2])
       else (false, [decimal d; b; c]))
  /\ (forall a b c,
     get_ports 3 "7000,7001,7002" [a; b; c] = (true, [7000; 7001; 7002])
     /\ get_ports 3 "7000,7001" [a; b; c] = (true, [7000; 7001; 7002])
     /\ get_ports 3 "7000" [a; b; c] = (true, [7000; 7001; 7002])
     /\ (get_ports 3 "+80" [a; b; c]).1 = false
     /\ (get_ports 3 "7 000" [a; b; c]).1 = false
     /\ (get_ports 3 "7000,7001,7002,7003" [a; b; c]).1 = false)
  /\ (forall port, get_ports 3 "" port = (false, port))
  /\ (forall rest c,
     bare rest = true ->
     length (tcp c) = 3%nat -> length (udp c) = 3%nat ->
     parse_args ("-p" :: rest) c = parse_args rest (legacy_ports c)
     /\ tcp (legacy_ports c) = [7100; 7000; 7001]
     /\ udp (legacy_ports c) = [7011; 6001; 6000]).
Proof.
  assert (forall value a b c,
     ports_reading 3 value = None ->
     (get_ports 3 value [a; b; c]).1 = false) as Hnone.
  { intros value a b c Hr. pose proof (get_ports_reading value a b c) as H.
    by rewrite Hr in H. }
  conjs.
  - intros value a b c ps Hr _. pose proof (get_ports_reading value a b c) as H.
    by rewrite Hr in H.
  - exact Hnone.
  - apply get_ports_only_leads.
  - intros ts port. apply get_ports_loop_rejected.
  - intros p1 d1 p2 d2 p3 d3 a b c H1 H2 H3 _.
    change ("," +:+ (p2 +:+ d2) +:+ "," +:+ (p3 +:+ d3))
      with (String "," ((p2 +:+ d2) +:+ String "," (p3 +:+ d3))).
    by apply get_ports_led_three.
  - intros p1 d1 p2 d2 a b c H1 H2 Hfit _.
    change ("," +:+ (p2 +:+ d2)) with (String "," (p2 +:+ d2)).
    rewrite get_ports_led_two by done.
    by assert ((decimal d2 + 1 <=? HIGHEST_PORT) = true) as -> by lia.
  - intros p1 d1 p2 d2 a b c H1 H2 Hfit.
    change ("," +:+ (p2 +:+ d2)) with (String "," (p2 +:+ d2)).
    rewrite get_ports_led_two by done.
    by assert ((decimal d2 + 1 <=? HIGHEST_PORT) = false) as -> by lia.
  - intros p d a b c. apply get_ports_led_one.
  - intros a b c. conjs.
    + exact (get_ports_three "7000" "7001" "7002" a b c eq_refl eq_refl eq_refl).
    + exact (get_ports_two "7000" "7001" a b c eq_refl eq_refl).
    + exact (get_ports_one "7000" a b c eq_refl).
    + by apply Hnone.
    + by apply Hnone.
    + by apply Hnone.
  - done.
  - intros rest c Hb Ht Hu. split; [by apply bare_p_legacy|].
    by apply legacy_ports_values.
Qed.

Lemma ports_validated_witness :
  get_ports 3 " 5000,+6000" [0; 0; 0] = (true, [5000; 6000; 6001])
  /\ (get_ports 3 "7000,,7002" [0; 0; 0]).1 = false
  /\ (exists pds : list (string * string),
       " 5000,+6000" = join "," (map (fun pd => pd.1 +:+ pd.2) pds)
       /\ (1 <= length pds <= 3)%nat
       /\ Forall (fun pd => led_port pd.1 pd.2 = true) pds)
  /\ (get_ports 3 "7000,80,7002" [0; 0; 0]).1 = false
  /\ get_ports 3 "5000, 6000,+7000" [0; 0; 0] = (true, [5000; 6000; 7000])
  /\ get_ports 3 "+7000,7005" [0; 0; 0] = (true, [7000; 7005; 7006])
  /\ get_ports 3 "7000,65535" [0; 0; 0] = (false, [7000; 65535; 0])
  /\ get_ports 3 "65533" [0; 0; 0] = (true, [65533; 65534; 65535])
  /\ parse_args ["-p"; "-d"] initial_config
     = parse_args ["-d"] (legacy_ports initial_config).
Proof.
  destruct ports_validated
    as (H1 & H2 & H2' & H3 & H4 & H5 & H6 & H7 & _ & _ & H10).
  conjs.
  - refine (H1 " 5000,+6000" 0 0 0 [5000; 6000; 6001] eq_refl _).
    vm_compute. repeat (apply NoDup_cons_2; [rewrite ?elem_of_cons, elem_of_nil; lia|]).
    apply NoDup_nil_2.
  - exact (H2 "7000,,7002" 0 0 0 eq_refl).
  - exact (H2' " 5000,+6000" 0 0 0 eq_refl).
  - refine (H3 ["7000"; "80"; "7002"] [0; 0; 0] _ _).
    + repeat constructor.
    + apply Exists_cons_tl, Exists_cons_hd. reflexivity.
  - refine (H4 "" "5000" " " "6000" "+" "7000" 0 0 0 eq_refl eq_refl eq_refl _).
    vm_compute. repeat (apply NoDup_cons_2; [rewrite ?elem_of_cons, elem_of_nil; lia|]).
    apply NoDup_nil_2.
  - refine (H5 "+" "7000" "" "7005" 0 0 0 eq_refl eq_refl _ _).
    + unfold HIGHEST_PORT. by vm_compute.
    + vm_compute. repeat (apply NoDup_cons_2; [rewrite ?elem_of_cons, elem_of_nil; lia|]).
    apply NoDup_nil_2.
  - refine (H6 "" "7000" "" "65535" 0 0 0 eq_refl eq_refl _).
    unfold HIGHEST_PORT. by vm_compute.
  - exact (H7 "" "65533" 0 0 0 eq_refl).
  - exact (proj1 (H10 ["-d"] initial_config eq_refl eq_refl eq_refl)).
Defined.

(** ** The argument loop on whole command lines *)

(** For values that fit its [unsigned int], [get_value] without a ceiling
    stores the decimal value of the digits. *)
Lemma get_value_exact s :
  digits 1 10 s = true -> 0 < decimal s < 2 ^ 32 ->
  get_value s 0 = (true, decimal s).
Proof.
  intros Hd Hv. unfold get_value.
  rewrite (digits_guard 1 10 s "-" Hd) by (done || lia).
  rewrite (digits_strtoul 1 10 s Hd) by lia. simpl.
  assert ((decimal s =? 0) = false) as -> by zcases.
  unfold C.u32. by rewrite Z.mod_small by lia.
Qed.

(** With a ceiling, a value above it is turned down before it is stored. *)
Lemma get_value_ceiling s n :
  digits 1 10 s = true -> 0 < n < 2 ^ 32 ->
  get_value s n =
  if (decimal s =? 0) || (n <? decimal s) then (false, n) else (true, decimal s).
Proof.
  intros Hd Hn. unfold get_value.
  rewrite (digits_guard 1 10 s "-" Hd) by (done || lia).
  rewrite (digits_strtoul 1 10 s Hd) by lia. simpl.
  pose proof (digits_decimal 1 10 s Hd ltac:(lia)).
  assert ((0 <? n) = true) as -> by zcases. simpl.
  destruct (_ || _) eqn:E; [done|]. apply orb_false_elim in E as [_ E].
  apply Z.ltb_ge in E. unfold C.u32. by rewrite Z.mod_small by lia.
Qed.

(** C1: on [-s 1280x720@30 -fps 24 -p 7000 -t 5] the loop ends with the
    display, the TCP ports and the timeout of the claim, but with UDP ports
    0, 7001, 7002: the copy from [tcp] to [udp] starts at index 1, so
    [udp[0]] keeps its initial 0. *)
Theorem end_to_end_udp_first_port :
  parse_args ["-s"; "1280x720@30"; "-fps"; "24"; "-p"; "7000"; "-t"; "5"]
    initial_config
  = Parsed
      {| server_name := "UxPlay"; use_audio := true;
         use_random_hw_addr := false; debug_log := false;
         display := [1280; 720; 30; 24; 0];
         tcp := [7000; 7001; 7002];
         udp := [0; 7001; 7002];
         videoflip := [NONE; NONE];
         videosink := "autovideosink"; audiosink := "autoaudiosink";
         server_timeout := 5 |}.
Proof. vm_compute. reflexivity. Qed.

(** C4: a [-t] whose value is malformed or zero does not end the process:
    the loop goes on with the timeout at 0, where the sibling [-fps] exits
    with status 1.  A [-p tcp] or [-p udp] at the end of the command line
    reads [argv[argc]], a null pointer, into a [std::string]. *)
Theorem timeout_and_port_selector_unchecked :
  parse_args ["-t"; "abc"] initial_config = Parsed initial_config
  /\ parse_args ["-t"; "0"] initial_config = Parsed initial_config
  /\ parse_args ["-t"; "12345678901"; "-d"] initial_config
     = Parsed (set_debug_log true initial_config)
  /\ parse_args ["-fps"; "abc"] initial_config = Exit 1
  /\ parse_args ["-fps"; "0"] initial_config = Exit 1
  /\ parse_args ["-p"; "tcp"] initial_config = Undefined
  /\ parse_args ["-p"; "udp"] initial_config = Undefined
  /\ parse_args ["-p"; "tcp"; "80"] initial_config = Exit 1.
Proof. vm_compute. repeat split. Qed.

(** C8: a ten-digit value of [-t] above 2^32 - 1 is accepted and stored
    reduced modulo 2^32; 4294967296 is stored as 0, which disables the
    timeout.  (Where [unsigned long] has 32 bits, [strtoul] gives 2^32 - 1
    for both strings instead.) *)
Theorem timeout_wraps :
  get_value "9999999999" 0 = (true, 1410065407)
  /\ decimal "9999999999" = 9999999999
  /\ get_value "4294967296" 0 = (true, 0)
  /\ (exists c, parse_args ["-t"; "4294967296"] initial_config = Parsed c
                /\ server_timeout c = 0)
  /\ (exists c, parse_args ["-t"; "4294967301"] initial_config = Parsed c
                /\ server_timeout c = 5)
  /\ C.strtoul_gen 32 "9999999999" = (4294967295, "")
  /\ get_value "4294967295" 0 = (true, 4294967295).
Proof.
  conjs;
    try (vm_compute; reflexivity).
  - eexists. split; vm_compute; reflexivity.
  - eexists. split; vm_compute; reflexivity.
Qed.

(** ** The idle watchdog *)

Section Watchdog.



(** While [connections_stopped] is clear, a tick clears the counter and the
    loop goes on. *)
Lemma tick_resets t s :
  connections_stopped s = false -> connection_callback t s = (set_counter 0 s, false).
Proof. unfold connection_callback. by intros ->. Qed.




Lemma main_loop_run t evs s :
  main_loop t evs s =
  g_main_loop_run t evs
    (set_relaunch_server true
       (if use_video s
        then invoke video_renderer_listen (option_list (video_renderer s)) [] s
        else s)).
Proof. done. Qed.


End Watchdog.

(** ** An unmatched close *)

Section UnmatchedClose.

Lemma conn_destroy_open s :
  open_connections (conn_destroy s) = C.u32 (open_connections s - 1).
Proof. unfold conn_destroy. simpl. by destruct (_ =? 0). Qed.

Lemma conn_destroy_stopped s :
  connections_stopped (conn_destroy s) =
  (C.u32 (open_connections s - 1) =? 0) || connections_stopped s.
Proof. unfold conn_destroy. simpl. by destruct (_ =? 0). Qed.

Lemma conn_init_open s :
  open_connections (conn_init s) = C.u32 (open_connections s + 1).
Proof. done. Qed.

(** [k] closes in a row, while the counter stays above 0. *)
Lemma closes_count_down k : forall s,
  Z.of_nat k < open_connections s < 2 ^ 32 ->
  open_connections (Nat.iter k conn_destroy s) = open_connections s - Z.of_nat k
  /\ connections_stopped (Nat.iter k conn_destroy s) = connections_stopped s.
Proof.
  induction k as [|k IH]; intros s Hk.
  - simpl. split; [lia|done].
  - rewrite Nat.iter_succ. destruct (IH s ltac:(lia)) as [Ho Hs].
    rewrite conn_destroy_open, conn_destroy_stopped, Ho, Hs.
    unfold C.u32. rewrite Z.mod_small by lia.
    split; [lia|]. by assert ((open_connections s - Z.of_nat k - 1 =? 0) = false)
      as -> by zcases.
Qed.

Lemma serial_never_stops t evs : forall opened s,
  serial opened evs = true ->
  connections_stopped s = false ->
  open_connections s = (if opened then 0 else 4294967295) ->
  (g_main_loop_run t evs s).2 = false
  /\ connections_stopped (g_main_loop_run t evs s).1 = false.
Proof.
  induction evs as [|e evs IH]; intros opened s Hser Hs Ho; [done|].
  cbn [g_main_loop_run]. destruct e; cbn [serial] in Hser; try done.
  - destruct (t =? 0); [by apply (IH opened)|].
    rewrite tick_resets by done. by apply (IH opened).
  - apply andb_prop in Hser as [Hop Hser]. destruct opened; [done|].
    apply (IH true); [done|done|]. rewrite conn_init_open, Ho. done.
  - apply andb_prop in Hser as [Hop Hser]. destruct opened; [|done].
    apply (IH false); [done| |].
    + rewrite conn_destroy_stopped, Ho, Hs. done.
    + rewrite conn_destroy_open, Ho. done.
Qed.

End UnmatchedClose.

(** C10, as stated, fails: after the unmatched close the counter is
    2^32 - 1 and [connections_stopped] is clear, but two connections that
    overlap set it at their first close, one further close later, and the
    timeout of 3 then quits the loop at the third tick. *)
Lemma unmatched_close_then_overlap :
  let s := conn_destroy (set_connections_stopped false initial_state) in
  open_connections s = 4294967295
  /\ connections_stopped s = false
  /\ connections_stopped (conn_destroy (conn_init (conn_init s))) = true
  /\ (g_main_loop_run 3
        [ConnInit; ConnInit; ConnDestroy; Tick; Tick; Tick] s).2 = true.
Proof. cbv zeta. conjs; reflexivity. Qed.

(** C10, amended.  When [conn_destroy] runs with [open_connections] at 0,
    the counter becomes 4294967295 and the call leaves
    [connections_stopped] as it was.  From then on [connections_stopped] is
    set only by a close that brings the counter back to 0: not by fewer than
    2^32 - 1 further closes in a row (the 2^32 - 1-th sets it), and never
    while connections are opened and closed one at a time, so that no tick
    counts; but two connections that overlap set it at their first close. *)
Theorem unmatched_close :
  (forall s,
     open_connections s = 0 ->
     open_connections (conn_destroy s) = 4294967295
     /\ connections_stopped (conn_destroy s) = connections_stopped s)
  /\ (forall s k,
     open_connections s = 4294967295 -> connections_stopped s = false ->
     Z.of_nat k < 4294967295 ->
     connections_stopped (Nat.iter k conn_destroy s) = false)
  /\ (forall s,
     open_connections s = 4294967295 ->
     connections_stopped (Nat.iter (Z.to_nat 4294967295) conn_destroy s) = true)
  /\ (forall t evs s,
     open_connections s = 4294967295 -> connections_stopped s = false ->
     serial false evs = true ->
     (g_main_loop_run t evs s).2 = false
     /\ connections_stopped (g_main_loop_run t evs s).1 = false)
  /\ (forall s,
     open_connections s = 4294967295 ->
     connections_stopped (conn_destroy (conn_init (conn_init s))) = true).
Proof.
  conjs.
  - intros s H0. rewrite conn_destroy_open, conn_destroy_stopped, H0. done.
  - intros s k Ho Hs Hk.
    destruct (closes_count_down k s ltac:(lia)) as [_ ->]. done.
  - intros s Ho.
    replace (Z.to_nat 4294967295) with (S (Z.to_nat 4294967294)) by lia.
    rewrite Nat.iter_succ.
    destruct (closes_count_down (Z.to_nat 4294967294) s ltac:(lia)) as [Hc _].
    rewrite conn_destroy_stopped, Hc, Ho.
    replace (4294967295 - Z.of_nat (Z.to_nat 4294967294) - 1) with 0 by lia.
    done.
  - intros t evs s Ho Hs Hser. by apply (serial_never_stops t evs false).
  - intros s Ho.
    rewrite conn_destroy_stopped, !conn_init_open, Ho. done.
Qed.

Lemma unmatched_close_witness :
  let s := conn_destroy (set_connections_stopped false initial_state) in
  open_connections s = 4294967295
  /\ connections_stopped (Nat.iter 5 conn_destroy s) = false
  /\ (g_main_loop_run 3
        [ConnInit; Tick; ConnDestroy; Tick; Tick; Tick; Tick] s).2 = false.
Proof.
  destruct unmatched_close as (H1 & H2 & _ & H4 & _).
  cbv zeta. conjs.
  - exact (proj1 (H1 (set_connections_stopped false initial_state) eq_refl)).
  - exact (H2 (conn_destroy (set_connections_stopped false initial_state))
              5%nat eq_refl eq_refl ltac:(lia)).
  - exact (proj1 (H4 3 [ConnInit; Tick; ConnDestroy; Tick; Tick; Tick; Tick]
                     (conn_destroy (set_connections_stopped false initial_state))
                     eq_refl eq_refl eq_refl)).
Defined.

(** ** Stopping twice *)

Section Stop.

(** [stop_server] writes none of the five pointers. *)
Lemma stop_server_handles s :
  raop (stop_server s) = raop s /\ dnssd (stop_server s) = dnssd s
  /\ audio_renderer (stop_server s) = audio_renderer s
  /\ video_renderer (stop_server s) = video_renderer s
  /\ render_logger (stop_server s) = render_logger s.
Proof.
  destruct s as [d r v a l ? ? ? ? ? ? ? ? ?]. unfold stop_server.
  cbn [raop dnssd audio_renderer video_renderer render_logger].
  destruct r, d, a, v, l; done.
Qed.

Ltac state_fields :=
  cbn [when_set release invoke forallb set_world live next_handle calls faulted raop
       dnssd audio_renderer video_renderer render_logger relaunch_server
       open_connections connections_stopped counter use_video].

(** After [stop_server] the protocol engine is not live. *)
Lemma stop_server_raop_dead s h :
  raop s = Some h -> h ∉ live (stop_server s).
Proof.
  destruct s as [d r v a l ? ? ? ? ? lv ? ? ?]. cbn [raop]. intros ->.
  unfold stop_server. destruct d, a, v, l; state_fields; intros H;
    repeat (apply elem_of_difference in H as [H ?]);
    match goal with Hn : h ∉ {[h]} |- _ => apply Hn; by apply elem_of_singleton end.
Qed.

(** A second [stop_server] destroys the protocol engine again. *)
Lemma stop_server_twice_faults s h :
  raop s = Some h -> faulted (stop_server (stop_server s)) = true.
Proof.
  intros Hr. pose proof (stop_server_raop_dead s h Hr) as Hdead.
  destruct (stop_server_handles s) as (Hr2 & _). rewrite Hr in Hr2.
  set (s2 := stop_server s) in *. clearbody s2.
  destruct s2 as [d r v a l ? ? ? ? ? lv ? ? ?]. cbn [raop live] in *.
  subst r. unfold stop_server.
  destruct d, a, v, l; state_fields;
    rewrite (bool_decide_eq_false_2 (h ∈ lv)) by done;
    cbn [negb andb]; by rewrite orb_true_r.
Qed.

End Stop.

(** C6: after a start, the first [stop_server] destroys the five objects
    without a fault; the second one, with no start between, makes the same
    seven calls again on the objects that are no longer live, and so does
    every second [stop_server] in a state whose engine pointer is set.  Only
    in the never-started state does [stop_server] do nothing.  A relaunch
    whose [start_server] fails at the logger runs [stop_server] on the
    renderers and registrar of the run before. *)
Theorem stop_server_twice :
  raop running = Some 1%nat
  /\ faulted running = false
  /\ faulted (stop_server running) = false
  /\ calls (stop_server (stop_server running))
     = calls (stop_server running)
       ++ [Call raop_destroy [1%nat] [];
           Call dnssd_unregister_raop [5%nat] [];
           Call dnssd_unregister_airplay [5%nat] [];
           Call dnssd_destroy [5%nat] [];
           Call audio_renderer_destroy [4%nat] [];
           Call video_renderer_destroy [3%nat] [];
           Call logger_destroy [2%nat] []]
  /\ faulted (stop_server (stop_server running)) = true
  /\ (forall s h,
     raop s = Some h ->
     raop (stop_server s) = Some h
     /\ faulted (stop_server (stop_server s)) = true)
  /\ stop_server initial_state = initial_state
  /\ faulted
       (relaunch [(all_ok, [ConnInit; ConnDestroy; Tick; Tick; Tick]);
                  (no_logger, [])]
          [] (set_server_timeout 3 initial_config) initial_state []).1.2
     = true.
Proof.
  assert (forall s h,
     raop s = Some h ->
     raop (stop_server s) = Some h
     /\ faulted (stop_server (stop_server s)) = true) as Hany.
  { intros s h Hr. split.
    - destruct (stop_server_handles s) as [-> _]. done.
    - by apply (stop_server_twice_faults s h). }
  split; [vm_compute; reflexivity|]. split; [vm_compute; reflexivity|].
  split; [vm_compute; reflexivity|]. split; [vm_compute; reflexivity|].
  split; [vm_compute; reflexivity|]. split; [exact Hany|].
  split; vm_compute; reflexivity.
Qed.

Lemma stop_server_twice_witness :
  faulted (stop_server (stop_server (set_raop (Some 7%nat) initial_state))) = true.
Proof.
  destruct stop_server_twice as (_ & _ & _ & _ & _ & H & _).
  exact (proj2 (H (set_raop (Some 7%nat) initial_state) 7%nat eq_refl)).
Defined.

(** ** What [start_server] does to the configuration *)

Section StartConfig.

Lemma set_display_same c : set_display (display c) c = c.
Proof. by destruct c. Qed.

Lemma start_server_display env hw name display tcp udp vf ua dl vs au s :
  (start_server env hw name display tcp udp vf ua dl vs au s).1.2
  = if raop_init_ok env && is_flag vs "0"
    then <[3%nat := 1]> display else display.
Proof.
  unfold start_server, create. destruct env as [r l v a d p].
  cbn [raop_init_ok logger_init_ok video_renderer_init_ok
       audio_renderer_init_ok dnssd_init_ok bound_port].
  generalize (is_flag vs "0") (is_flag au "0"). intros bv ba.
  destruct r; [|reflexivity].
  destruct bv, l; try reflexivity; destruct v; try reflexivity;
    destruct ba, ua, a; try reflexivity; destruct d; reflexivity.
Qed.

Lemma start_server_ok env hw name display tcp udp vf ua dl vs au s :
  (start_server env hw name display tcp udp vf ua dl vs au s).1.1 = 0 ->
  raop_init_ok env = true.
Proof.
  unfold start_server, create. destruct env as [r l v a d p].
  cbn [raop_init_ok]. by destruct r.
Qed.

Lemma after_start_cases env hw c s :
  after_start env hw c s
  = if raop_init_ok env then pinned c else c.
Proof.
  unfold after_start, start, pinned. rewrite start_server_display.
  destruct (raop_init_ok env); cbn [andb].
  - destruct (is_flag _ "0"); [done|apply set_display_same].
  - apply set_display_same.
Qed.

Lemma pinned_idempotent c : pinned (pinned c) = pinned c.
Proof.
  unfold pinned. destruct (is_flag (videosink c) "0") eqn:E; [|by rewrite E].
  cbn [videosink set_display]. rewrite E. unfold set_display. cbn.
  by rewrite list_insert_insert_eq.
Qed.

Lemma relaunch_unfold env events runs hw c s started :
  relaunch ((env, events) :: runs) hw c s started =
  let s0 := set_connections_stopped false s in
  let started := started ++ [c] in
  let r := start env hw c s0 in
  let c := after_start env hw c s0 in
  if negb (r.1.1 =? 0) then (Some 1, c, r.2, started)
  else
    let m := main_loop (server_timeout c) events r.2 in
    if negb m.2 then (None, c, m.1, started)
    else if relaunch_server m.1
         then relaunch runs hw c (stop_server m.1) started
         else (Some 0, c, stop_server m.1, started).
Proof.
  cbn [relaunch]. unfold after_start, start. cbv zeta.
  destruct (start_server _ _ _ _ _ _ _ _ _ _ _ _) as [[ret d'] s'].
  cbn [fst snd]. destruct (negb (ret =? 0)); [done|].
  destruct (main_loop _ _ _) as [s'' q]. done.
Qed.

(** Every pass after a first successful one starts from the pinned
    configuration. *)
Lemma relaunch_pinned runs hw : forall c s started,
  pinned c = c ->
  final_config (relaunch runs hw c s started) = c
  /\ exists k, starts (relaunch runs hw c s started) = started ++ repeat c k.
Proof.
  induction runs as [|[env events] runs IH]; intros c s started Hc.
  - split; [done|]. exists 0%nat. by rewrite app_nil_r.
  - rewrite relaunch_unfold. cbv zeta.
    assert (after_start env hw c (set_connections_stopped false s) = c) as ->
      by (rewrite after_start_cases; by destruct (raop_init_ok env)).
    destruct (negb (_ =? 0)); [|destruct (negb _); [|destruct (relaunch_server _)]];
      try (split; [done|]; by exists 1%nat).
    destruct (IH c (stop_server
        (main_loop (server_timeout c) events
           (start env hw c (set_connections_stopped false s)).2).1)
        (started ++ [c]) Hc) as [H1 [k H2]].
    split; [done|]. exists (S k). rewrite H2, <- app_assoc. done.
Qed.

Lemma relaunch_configs runs hw c s :
  (final_config (relaunch runs hw c s []) = c
   \/ final_config (relaunch runs hw c s []) = pinned c)
  /\ (starts (relaunch runs hw c s []) = []
      \/ exists k, starts (relaunch runs hw c s []) = c :: repeat (pinned c) k).
Proof.
  destruct runs as [|[env events] runs].
  - split; by left.
  - rewrite relaunch_unfold. cbv zeta. rewrite after_start_cases.
    destruct (negb (_ =? 0)) eqn:Hret.
    { split; [destruct (raop_init_ok env); auto|].
      right. by exists 0%nat. }
    apply negb_false_iff, Z.eqb_eq in Hret. unfold start in Hret.
    apply start_server_ok in Hret. rewrite Hret.
    destruct (negb _); [|destruct (relaunch_server _)];
      try (split; [by right|]; right; by exists 0%nat).
    destruct (relaunch_pinned runs hw (pinned c) (stop_server
        (main_loop (server_timeout (pinned c)) events
           (start env hw c (set_connections_stopped false s)).2).1)
        ([] ++ [c]) (pinned_idempotent c)) as [H1 [k H2]].
    split; [by right|]. right. exists k. by rewrite H2.
Qed.

Lemma pinned_fields c :
  server_name (pinned c) = server_name c
  /\ use_audio (pinned c) = use_audio c
  /\ use_random_hw_addr (pinned c) = use_random_hw_addr c
  /\ debug_log (pinned c) = debug_log c
  /\ tcp (pinned c) = tcp c /\ udp (pinned c) = udp c
  /\ videoflip (pinned c) = videoflip c
  /\ videosink (pinned c) = videosink c /\ audiosink (pinned c) = audiosink c
  /\ server_timeout (pinned c) = server_timeout c
  /\ display (pinned c)
     = if is_flag (videosink c) "0" then <[3%nat := 1]> (display c)
       else display c.
Proof. unfold pinned. by destruct (is_flag (videosink c) "0"). Qed.

End StartConfig.

(** C7, as stated, fails: with [-fps 24 -vs 0] the parser gives a maximum
    frame rate of 24; [start_server] writes 1 into that cell of the caller's
    array, and the second start receives the changed configuration. *)
Lemma start_pins_fps :
  exists c,
    parse_args ["-fps"; "24"; "-vs"; "0"] initial_config = Parsed c
    /\ display c = [0; 0; 0; 24; 0]
    /\ display (after_start all_ok [] c initial_state) = [0; 0; 0; 1; 0]
    /\ map display
         (starts (relaunch [(all_ok, [SIGINT])] [] c initial_state [])) = [[0; 0; 0; 24; 0]]
    /\ map display
         (starts (relaunch [(all_ok, [ConnInit; ConnDestroy; Tick]); (all_ok, [])]
                    [] (set_server_timeout 1 c) initial_state []))
       = [[0; 0; 0; 24; 0]; [0; 0; 0; 1; 0]].
Proof.
  eexists. split; [vm_compute; reflexivity|].
  conjs; vm_compute; reflexivity.
Qed.

(** C7, amended.  [start_server] leaves every field of the configuration as
    it was, except that with the video sink ["0"] (and once the protocol
    engine exists) it sets the maximum frame rate, [display[3]], to 1.
    Across relaunches the first start receives the parser's configuration
    and every later one the same configuration with that one cell pinned;
    with any other video sink all starts receive the parser's
    configuration. *)
Theorem start_keeps_config :
  (forall env hw c s,
     after_start env hw c s = if raop_init_ok env then pinned c else c)
  /\ (forall c,
     server_name (pinned c) = server_name c
     /\ use_audio (pinned c) = use_audio c
     /\ use_random_hw_addr (pinned c) = use_random_hw_addr c
     /\ debug_log (pinned c) = debug_log c
     /\ tcp (pinned c) = tcp c /\ udp (pinned c) = udp c
     /\ videoflip (pinned c) = videoflip c
     /\ videosink (pinned c) = videosink c /\ audiosink (pinned c) = audiosink c
     /\ server_timeout (pinned c) = server_timeout c
     /\ display (pinned c)
        = if is_flag (videosink c) "0" then <[3%nat := 1]> (display c)
          else display c)
  /\ (forall runs hw c s,
     (final_config (relaunch runs hw c s []) = c
      \/ final_config (relaunch runs hw c s []) = pinned c)
     /\ (starts (relaunch runs hw c s []) = []
         \/ exists k,
              starts (relaunch runs hw c s []) = c :: repeat (pinned c) k)).
Proof.
  conjs.
  - apply after_start_cases.
  - apply pinned_fields.
  - apply relaunch_configs.
Qed.

(** ** The watchdog over whole runs *)

Section WatchdogRuns.

(** One event: the state after it and whether the loop was quit. *)
Lemma run_cons t e evs s :
  g_main_loop_run t (e :: evs) s =
  let '(s1, quit) := g_main_loop_run t [e] s in
  if quit then (s1, true) else g_main_loop_run t evs s1.
Proof.
  cbn [g_main_loop_run].
  destruct (match e with Tick => _ | _ => _ end) as [s1 q]. by destruct q.
Qed.

Lemma run_app t evs1 : forall evs2 s,
  g_main_loop_run t (evs1 ++ evs2) s =
  if (g_main_loop_run t evs1 s).2 then (g_main_loop_run t evs1 s)
  else g_main_loop_run t evs2 (g_main_loop_run t evs1 s).1.
Proof.
  induction evs1 as [|e evs1 IH]; intros evs2 s; [done|].
  rewrite <- app_comm_cons, (run_cons t e (evs1 ++ evs2)), (run_cons t e evs1).
  destruct (g_main_loop_run t [e] s) as [s1 q]. destruct q; [done|]. apply IH.
Qed.







End WatchdogRuns.

(** ** What a (re)start does to the watchdog *)

Section Restart.


Lemma watchdog_release f h s : watchdog (release f h s) = watchdog s.
Proof. done. Qed.
















End Restart.

Section IdleRuns.


End IdleRuns.




(** ** The hardware address *)

Section HardwareAddress.

Lemma snprintf_02x_octet b :
  octet b ->
  C.snprintf_02x b = group_text (C.hex_digit (b / 16), C.hex_digit (b mod 16)).
Proof.
  intros Hb. unfold C.snprintf_02x.
  assert (C.leading_byte (Z.to_nat b) b = b) as ->; [|done].
  destruct (Z.to_nat b); simpl; [done|].
  unfold octet in Hb. by assert ((b <? 256) = true) as -> by zcases.
Qed.

Lemma nibble_cases d :
  0 <= d < 16 ->
  d = 0 \/ d = 1 \/ d = 2 \/ d = 3 \/ d = 4 \/ d = 5 \/ d = 6 \/ d = 7 \/
  d = 8 \/ d = 9 \/ d = 10 \/ d = 11 \/ d = 12 \/ d = 13 \/ d = 14 \/ d = 15.
Proof. lia. Qed.

(** A hexadecimal digit as [snprintf] writes it is read back by [stol]. *)
Lemma hex_digit_value d :
  0 <= d < 16 -> C.digit_in 16 (C.hex_digit d) = Some d.
Proof.
  intros Hd.
  destruct (nibble_cases d Hd)
    as [->|[->|[->|[->|[->|[->|[->|[->|[->|[->|[->|[->|[->|[->|[->| ->]]]]]]]]]]]]]]];
    reflexivity.
Qed.

(** A hexadecimal digit is not white space, a sign, or the [x] of a
    prefix. *)
Lemma digit_in_16_inv c d :
  C.digit_in 16 c = Some d ->
  0 <= d < 16
  /\ C.isspace c = false
  /\ (C.code c =? 45) = false /\ (C.code c =? 43) = false
  /\ (C.code c =? 120) = false /\ (C.code c =? 88) = false.
Proof.
  unfold C.digit_in, C.digit_value, C.isspace. cbv zeta.
  generalize (C.code c). intros n H.
  destruct ((48 <=? n) && (n <=? 57)) eqn:E1;
    [|destruct ((97 <=? n) && (n <=? 122)) eqn:E2;
      [|destruct ((65 <=? n) && (n <=? 90)) eqn:E3; [|done]]];
    (destruct (_ <? 16) eqn:E4; [|done]); injection H as <-;
    conjs; lia.
Qed.

(** [stol] on a group of two digits, at the end of the text or in front of
    a colon. *)
Lemma stol16_group h l rest :
  hex_group (h, l) -> (rest = "" \/ exists r, rest = String ":" r) ->
  C.stol16 (String h (String l rest)) = Some (group_value (h, l)).
Proof.
  intros [[hi Dh] [lo Dl]] Hrest.
  unfold group_value, nibble. cbn [fst snd] in *. rewrite Dh, Dl.
  destruct (digit_in_16_inv h hi Dh) as (Hhi & Sh & Mh & Ph & _ & _).
  destruct (digit_in_16_inv l lo Dl) as (Hlo & _ & _ & _ & Xl & XXl).
  unfold C.stol16, C.scan. cbn [C.skip_space]. rewrite Sh, Mh, Ph.
  change (16 =? 16) with true. cbv iota.
  unfold C.skip_hex_prefix. rewrite Xl, XXl. cbn [orb].
  rewrite andb_false_r. cbn [andb]. cbn [C.starts_with_digit]. rewrite Dh.
  cbn [C.accum]. rewrite Dh, Dl.
  assert (C.accum 16 ((0 * 16 + hi) * 16 + lo) rest
          = ((0 * 16 + hi) * 16 + lo, rest)) as ->.
  { destruct Hrest as [->|[r ->]]; done. }
  unfold C.LONG_MAX.
  assert ((2 ^ 63 - 1 <? (0 * 16 + hi) * 16 + lo) = false) as -> by zcases.
  f_equal. lia.
Qed.

Lemma group_value_octet g : hex_group g -> octet (group_value g).
Proof.
  destruct g as [h l]. intros [[hi Dh] [lo Dl]].
  unfold group_value, nibble. cbn [fst snd] in *. rewrite Dh, Dl.
  apply digit_in_16_inv in Dh as [? _]. apply digit_in_16_inv in Dl as [? _].
  unfold octet. lia.
Qed.

(** The text of six groups is parsed into their values. *)
Lemma parse_groups_text gs :
  length gs = 6%nat -> Forall hex_group gs ->
  parse_hw_addr (groups_text gs) [] = Some (map group_value gs).
Proof.
  intros Hlen Hgs.
  destruct gs as [|[h0 l0] [|[h1 l1] [|[h2 l2] [|[h3 l3] [|[h4 l4]
    [|[h5 l5] [|]]]]]]]; try done.
  pose proof (Forall_impl _ _ _ Hgs group_value_octet) as Hoct.
  repeat (apply Forall_cons in Hgs as [? Hgs]).
  repeat (apply Forall_cons in Hoct as [? Hoct]).
  unfold groups_text, group_text, parse_hw_addr. cbn [map join fst snd].
  repeat (rewrite append_cons || rewrite append_nil).
  cbn [String.length parse_hw_addr_loop Nat.ltb Nat.leb Str.drop Nat.add].
  rewrite !stol16_group by (done || (right; by eexists) || by left).
  unfold C.to_char, octet in *. rewrite !Z.mod_small by done. done.
Qed.

Lemma mac_text_groups octets :
  Forall octet octets ->
  mac_text octets
  = groups_text (map (fun b => (C.hex_digit (b / 16), C.hex_digit (b mod 16)))
                   octets)
  /\ Forall hex_group
       (map (fun b => (C.hex_digit (b / 16), C.hex_digit (b mod 16))) octets)
  /\ map group_value
       (map (fun b => (C.hex_digit (b / 16), C.hex_digit (b mod 16))) octets)
     = octets.
Proof.
  unfold mac_text, groups_text.
  induction 1 as [|b octets Hb Ho (IH1 & IH2 & IH3)]; [done|].
  assert (0 <= b / 16 < 16) as Hhi
    by (unfold octet in Hb; split;
        [apply Z.div_pos; lia|apply Z.div_lt_upper_bound; lia]).
  assert (0 <= b mod 16 < 16) as Hlo by (apply Z.mod_pos_bound; lia).
  pose proof (hex_digit_value _ Hhi) as Dh.
  pose proof (hex_digit_value _ Hlo) as Dl.
  cbn [map]. conjs.
  - rewrite snprintf_02x_octet by done.
    destruct octets as [|b' octets]; [done|]. cbn [map] in *.
    rewrite !join_cons. by rewrite IH1.
  - apply Forall_cons. split; [|done]. split; cbn [fst snd]; by eexists.
  - f_equal; [|done]. unfold group_value, nibble. cbn [fst snd].
    rewrite Dh, Dl. symmetry. apply Z.div_mod. lia.
Qed.

(** The text of six octets is parsed back into them. *)
Lemma parse_mac_text octets :
  length octets = 6%nat -> Forall octet octets ->
  parse_hw_addr (mac_text octets) [] = Some octets.
Proof.
  intros Hlen Ho. destruct (mac_text_groups octets Ho) as (-> & Hg & Hv).
  rewrite parse_groups_text; [by rewrite Hv| |done]. by rewrite length_map.
Qed.

(** The first octet that [random_mac] draws. *)
Lemma first_octet r :
  0 <= r ->
  let b := Z.shiftl (Z.shiftl (Z.rem r 64) 1 + LOCAL) 1 + MULTICAST in
  b = 4 * (r mod 64) + 2 /\ octet b
  /\ Z.testbit b 0 = false /\ Z.testbit b 1 = true.
Proof.
  intros Hr b. subst b. rewrite Z.rem_mod_nonneg by lia.
  rewrite !Z.shiftl_mul_pow2 by lia. unfold LOCAL, MULTICAST.
  pose proof (Z.mod_pos_bound r 64 ltac:(lia)) as Hm.
  replace ((r mod 64 * 2 ^ 1 + 1) * 2 ^ 1 + 0) with (4 * (r mod 64) + 2) by lia.
  split; [done|]. split; [unfold octet; lia|].
  replace (4 * (r mod 64) + 2) with (2 * (2 * (r mod 64) + 1)) by lia.
  split.
  - apply Z.testbit_even_0.
  - change 1 with (Z.succ 0). rewrite Z.testbit_even_succ by lia.
    apply Z.testbit_odd_0.
Qed.

Lemma random_mac_text rand :
  (forall i, 0 <= rand i) ->
  random_mac rand
  = mac_text [4 * (rand 0%nat mod 64) + 2; rand 1%nat mod 256;
              rand 2%nat mod 256; rand 3%nat mod 256; rand 4%nat mod 256;
              rand 5%nat mod 256].
Proof.
  intros Hr. unfold random_mac.
  destruct (first_octet (rand 0%nat) (Hr _)) as (-> & H0 & _).
  assert (forall i, octet (rand i mod 256)) as Ho
    by (intros i; apply Z.mod_pos_bound; lia).
  unfold OCTETS. cbn [Nat.sub random_mac_loop].
  rewrite !Z.rem_mod_nonneg by (apply Hr || lia).
  unfold mac_text. cbn [map].
  rewrite !snprintf_02x_octet by done. reflexivity.
Qed.

End HardwareAddress.

(** C9.  Whatever [rand] returns, the address that [random_mac] writes is
    parsed by [parse_hw_addr] into six octets, each in 0..255, the first
    with bit 0 clear (unicast) and bit 1 set (locally administered).  The
    colon-separated text of any six octets is parsed back into exactly
    those octets, and any text of six groups of two hexadecimal digits, in
    either case, into the six values of its groups. *)
Theorem hardware_address :
  (forall rand,
     (forall i, 0 <= rand i) ->
     exists b0 b1 b2 b3 b4 b5,
       parse_hw_addr (random_mac rand) [] = Some [b0; b1; b2; b3; b4; b5]
       /\ Z.testbit b0 0 = false /\ Z.testbit b0 1 = true
       /\ Forall octet [b0; b1; b2; b3; b4; b5])
  /\ (forall octets,
     length octets = 6%nat -> Forall octet octets ->
     parse_hw_addr (mac_text octets) [] = Some octets)
  /\ (forall gs,
     length gs = 6%nat -> Forall hex_group gs ->
     parse_hw_addr (groups_text gs) [] = Some (map group_value gs)
     /\ Forall octet (map group_value gs)).
Proof.
  conjs.
  - intros rand Hr. rewrite random_mac_text by done.
    destruct (first_octet (rand 0%nat) (Hr _)) as (E & H0 & Hb0 & Hb1).
    cbv zeta in *. rewrite E in *.
    assert (forall i, octet (rand i mod 256)) as Ho
      by (intros i; apply Z.mod_pos_bound; lia).
    assert (Forall octet
              [4 * (rand 0%nat mod 64) + 2; rand 1%nat mod 256;
               rand 2%nat mod 256; rand 3%nat mod 256; rand 4%nat mod 256;
               rand 5%nat mod 256]) as Hall.
    { repeat (apply Forall_cons; split; [done || apply Ho|]).
      apply Forall_nil_2. }
    do 6 eexists. split; [by apply parse_mac_text|]. done.
  - apply parse_mac_text.
  - intros gs Hlen Hgs. split; [by apply parse_groups_text|].
    apply Forall_fmap. eapply Forall_impl; [exact Hgs|].
    apply group_value_octet.
Qed.

Lemma hardware_address_witness :
  (exists b0 b1 b2 b3 b4 b5,
     parse_hw_addr (random_mac (fun i => 1000 + 77 * Z.of_nat i)) []
     = Some [b0; b1; b2; b3; b4; b5]
     /\ Z.testbit b0 0 = false /\ Z.testbit b0 1 = true
     /\ Forall octet [b0; b1; b2; b3; b4; b5])
  /\ parse_hw_addr (mac_text [184; 39; 235; 1; 2; 255]) []
     = Some [184; 39; 235; 1; 2; 255]
  /\ parse_hw_addr "B8:27:eb:0A:fF:00" [] = Some [184; 39; 235; 10; 255; 0].
Proof.
  destruct hardware_address as (H1 & H2 & H3). conjs.
  - apply (H1 (fun i => 1000 + 77 * Z.of_nat i)). intros i. lia.
  - apply (H2 [184; 39; 235; 1; 2; 255]); [reflexivity|].
    repeat (apply Forall_cons; split; [unfold octet; lia|]). apply Forall_nil_2.
  - refine (proj1 (H3 [("B", "8"); ("2", "7"); ("e", "b"); ("0", "A");
                       ("f", "F"); ("0", "0")]%char eq_refl _)).
    repeat (apply Forall_cons; split; [split; by eexists|]). apply Forall_nil_2.
Defined.


(** * Further properties of the validators *)

Section ValidatorBounds.

Lemma accum_nonneg s : forall acc, 0 <= acc -> 0 <= (C.accum 10 acc s).1.
Proof.
  induction s as [|c s IH]; intros acc Hacc; [done|]. simpl.
  destruct (C.digit_in 10 c) as [d|] eqn:Hd; [|done].
  apply digit_in_10_inv in Hd as [Hc ->]. apply IH.
  unfold isdigit in Hc. lia.
Qed.

Lemma strtoul_range s : 0 <= (C.strtoul s).1 < 2 ^ 64.
Proof.
  unfold C.strtoul, C.strtoul_gen, C.ULONG_BITS.
  destruct (C.scan 10 s) as [[[neg v] e]|] eqn:Hscan; [|simpl; lia].
  assert (0 <= v) as Hv.
  { unfold C.scan in Hscan.
    destruct (C.skip_space s) as [|c r]; [done|].
    destruct (if C.code c =? 45 then _ else _) as [neg' s2].
    change (10 =? 16) with false in Hscan. cbv iota in Hscan.
    destruct (C.starts_with_digit 10 s2); [|done].
    pose proof (accum_nonneg s2 0 ltac:(lia)) as Ha.
    destruct (C.accum 10 0 s2) as [v' e']. injection Hscan as _ <- _. done. }
  destruct (2 ^ 64 - 1 <? v) eqn:Hbig; [simpl; lia|].
  destruct neg; simpl; [apply Z.mod_pos_bound|]; lia.
Qed.

Lemma u16_range z : 0 <= C.u16 z <= 65535.
Proof. unfold C.u16. pose proof (Z.mod_pos_bound z 65536). lia. Qed.

Lemma read_port_range s l :
  read_port s = Some l -> LOWEST_ALLOWED_PORT <= l <= HIGHEST_PORT.
Proof.
  unfold read_port. destruct (_ || _); [done|].
  destruct (C.strtoul s) as [l' e]. destruct (_ || _) eqn:E; [done|].
  intros [= <-]. unfold LOWEST_ALLOWED_PORT, HIGHEST_PORT in *. lia.
Qed.

Lemma count_char_none c s :
  Str.find_first_of c s = None -> count_char c s = 0%nat.
Proof.
  induction s as [|a s IH]; [done|]. simpl.
  destruct (Str.eq_char a c); [done|].
  destruct (Str.find_first_of c s); [done|]. intros _. by rewrite IH.
Qed.

Lemma count_char_drop c s p :
  Str.find_first_of c s = Some p ->
  count_char c s = S (count_char c (Str.drop (S p) s)).
Proof.
  revert p. induction s as [|a s IH]; intros p; [done|]. simpl.
  destruct (Str.eq_char a c); [by intros [= <-]|].
  destruct (Str.find_first_of c s) as [q|]; [|done].
  intros [= <-]. by rewrite (IH q).
Qed.

End ValidatorBounds.

(** With a ceiling, what [get_value] stores is between 1 and the ceiling. *)
Lemma get_value_range str n :
  0 < n < 2 ^ 32 ->
  get_value str n = (false, n)
  \/ exists v, get_value str n = (true, v) /\ 1 <= v <= n.
Proof.
  intros Hn. unfold get_value. destruct (_ || _); [by left|].
  pose proof (strtoul_range str) as Hl.
  destruct (C.strtoul str) as [l e]. simpl in Hl.
  destruct (_ || _) eqn:E; [by left|]. right. exists (C.u32 l).
  split; [done|]. unfold C.u32. rewrite Z.mod_small by lia. lia.
Qed.

(** X1.  Whatever the string, [get_value] with a ceiling [n] either fails
    and leaves [n] as it was, or stores a value between 1 and [n]. *)
Theorem get_value_bounded str n :
  0 < n < 2 ^ 32 ->
  get_value str n = (false, n)
  \/ exists v, get_value str n = (true, v) /\ 1 <= v <= n.
Proof. apply get_value_range. Qed.

Lemma get_value_bounded_witness :
  get_value "24" 255 = (false, 255)
  \/ exists v, get_value "24" 255 = (true, v) /\ 1 <= v <= 255.
Proof. apply (get_value_bounded "24" 255). lia. Defined.

(** When [get_display_settings] succeeds, what it stored fits the cells:
    width and height are not zero, and the refresh rate is either left as
    it was or between 1 and 255. *)
Lemma get_display_settings_bounded value w h r w' h' r' :
  get_display_settings value w h r = (true, (w', h', r')) ->
  1 <= w' <= 65535 /\ 1 <= h' <= 65535 /\ (r' = r \/ 1 <= r' <= 255).
Proof.
  unfold get_display_settings.
  destruct (Str.find_first_of "x" value) as [pos|]; [|intros [=]].
  destruct (_ || _); [intros [=]|].
  destruct (C.strtoul (Str.take pos value)) as [l e].
  pose proof (u16_range l) as Hw.
  destruct (unread e || (C.u16 l =? 0)) eqn:E1; [intros [=]|].
  assert (forall s r0,
     (if (Str.len s =? 0) || (4 <? Str.len s) || Str.first_is "-" s
      then (false, (C.u16 l, h, r0))
      else
        let '(l1, e1) := C.strtoul s in
        if unread e1 || (C.u16 l1 =? 0) then (false, (C.u16 l, C.u16 l1, r0))
        else (true, (C.u16 l, C.u16 l1, r0))) = (true, (w', h', r')) ->
     1 <= w' <= 65535 /\ 1 <= h' <= 65535 /\ r' = r0) as Htail.
  { intros s r0.
    destruct ((Str.len s =? 0) || (4 <? Str.len s) || Str.first_is "-" s);
      [intros [=]|].
    destruct (C.strtoul s) as [l1 e1]. pose proof (u16_range l1).
    destruct (unread e1 || (C.u16 l1 =? 0)) eqn:E2; [intros [=]|].
    intros [= <- <- <-]. lia. }
  destruct (Str.find_first_of "@" (Str.drop (S pos) value)) as [pos2|].
  - cbv zeta.
    destruct ((Str.len (Str.drop (S pos2) (Str.drop (S pos) value)) =? 0)
              || (3 <? Str.len (Str.drop (S pos2) (Str.drop (S pos) value)))
              || Str.first_is "-" (Str.drop (S pos2) (Str.drop (S pos) value)));
      [intros [=]|].
    destruct (C.strtoul (Str.drop (S pos2) (Str.drop (S pos) value)))
      as [l2 e2]. pose proof (u16_range l2).
    destruct (unread e2 || (C.u16 l2 =? 0) || (255 <? C.u16 l2)) eqn:E3;
      [intros [=]|].
    intros H'. apply Htail in H' as (? & ? & ->). split; [done|].
    split; [done|]. right. lia.
  - intros H'. apply Htail in H' as (? & ? & ->). auto.
Qed.

Section MinusFree.

Lemma accum_bound s : forall acc,
  0 <= acc -> (C.accum 10 acc s).1 < (acc + 1) * 10 ^ Str.len s.
Proof.
  induction s as [|c s IH]; intros acc Hacc.
  - change (Str.len "") with 0. simpl. lia.
  - simpl. rewrite len_cons.
    pose proof (len_nonneg s).
    assert (0 < 10 ^ Str.len s) by (apply Z.pow_pos_nonneg; lia).
    rewrite Z.pow_add_r by lia.
    destruct (C.digit_in 10 c) as [d|] eqn:Hd.
    + apply digit_in_10_inv in Hd as [Hc ->]. unfold isdigit in Hc.
      specialize (IH (acc * 10 + (C.code c - 48)) ltac:(lia)). nia.
    + simpl. nia.
Qed.

Lemma len_skip_space s : Str.len (C.skip_space s) <= Str.len s.
Proof.
  induction s as [|c s IH]; [done|]. simpl.
  destruct (C.isspace c); [|lia]. rewrite len_cons. lia.
Qed.

Lemma lacks_skip_space c s : lacks c s = true -> lacks c (C.skip_space s) = true.
Proof.
  induction s as [|a s IH]; [done|]. simpl.
  destruct (C.isspace a); [|done]. intros [_ ?]%andb_prop. auto.
Qed.

Lemma lacks_take c n : forall s, lacks c s = true -> lacks c (Str.take n s) = true.
Proof.
  induction n as [|n IH]; intros [|a s]; try done. simpl.
  intros [-> ?]%andb_prop. simpl. auto.
Qed.

Lemma lacks_drop c n : forall s, lacks c s = true -> lacks c (Str.drop n s) = true.
Proof.
  induction n as [|n IH]; intros [|a s]; try done. simpl.
  intros [_ ?]%andb_prop. auto.
Qed.

(** Without a minus sign, [strtoul] reads less than ten to the length. *)
Lemma strtoul_minus_free s :
  lacks "-" s = true -> Str.len s <= 18 ->
  0 <= (C.strtoul s).1 < 10 ^ Str.len s.
Proof.
  intros Hm Hlen. pose proof (len_nonneg s).
  assert (0 < 10 ^ Str.len s) by (apply Z.pow_pos_nonneg; lia).
  unfold C.strtoul, C.strtoul_gen, C.ULONG_BITS.
  destruct (C.scan 10 s) as [[[neg v] e]|] eqn:Hscan; [|simpl; lia].
  assert (neg = false /\ 0 <= v < 10 ^ Str.len s) as [-> Hv].
  { unfold C.scan in Hscan. pose proof (len_skip_space s) as Hsk.
    apply (lacks_skip_space "-") in Hm.
    destruct (C.skip_space s) as [|c r]; [done|].
    rewrite len_cons in Hsk. pose proof (len_nonneg r).
    assert (forall neg' s2, Str.len s2 <= Str.len s ->
              (let s3 := if 10 =? 16 then C.skip_hex_prefix s2 else s2 in
               if C.starts_with_digit 10 s3
               then let '(v, e) := C.accum 10 0 s3 in Some (neg', v, e)
               else None) = Some (neg, v, e) ->
              neg = neg' /\ 0 <= v < 10 ^ Str.len s) as Hk.
    { intros neg' s2 Hl. change (10 =? 16) with false. cbv zeta iota.
      destruct (C.starts_with_digit 10 s2); [|done].
      pose proof (accum_nonneg s2 0 ltac:(lia)).
      pose proof (accum_bound s2 0 ltac:(lia)).
      destruct (C.accum 10 0 s2) as [v' e']. intros [= <- <- <-].
      split; [done|]. simpl in *.
      assert (10 ^ Str.len s2 <= 10 ^ Str.len s)
        by (apply Z.pow_le_mono_r; pose proof (len_nonneg s2); lia).
      lia. }
    simpl in Hm. apply andb_prop in Hm as [Hc _].
    apply negb_true_iff in Hc. unfold Str.eq_char in Hc.
    apply Ascii.eqb_neq in Hc.
    destruct (C.code c =? 45) eqn:H45.
    - exfalso. apply Hc. apply Z.eqb_eq in H45. unfold C.code in H45.
      rewrite <- (ascii_N_embedding c).
      replace (N_of_ascii c) with 45%N by lia. reflexivity.
    - destruct (C.code c =? 43).
      + apply (Hk false r) in Hscan; [done|lia].
      + apply (Hk false (String c r)) in Hscan; [done|].
        rewrite len_cons. lia. }
  assert (10 ^ Str.len s <= 10 ^ 18) by (apply Z.pow_le_mono_r; lia).
  assert ((2 ^ 64 - 1 <? v) = false) as -> by lia. simpl. lia.
Qed.

End MinusFree.

(** X2.  For a string without a minus sign, an accepted width and height
    are at most 9999 (the limit the diagnostic of [-s] names). *)
Theorem get_display_settings_four_digits value w h r w' h' r' :
  lacks "-" value = true ->
  get_display_settings value w h r = (true, (w', h', r')) ->
  1 <= w' <= 9999 /\ 1 <= h' <= 9999.
Proof.
  intros Hm. unfold get_display_settings.
  destruct (Str.find_first_of "x" value) as [pos|]; [|intros [=]].
  assert (forall s, lacks "-" s = true ->
            ((Str.len s =? 0) || (4 <? Str.len s) || Str.first_is "-" s) = false ->
            C.u16 (C.strtoul s).1 = (C.strtoul s).1
            /\ 0 <= (C.strtoul s).1 <= 9999) as Hseg.
  { intros s Hs Hg. pose proof (strtoul_minus_free s Hs ltac:(lia)) as Hb.
    assert (10 ^ Str.len s <= 10 ^ 4)
      by (apply Z.pow_le_mono_r; pose proof (len_nonneg s); lia).
    rewrite u16_small by lia. lia. }
  set (a := Str.take pos value). set (b := Str.drop (S pos) value).
  assert (lacks "-" a = true) as Ha by (by apply lacks_take).
  assert (lacks "-" b = true) as Hb by (by apply lacks_drop).
  destruct ((Str.len a =? 0) || (4 <? Str.len a) || Str.first_is "-" a) eqn:Ga;
    [intros [=]|].
  destruct (Hseg a Ha Ga) as [Ea Ra].
  destruct (C.strtoul a) as [l e]. simpl in Ea, Ra. rewrite Ea.
  destruct (unread e || (l =? 0)) eqn:E1; [intros [=]|].
  assert (forall s r0, lacks "-" s = true ->
     (if (Str.len s =? 0) || (4 <? Str.len s) || Str.first_is "-" s
      then (false, (l, h, r0))
      else
        let '(l1, e1) := C.strtoul s in
        if unread e1 || (C.u16 l1 =? 0) then (false, (l, C.u16 l1, r0))
        else (true, (l, C.u16 l1, r0))) = (true, (w', h', r')) ->
     1 <= w' <= 9999 /\ 1 <= h' <= 9999) as Htail.
  { intros s r0 Hs.
    destruct ((Str.len s =? 0) || (4 <? Str.len s) || Str.first_is "-" s)
      eqn:Gs; [intros [=]|].
    destruct (Hseg s Hs Gs) as [Es Rs].
    destruct (C.strtoul s) as [l1 e1]. simpl in Es, Rs. rewrite Es.
    destruct (unread e1 || (l1 =? 0)) eqn:E2; [intros [=]|].
    intros [= <- <- <-]. lia. }
  destruct (Str.find_first_of "@" b) as [pos2|].
  - cbv zeta.
    destruct ((Str.len (Str.drop (S pos2) b) =? 0)
              || (3 <? Str.len (Str.drop (S pos2) b))
              || Str.first_is "-" (Str.drop (S pos2) b)); [intros [=]|].
    destruct (C.strtoul (Str.drop (S pos2) b)) as [l2 e2].
    destruct (unread e2 || (C.u16 l2 =? 0) || (255 <? C.u16 l2));
      [intros [=]|].
    apply Htail. by apply lacks_take.
  - by apply Htail.
Qed.

Lemma get_display_settings_four_digits_witness :
  1 <= 1920 <= 9999 /\ 1 <= 1080 <= 9999.
Proof.
  exact (get_display_settings_four_digits "1920x1080" 0 0 0 1920 1080 0
           eq_refl eq_refl).
Defined.

(** What [get_ports] stores on success are ports of the allowed range. *)
Lemma get_ports_range value a b c port :
  get_ports 3 value [a; b; c] = (true, port) ->
  exists p0 p1 p2,
    port = [p0; p1; p2]
    /\ LOWEST_ALLOWED_PORT <= p0 <= HIGHEST_PORT
    /\ LOWEST_ALLOWED_PORT <= p1 <= HIGHEST_PORT
    /\ LOWEST_ALLOWED_PORT <= p2 <= HIGHEST_PORT.
Proof.
  unfold get_ports. rewrite get_ports_loop_step. cbv zeta.
  destruct (read_port _) as [l0|] eqn:R0; [|intros [=]].
  apply read_port_range in R0.
  unfold LOWEST_ALLOWED_PORT, HIGHEST_PORT in *.
  rewrite (u16_small l0) by lia.
  destruct (Str.find_first_of "," value) as [p|].
  2: { cbn. destruct (_ <? _) eqn:E; [intros [=]|]. intros [= <-].
       rewrite !u16_small by lia. do 3 eexists. split; [done|]. lia. }
  rewrite get_ports_loop_step. cbv zeta.
  destruct (read_port _) as [l1|] eqn:R1; [|intros [=]].
  apply read_port_range in R1.
  unfold LOWEST_ALLOWED_PORT, HIGHEST_PORT in *.
  rewrite (u16_small l1) by lia.
  destruct (Str.find_first_of "," (Str.drop (S p) value)) as [q|].
  2: { cbn. destruct (_ <? _) eqn:E; [intros [=]|]. intros [= <-].
       rewrite !u16_small by lia. do 3 eexists. split; [done|]. lia. }
  rewrite get_ports_loop_step. cbv zeta.
  destruct (read_port _) as [l2|] eqn:R2; [|intros [=]].
  apply read_port_range in R2.
  unfold LOWEST_ALLOWED_PORT, HIGHEST_PORT in *.
  rewrite (u16_small l2) by lia.
  destruct (Str.find_first_of "," _) as [q'|]; [intros [=]|].
  cbn. destruct (_ <? _) eqn:E; [intros [=]|]. intros [= <-].
  do 3 eexists. split; [done|]. lia.
Qed.

(** X3.  Whatever the string, when [get_ports] succeeds on a three-cell
    array every cell holds a port between 1024 and 65535, the filled cells
    included. *)
Theorem get_ports_in_range value a b c port :
  get_ports 3 value [a; b; c] = (true, port) ->
  exists p0 p1 p2,
    port = [p0; p1; p2]
    /\ LOWEST_ALLOWED_PORT <= p0 <= HIGHEST_PORT
    /\ LOWEST_ALLOWED_PORT <= p1 <= HIGHEST_PORT
    /\ LOWEST_ALLOWED_PORT <= p2 <= HIGHEST_PORT.
Proof. apply get_ports_range. Qed.

Lemma get_ports_in_range_witness :
  exists p0 p1 p2,
    [65533; 65534; 65535] = [p0; p1; p2]
    /\ LOWEST_ALLOWED_PORT <= p0 <= HIGHEST_PORT
    /\ LOWEST_ALLOWED_PORT <= p1 <= HIGHEST_PORT
    /\ LOWEST_ALLOWED_PORT <= p2 <= HIGHEST_PORT.
Proof.
  exact (get_ports_in_range "65533" 7 8 9 [65533; 65534; 65535] eq_refl).
Defined.

(** X4.  A string with three or more commas, that is with more than three
    values or with a comma after the third, is turned down. *)
Theorem get_ports_too_many value port :
  (3 <= count_char "," value)%nat ->
  (get_ports 3 value port).1 = false.
Proof.
  intros Hn. unfold get_ports. rewrite get_ports_loop_step. cbv zeta.
  destruct (Str.find_first_of "," value) as [p|] eqn:F0;
    [|apply count_char_none in F0; lia].
  apply count_char_drop in F0.
  destruct (read_port _); [|done].
  rewrite get_ports_loop_step. cbv zeta.
  destruct (Str.find_first_of "," (Str.drop (S p) value)) as [q|] eqn:F1;
    [|apply count_char_none in F1; lia].
  apply count_char_drop in F1.
  destruct (read_port _); [|done].
  rewrite get_ports_loop_step. cbv zeta.
  destruct (Str.find_first_of "," (Str.drop (S q) (Str.drop (S p) value)))
    as [q'|] eqn:F2; [|apply count_char_none in F2; lia].
  by destruct (read_port _).
Qed.

Lemma get_ports_too_many_witness :
  (get_ports 3 "7000,7001,7002," [0; 0; 0]).1 = false.
Proof. apply (get_ports_too_many "7000,7001,7002," [0; 0; 0]). simpl. lia. Defined.

(** * Further properties of the argument loop *)

Section ArgumentLoop.

Lemma get_videoflip_values str old f :
  get_videoflip str old = (true, f) -> f = INVERT \/ f = HFLIP \/ f = VFLIP.
Proof.
  unfold get_videoflip. destruct (1 <? Str.len str); [done|].
  destruct (Str.first_is "I" str); [intros [= <-]; auto|].
  destruct (Str.first_is "H" str); [intros [= <-]; auto|].
  destruct (Str.first_is "V" str); [intros [= <-]; auto|done].
Qed.

Lemma get_videorotate_values str old f :
  get_videorotate str old = (true, f) -> f = LEFT \/ f = RIGHT.
Proof.
  unfold get_videorotate. destruct (1 <? Str.len str); [done|].
  destruct (Str.first_is "L" str); [intros [= <-]; auto|].
  destruct (Str.first_is "R" str); [intros [= <-]; auto|done].
Qed.

Lemma get_value_u32 str n :
  0 <= n < 2 ^ 32 -> 0 <= (get_value str n).2 < 2 ^ 32.
Proof.
  intros Hn. unfold get_value. destruct (_ || _); [done|].
  destruct (C.strtoul str) as [l e]. destruct (_ || _); [done|].
  simpl. unfold C.u32. apply Z.mod_pos_bound. lia.
Qed.

Lemma asks_help_cons a args : asks_help args -> asks_help (a :: args).
Proof. unfold asks_help. simpl. tauto. Qed.

Lemma fair_weaken a args c c1 res :
  (valid_config c -> valid_config c1) -> fair args c1 res -> fair (a :: args) c res.
Proof.
  intros Hc. destruct res as [c'|n|]; simpl; [tauto| |done].
  intros [?|[? ?]]; [by left|right]. split; [done|]. by apply asks_help_cons.
Qed.

Lemma port_cell_range p :
  LOWEST_ALLOWED_PORT <= p <= HIGHEST_PORT -> port_cell p.
Proof. by right. Qed.

Lemma valid_legacy c : valid_config c -> valid_config (legacy_ports c).
Proof.
  intros (Hd & (p0 & p1 & p2 & Ht & _) & (q0 & q1 & q2 & Hu & _) & Hf & Hto).
  unfold valid_config, legacy_ports. cbn [display tcp udp videoflip
    server_timeout set_udp set_tcp]. rewrite Ht, Hu.
  split; [done|]. split; [|split; [|done]].
  - exists 7100, 7000, 7001. split; [done|].
    unfold port_cell, LOWEST_ALLOWED_PORT, HIGHEST_PORT. lia.
  - exists 7011, 6001, 6000. split; [done|].
    unfold port_cell, LOWEST_ALLOWED_PORT, HIGHEST_PORT. lia.
Qed.

Lemma parse_args_fair n : forall args c,
  (length args <= n)%nat -> fair args c (parse_args args c).
Proof.
  induction n as [|n IH]; intros [|arg rest] c Hlen;
    try (simpl; tauto); try (simpl in Hlen; lia).
  cbn [parse_args].
  destruct (is_flag arg "-n").
  { destruct rest as [|v rest']; [by left|]. cbn [option_has_value].
    destruct (negb _); [by left|].
    apply (fair_weaken _ _ _ (set_server_name v c)); [done|].
    apply fair_weaken with (c1 := set_server_name v c); [done|].
    apply IH. simpl in Hlen |- *. lia. }
  destruct (is_flag arg "-s").
  { destruct rest as [|v rest']; [by left|]. cbn [option_has_value].
    destruct (negb _); [by left|].
    destruct (get_display_settings v _ _ _) as [ok [[w h] r]] eqn:G.
    destruct ok; [|by left].
    apply get_display_settings_bounded in G as (Hw & Hh & Hr).
    apply fair_weaken with
      (c1 := set_display (<[2%nat:=r]> (<[1%nat:=h]> (<[0%nat:=w]> (display c)))) c).
    2: { apply fair_weaken with
      (c1 := set_display (<[2%nat:=r]> (<[1%nat:=h]> (<[0%nat:=w]> (display c)))) c);
         [done|]. apply IH. simpl in Hlen |- *. lia. }
    intros ((w0 & h0 & r0 & fps & o & Hd & ? & ? & ? & ? & ?) & Hrest).
    split; [|exact Hrest]. rewrite Hd in *. cbn in Hr |- *.
    exists w, h, r, fps, o. split; [done|].
    destruct Hr as [->|Hr]; lia. }
  destruct (is_flag arg "-fps").
  { destruct rest as [|v rest']; [by left|]. cbn [option_has_value].
    destruct (negb _); [by left|].
    destruct (get_value_range v 255 ltac:(lia)) as [->|(m & -> & Hm)];
      [by left|].
    apply fair_weaken with
      (c1 := set_display (<[3%nat:=C.u16 m]> (display c)) c).
    2: { apply fair_weaken with
      (c1 := set_display (<[3%nat:=C.u16 m]> (display c)) c); [done|].
         apply IH. simpl in Hlen |- *. lia. }
    intros ((w0 & h0 & r0 & fps & o & Hd & ? & ? & ? & ? & ?) & Hrest).
    split; [|exact Hrest]. rewrite Hd. cbn.
    exists w0, h0, r0, (C.u16 m), o. split; [done|].
    rewrite u16_small by lia. lia. }
  destruct (is_flag arg "-o").
  { apply fair_weaken with (c1 := set_display (<[4%nat:=1]> (display c)) c);
      [|apply IH; simpl in *; lia].
    intros ((w0 & h0 & r0 & fps & o & Hd & ? & ? & ? & ? & ?) & Hrest).
    split; [|exact Hrest]. rewrite Hd. cbn.
    exists w0, h0, r0, fps, 1. split; [done|]. lia. }
  destruct (is_flag arg "-f").
  { destruct rest as [|v rest']; [by left|]. cbn [option_has_value].
    destruct (negb _); [by left|].
    destruct (get_videoflip v _) as [ok f] eqn:G. destruct ok; [|by left].
    apply get_videoflip_values in G.
    apply fair_weaken with
      (c1 := set_videoflip (<[0%nat:=f]> (videoflip c)) c).
    2: { apply fair_weaken with
      (c1 := set_videoflip (<[0%nat:=f]> (videoflip c)) c); [done|].
         apply IH. simpl in Hlen |- *. lia. }
    intros (Hd & Ht & Hu & (f0 & r0 & Hf & ? & ?) & Hto).
    split; [done|]. split; [done|]. split; [done|]. split; [|done].
    cbn [videoflip set_videoflip]. rewrite Hf. cbn.
    exists f, r0. split; [done|]. split; [tauto|done]. }
  destruct (is_flag arg "-r").
  { destruct rest as [|v rest']; [by left|]. cbn [option_has_value].
    destruct (negb _); [by left|].
    destruct (get_videorotate v _) as [ok f] eqn:G. destruct ok; [|by left].
    apply get_videorotate_values in G.
    apply fair_weaken with
      (c1 := set_videoflip (<[1%nat:=f]> (videoflip c)) c).
    2: { apply fair_weaken with
      (c1 := set_videoflip (<[1%nat:=f]> (videoflip c)) c); [done|].
         apply IH. simpl in Hlen |- *. lia. }
    intros (Hd & Ht & Hu & (f0 & r0 & Hf & ? & ?) & Hto).
    split; [done|]. split; [done|]. split; [done|]. split; [|done].
    cbn [videoflip set_videoflip]. rewrite Hf. cbn.
    exists f0, f. split; [done|]. split; [done|tauto]. }
  destruct (is_flag arg "-p").
  { destruct rest as [|value rest']; [exact (valid_legacy c)|].
    destruct (Str.first_is "-" value).
    { apply fair_weaken with (c1 := legacy_ports c); [apply valid_legacy|].
      apply IH. simpl in Hlen |- *. lia. }
    destruct (is_flag value "tcp").
    { destruct rest' as [|v rest'']; [done|].
      destruct (get_ports 3 v (tcp c)) as [ok port] eqn:G.
      destruct ok; [|by left].
      apply fair_weaken with (c1 := set_tcp port c).
      2: { apply fair_weaken with (c1 := set_tcp port c); [done|].
           apply fair_weaken with (c1 := set_tcp port c); [done|].
           apply IH. simpl in Hlen |- *. lia. }
      intros (Hd & (p0 & p1 & p2 & Ht & _) & Hu & Hf & Hto).
      rewrite Ht in G. apply get_ports_range in G as (q0 & q1 & q2 & -> & ? & ? & ?).
      split; [done|]. split; [|done].
      exists q0, q1, q2. split; [done|]. by repeat split; apply port_cell_range. }
    destruct (is_flag value "udp").
    { destruct rest' as [|v rest'']; [done|].
      destruct (get_ports 3 v (udp c)) as [ok port] eqn:G.
      destruct ok; [|by left].
      apply fair_weaken with (c1 := set_udp port c).
      2: { apply fair_weaken with (c1 := set_udp port c); [done|].
           apply fair_weaken with (c1 := set_udp port c); [done|].
           apply IH. simpl in Hlen |- *. lia. }
      intros (Hd & Ht & (p0 & p1 & p2 & Hu & _) & Hf & Hto).
      rewrite Hu in G. apply get_ports_range in G as (q0 & q1 & q2 & -> & ? & ? & ?).
      split; [done|]. split; [done|]. split; [|done].
      exists q0, q1, q2. split; [done|]. by repeat split; apply port_cell_range. }
    destruct (get_ports 3 value (tcp c)) as [ok port] eqn:G.
    destruct ok; [|by left].
    apply fair_weaken with
      (c1 := set_udp (copy_ports port (udp c)) (set_tcp port c)).
    2: { apply fair_weaken with
      (c1 := set_udp (copy_ports port (udp c)) (set_tcp port c)); [done|].
         apply IH. simpl in Hlen |- *. lia. }
    intros (Hd & (p0 & p1 & p2 & Ht & _) & (u0 & u1 & u2 & Hu & Hu0 & _) & Hf & Hto).
    rewrite Ht in G. apply get_ports_range in G as (q0 & q1 & q2 & -> & ? & ? & ?).
    split; [done|]. split; [|split; [|done]].
    - exists q0, q1, q2. split; [done|]. by repeat split; apply port_cell_range.
    - cbn [udp set_udp set_tcp]. rewrite Hu. cbn.
      exists u0, q1, q2. split; [done|].
      split; [done|]. by split; apply port_cell_range. }
  destruct (is_flag arg "-m").
  { apply fair_weaken with (c1 := set_use_random_hw_addr true c); [done|].
    apply IH. simpl in Hlen |- *. lia. }
  destruct (is_flag arg "-a").
  { apply fair_weaken with (c1 := set_use_audio false c); [done|].
    apply IH. simpl in Hlen |- *. lia. }
  destruct (is_flag arg "-d").
  { apply fair_weaken with (c1 := set_debug_log (negb (debug_log c)) c);
      [done|]. apply IH. simpl in Hlen |- *. lia. }
  destruct (is_flag arg "-h" || is_flag arg "-v") eqn:Eh.
  { right. split; [done|]. unfold is_flag in Eh.
    apply orb_prop in Eh as [->%String.eqb_eq| ->%String.eqb_eq];
      [left|right]; by left. }
  destruct (is_flag arg "-vs").
  { destruct rest as [|v rest']; [by left|]. cbn [option_has_value].
    destruct (negb _); [by left|].
    apply fair_weaken with (c1 := set_videosink v c); [done|].
    apply fair_weaken with (c1 := set_videosink v c); [done|].
    apply IH. simpl in Hlen |- *. lia. }
  destruct (is_flag arg "-as").
  { destruct rest as [|v rest']; [by left|]. cbn [option_has_value].
    destruct (negb _); [by left|].
    apply fair_weaken with (c1 := set_audiosink v c); [done|].
    apply fair_weaken with (c1 := set_audiosink v c); [done|].
    apply IH. simpl in Hlen |- *. lia. }
  destruct (is_flag arg "-t").
  { destruct rest as [|v rest']; [by left|]. cbn [option_has_value].
    destruct (negb _); [by left|].
    pose proof (get_value_u32 v 0 ltac:(lia)) as Hn.
    destruct (get_value v 0) as [ok m]. simpl in Hn.
    apply fair_weaken with (c1 := set_server_timeout m c).
    2: { apply fair_weaken with (c1 := set_server_timeout m c); [done|].
         apply IH. simpl in Hlen |- *. lia. }
    intros (Hd & Ht & Hu & Hf & Hto). done. }
  by left.
Qed.

End ArgumentLoop.

Lemma initial_config_valid : valid_config initial_config.
Proof.
  unfold valid_config, port_cell. simpl. split.
  { exists 0, 0, 0, 0, 0. split; [done|]. lia. }
  split; [exists 0, 0, 0; auto|]. split; [exists 0, 0, 0; auto|].
  split; [exists NONE, NONE; auto|]. lia.
Qed.

(** X5.  The argument loop keeps the configuration well formed: if it falls
    through, [display] still has five cells with width and height below
    65536, refresh rate and frame rate at most 255 and the overscan flag 0
    or 1, [tcp] and [udp] have three cells that are 0 or ports between 1024
    and 65535, the flip is none, H, V or I and the rotation none, L or R,
    and the timeout fits 32 bits. *)
Theorem parse_args_valid args c c' :
  valid_config c -> parse_args args c = Parsed c' -> valid_config c'.
Proof.
  intros Hc Hp.
  pose proof (parse_args_fair (length args) args c (Nat.le_refl _)) as Hf.
  rewrite Hp in Hf. by apply Hf.
Qed.

Lemma parse_args_valid_witness :
  valid_config
    {| server_name := "UxPlay"; use_audio := true;
       use_random_hw_addr := false; debug_log := false;
       display := [1280; 720; 30; 24; 0];
       tcp := [0; 0; 0];
       udp := [0; 0; 0];
       videoflip := [NONE; NONE];
       videosink := "autovideosink"; audiosink := "autoaudiosink";
       server_timeout := 5 |}.
Proof.
  apply (parse_args_valid
           ["-s"; "1280x720@30"; "-fps"; "24"; "-t"; "5"]
           initial_config).
  - exact initial_config_valid.
  - vm_compute. reflexivity.
Defined.



(** X7.  Each of [-n], [-s], [-fps], [-f], [-r], [-vs], [-as] and [-t] ends
    the process with status 1 when it is the last argument or when the next
    argument starts with a minus sign: a value never starts with one, and
    the next flag is never taken as a value. *)
Theorem missing_value_exits flag rest c :
  In flag value_flags -> bare rest = true ->
  parse_args (flag :: rest) c = Exit 1.
Proof.
  intros Hflag Hb.
  assert (rest = [] \/ exists v rest', rest = String "-" v :: rest') as Hrest.
  { destruct rest as [|[|ch v] rest']; [by left|done|right].
    cbn [bare Str.first_is] in Hb. apply Ascii.eqb_eq in Hb. subst ch.
    by do 2 eexists. }
  unfold value_flags in Hflag. simpl in Hflag.
  destruct Hflag as [<-|[<-|[<-|[<-|[<-|[<-|[<-|[<-|[]]]]]]]]];
    destruct Hrest as [->|(v & rest' & ->)]; reflexivity.
Qed.

Lemma missing_value_exits_witness :
  parse_args ["-n"; "-d"] initial_config = Exit 1.
Proof.
  apply (missing_value_exits "-n" ["-d"] initial_config).
  - simpl. auto.
  - reflexivity.
Defined.

(** X8.  [get_videoflip] accepts exactly the one-character strings I, H and
    V and [get_videorotate] exactly L and R; on any other string they fail
    and leave the cell as it was. *)
Theorem flip_and_rotate_letters str old :
  (get_videoflip str old = (true, INVERT) <-> str = "I")
  /\ (get_videoflip str old = (true, HFLIP) <-> str = "H")
  /\ (get_videoflip str old = (true, VFLIP) <-> str = "V")
  /\ (get_videorotate str old = (true, LEFT) <-> str = "L")
  /\ (get_videorotate str old = (true, RIGHT) <-> str = "R")
  /\ (str <> "I" -> str <> "H" -> str <> "V" ->
      get_videoflip str old = (false, old))
  /\ (str <> "L" -> str <> "R" -> get_videorotate str old = (false, old)).
Proof.
  assert (forall (c : ascii) s, Str.len s <= 1 -> Str.first_is c s = true ->
            s = String c "") as Hone.
  { intros c [|a [|b s]] Hl Hf; [done| |].
    - simpl in Hf. apply Ascii.eqb_eq in Hf. by subst.
    - rewrite !len_cons in Hl. pose proof (len_nonneg s). lia. }
  unfold get_videoflip, get_videorotate.
  destruct (1 <? Str.len str) eqn:Hlen.
  - conjs;
      try (split; [intros [=]|intros ->; vm_compute in Hlen; discriminate]);
      done.
  - apply Z.ltb_ge in Hlen.
    destruct (Str.first_is "I" str) eqn:EI;
      [apply Hone in EI; [subst|done]; conjs; done|].
    destruct (Str.first_is "H" str) eqn:EH;
      [apply Hone in EH; [subst|done]; conjs; done|].
    destruct (Str.first_is "V" str) eqn:EV;
      [apply Hone in EV; [subst|done]; simpl; conjs; done|].
    destruct (Str.first_is "L" str) eqn:EL;
      [apply Hone in EL; [subst|done]; simpl; conjs; done|].
    destruct (Str.first_is "R" str) eqn:ER;
      [apply Hone in ER; [subst|done]; simpl; conjs; done|].
    conjs; try done; (split; [intros [=]|intros ->; done]).
Qed.

Lemma flip_and_rotate_letters_witness :
  get_videoflip "HV" NONE = (false, NONE)
  /\ get_videorotate "" LEFT = (false, LEFT).
Proof.
  destruct (flip_and_rotate_letters "HV" NONE) as (_ & _ & _ & _ & _ & H1 & _).
  destruct (flip_and_rotate_letters "" LEFT) as (_ & _ & _ & _ & _ & _ & H2).
  split; [apply H1|apply H2]; discriminate.
Defined.

(** * Further properties of the main loop *)

Section MainLoop.

Lemma run_no_signal t evs : forall s,
  has_signal evs = false ->
  relaunch_server (g_main_loop_run t evs s).1 = relaunch_server s.
Proof.
  induction evs as [|e evs IH]; intros s Hs; [done|].
  cbn [g_main_loop_run]. destruct e; cbn [has_signal] in Hs; try done.
  - destruct (t =? 0); [by apply IH|]. unfold connection_callback.
    destruct (connections_stopped s); cbn [negb].
    + destruct (counter _ =? t); [done|]. by rewrite IH.
    + by rewrite IH.
  - by rewrite IH.
  - rewrite IH by done. unfold conn_destroy. simpl. by destruct (_ =? 0).
Qed.

End MainLoop.

(** The main loop on two lists of events in a row. *)
Lemma main_loop_split t evs1 evs2 s :
  main_loop t (evs1 ++ evs2) s =
  if (main_loop t evs1 s).2 then main_loop t evs1 s
  else g_main_loop_run t evs2 (main_loop t evs1 s).1.
Proof. rewrite !main_loop_run. apply run_app. Qed.


(** X10.  Whatever happened before, a SIGINT or SIGTERM that reaches the
    running loop quits it with [relaunch_server] cleared, and nothing that
    follows is dispatched. *)
Theorem signal_stops_without_relaunch t evs more s :
  (main_loop t evs s).2 = false ->
  main_loop t (evs ++ SIGINT :: more) s
  = (set_relaunch_server false (main_loop t evs s).1, true)
  /\ main_loop t (evs ++ SIGTERM :: more) s
     = (set_relaunch_server false (main_loop t evs s).1, true).
Proof.
  intros Hq. rewrite !main_loop_split, Hq. done.
Qed.

Lemma signal_stops_without_relaunch_witness :
  relaunch_server
    (main_loop 3 ([ConnInit; ConnDestroy; Tick; Tick] ++ SIGINT :: [Tick; Tick])
       initial_state).1 = false.
Proof.
  pose proof (signal_stops_without_relaunch 3 [ConnInit; ConnDestroy; Tick; Tick]
                [Tick; Tick] initial_state eq_refl) as [H _].
  rewrite H. reflexivity.
Defined.





(** * Further properties of the lifecycle *)

(** The status of [start_server] is [start_status]. *)
Lemma start_server_returns env hw name display tcp udp vf ua dl vs au s :
  (start_server env hw name display tcp udp vf ua dl vs au s).1.1
  = start_status env ua au.
Proof.
  unfold start_server, start_status, create. destruct env as [r l v a d p].
  cbn [raop_init_ok logger_init_ok video_renderer_init_ok
       audio_renderer_init_ok dnssd_init_ok bound_port].
  generalize (is_flag vs "0") (is_flag au "0"). intros bv ba.
  destruct r; [|reflexivity].
  destruct bv, l; try reflexivity; destruct v; try reflexivity;
    destruct ba, ua, a; try reflexivity; destruct d; reflexivity.
Qed.

(** X13.  The status of [start_server] depends on what the subsystems answer
    and on whether audio is asked for, and on nothing else: -1 when the
    protocol engine, the logger, the video renderer or the audio renderer
    cannot be created (the audio renderer only when [use_audio] is set and
    the audio sink is not ["0"]), -2 when the service discovery cannot, and
    0 otherwise. *)
Theorem start_server_status env hw name display tcp udp vf ua dl vs au s :
  (start_server env hw name display tcp udp vf ua dl vs au s).1.1
  = start_status env ua au.
Proof. apply start_server_returns. Qed.

Section ExitStatus.

Lemma quit_without_relaunch t evs s :
  (main_loop t evs s).2 = true ->
  relaunch_server (main_loop t evs s).1 = false ->
  has_signal evs = true.
Proof.
  intros _ Hr. destruct (has_signal evs) eqn:Hs; [done|].
  rewrite main_loop_run, run_no_signal in Hr by done. done.
Qed.

Lemma relaunch_status runs hw ua au : forall c s started,
  use_audio c = ua -> audiosink c = au ->
  (exit_status (relaunch runs hw c s started) = Some 0 ->
   Exists (fun run => has_signal run.2 = true) runs)
  /\ (exit_status (relaunch runs hw c s started) = Some 1 ->
      Exists (fun run => start_status run.1 ua au <> 0) runs).
Proof.
  induction runs as [|[env events] runs IH]; intros c s started Hua Hau.
  { split; intros [=]. }
  rewrite relaunch_unfold. cbv zeta.
  pose proof (start_server_returns env hw (server_name c) (display c) (tcp c)
    (udp c) (videoflip c) (use_audio c) (debug_log c) (videosink c)
    (audiosink c) (set_connections_stopped false s)) as Hst.
  fold (start env hw c (set_connections_stopped false s)) in Hst.
  rewrite Hua, Hau in Hst.
  destruct (negb (_ =? 0)) eqn:E.
  - split; [intros [=]|]. intros _. apply Exists_cons_hd. cbn [fst].
    rewrite <- Hst. lia.
  - set (c' := after_start env hw c (set_connections_stopped false s)) in *.
    assert (use_audio c' = ua /\ audiosink c' = au) as [Hua' Hau']
      by (subst c'; by unfold after_start).
    destruct (negb (main_loop _ _ _).2) eqn:Eq; [split; intros [=]|].
    apply negb_false_iff in Eq.
    destruct (relaunch_server (main_loop _ _ _).1) eqn:Er.
    + destruct (IH c' (stop_server (main_loop (server_timeout c') events
        (start env hw c (set_connections_stopped false s)).2).1)
        (started ++ [c]) Hua' Hau') as [H0 H1].
      split; intros H; apply Exists_cons_tl; auto.
    + split; [|intros [=]]. intros _. apply Exists_cons_hd. cbn [snd].
      by eapply quit_without_relaunch.
Qed.

End ExitStatus.

(** X14.  From the label [relaunch] on, [main] ends with status 0 only when
    a SIGINT or SIGTERM was among the events of some pass, and with status 1
    only when [start_server] failed in some pass. *)
Theorem exit_status_causes runs hw c s started :
  (exit_status (relaunch runs hw c s started) = Some 0 ->
   Exists (fun run => has_signal run.2 = true) runs)
  /\ (exit_status (relaunch runs hw c s started) = Some 1 ->
      Exists (fun run => start_status run.1 (use_audio c) (audiosink c) <> 0)
        runs).
Proof. by apply relaunch_status. Qed.

Lemma exit_status_causes_witness :
  Exists (fun run : Env * list event => has_signal run.2 = true)
    [(all_ok, [ConnInit; ConnDestroy; Tick; Tick]); (all_ok, [Tick; SIGTERM])]
  /\ Exists (fun run : Env * list event =>
               start_status run.1 (use_audio initial_config)
                 (audiosink initial_config) <> 0)
       [(all_ok, [ConnInit; ConnDestroy; Tick; Tick]); (no_logger, [])].
Proof.
  split.
  - refine (proj1 (exit_status_causes
      [(all_ok, [ConnInit; ConnDestroy; Tick; Tick]); (all_ok, [Tick; SIGTERM])]
      [] (set_server_timeout 2 initial_config) initial_state []) _).
    by vm_compute.
  - refine (proj2 (exit_status_causes
      [(all_ok, [ConnInit; ConnDestroy; Tick; Tick]); (no_logger, [])]
      [] (set_server_timeout 2 initial_config) initial_state []) _).
    by vm_compute.
Defined.
